(** * SyncUsingWS: a shallow embedding of the synchronisation engine

    The Go packages [util] (retry.go), [config] (config.go), [client]
    (webdav.go) and [sync] (sync.go) are embedded as Rocq functions.

    - Instants ([time.Time]) are integers counting nanoseconds, durations
      ([time.Duration], an int64) are integers with the wrap-around of
      int64 arithmetic written out where the code multiplies.
    - The local file system is a finite map from cleaned paths to nodes,
      with the operations of package [os] the code calls. It is reliable:
      an operation fails only for a reason the map shows (a missing path,
      a directory where a file is expected). Paths are taken as
      [filepath.Clean] reads them; there are no symbolic links.
    - The WebDAV server reached through gowebdav is not part of the
      repository: it is an interface ([WebDAV]) whose operations may
      answer anything, so every theorem holds for every server behaviour.
    - [log.Printf] and [time.Sleep] append to a trace, which is how the
      order of transfers, deletions and back-off delays is observed; the
      progress lines drawn on the terminal are events of the same trace.
    - The goroutines of one directory level are run one after the other in
      dispatch order; the semaphore is not modelled. *)

From stdpp Require Import base numbers list strings gmap.
From Stdlib Require Import ZArith Ascii Sorted Permutation.
From Stdlib Require OrderedTypeEx.

Open Scope string_scope.
Open Scope list_scope.
Open Scope Z_scope.

Set Default Proof Using "Type".

(** ** Package time *)

Module time.

(** [time.Time] without monotonic reading: nanoseconds since the epoch. *)
Definition Time := Z.

(** [time.Duration] is an int64 count of nanoseconds. *)
Definition Duration := Z.

Definition Second : Duration := 1000000000.
Definition Millisecond : Duration := 1000000.

(** Two's complement wrap-around of int64 arithmetic. *)
Definition wrap64 (z : Z) : Z := (z + 2 ^ 63) `mod` 2 ^ 64 - 2 ^ 63.

Definition Add (t : Time) (d : Duration) : Time := t + d.
Definition After (t u : Time) : bool := u <? t.
Definition Before (t u : Time) : bool := t <? u.

End time.

Abbreviation Time := time.Time.
Abbreviation Duration := time.Duration.

(** ** Go error values

    One constructor per [fmt.Errorf] site of the repository; errors that
    come from [os], [io] or gowebdav carry their message. *)

Inductive error : Type :=
  | External (msg : string)
  | Wrapped (context : string) (cause : error)
  | WrappedAt (context : string) (path : string) (cause : error)
  | RetryFailed (attempts : Z) (last : error)
  | RetryFailedNil (attempts : Z)
  | SyncErrors (count : nat) (first : error)
  | UnknownSyncMode (mode : string).

(** [err.Error()], as far as [FileExists] inspects it: the message of an
    error that gowebdav returned. *)
Definition error_text (e : string) : string := e.

(** [strings.Contains]. *)
Definition strings_Contains (s substr : string) : bool :=
  if String.index 0 substr s is Some _ then true else false.

(** [strings.HasPrefix] and [strings.HasSuffix]. *)
Definition strings_HasPrefix (s p : string) : bool := String.prefix p s.

Definition strings_HasSuffix (s p : string) : bool :=
  String.prefix (String.rev p) (String.rev s).

(** ** Package path/filepath (Unix separators) *)

Module filepath.

(** [strings.Split(s, "/")]. *)
Fixpoint split (s : string) : list string :=
  match s with
  | EmptyString => [EmptyString]
  | String c s' =>
      if Ascii.eqb c "/"%char then EmptyString :: split s'
      else match split s' with
           | x :: xs => String c x :: xs
           | [] => [String c EmptyString]
           end
  end.

(** [strings.Join(l, "/")]. *)
Fixpoint join (l : list string) : string :=
  match l with
  | [] => ""
  | [x] => x
  | x :: xs => x +:+ "/" +:+ join xs
  end.

(** A cleaned path: whether it is rooted, and its elements from the
    root down. *)
Definition Key : Type := bool * list string.

(** One element of [Clean]'s scan; [st] is the output so far, last
    element first. *)
Definition step (rooted : bool) (st : list string) (seg : string) : list string :=
  if String.eqb seg "" || String.eqb seg "." then st
  else if String.eqb seg ".." then
    match st with
    | x :: st' => if String.eqb x ".." then seg :: st else st'
    | [] => if rooted then [] else [seg]
    end
  else seg :: st.

Definition parse (p : string) : Key :=
  let rooted := String.prefix "/" p in
  (rooted, rev (fold_left (step rooted) (split p) [])).

Definition render (k : Key) : string :=
  let '(rooted, segs) := k in
  if rooted then "/" +:+ join segs
  else if segs is [] then "." else join segs.

Definition Clean (p : string) : string := render (parse p).

(** [filepath.Join] of two elements. *)
Definition Join (a b : string) : string :=
  if negb (String.eqb a "") then Clean (a +:+ "/" +:+ b)
  else if negb (String.eqb b "") then Clean b
  else "".

(** [filepath.Dir]: everything up to the last separator, cleaned. *)
Definition Dir (p : string) : string :=
  match rev (split p) with
  | _ :: (y :: r) => Clean (join (rev (y :: r)) +:+ "/")
  | _ => "."
  end.

Fixpoint drop_empty (l : list string) : list string :=
  match l with
  | x :: l' => if String.eqb x "" then drop_empty l' else l
  | [] => []
  end.

(** [filepath.Base]: the last element, trailing separators removed. *)
Definition Base (p : string) : string :=
  if String.eqb p "" then "."
  else match drop_empty (rev (split p)) with
       | x :: _ => x
       | [] => "/"
       end.

Fixpoint strip_common (a b : list string) : list string * list string :=
  match a, b with
  | x :: a', y :: b' => if String.eqb x y then strip_common a' b' else (a, b)
  | _, _ => (a, b)
  end.

(** [filepath.Rel]. *)
Definition Rel (basepath targpath : string) : string + string :=
  let '(rb, sb) := parse basepath in
  let '(rt, st) := parse targpath in
  if String.eqb (Clean targpath) (Clean basepath) then inl "."
  else if negb (Bool.eqb rb rt) then
    inr ("Rel: can't make " +:+ targpath +:+ " relative to " +:+ basepath)
  else
    let '(sb', st') := strip_common sb st in
    match sb' with
    | x :: _ =>
        if String.eqb x ".." then
          inr ("Rel: can't make " +:+ targpath +:+ " relative to " +:+ basepath)
        else inl (join (replicate (length sb') ".." ++ st'))
    | [] => inl (join st')
    end.

(** [filepath.ToSlash] is the identity where the separator is a slash. *)
Definition ToSlash (p : string) : string := p.

End filepath.

(** ** Insertion sort

    The order in which [os.ReadDir] and [filepath.Walk] present names, and
    one implementation of [sort.Slice] (Go's own choice for short slices:
    an element moves left while it is less than its predecessor). *)

Section InsertionSort.
Context {A : Type} (less : A → A → bool).

Fixpoint insert_sorted (x : A) (l : list A) : list A :=
  match l with
  | [] => [x]
  | y :: l' => if less x y then x :: l else y :: insert_sorted x l'
  end.

Definition insertion_sort (l : list A) : list A :=
  fold_left (λ acc x, insert_sorted x acc) l [].
End InsertionSort.

(** ** Package io/fs: what a directory listing says about one entry *)

Record fs_FileInfo := {
  fi_Name : string;
  fi_Size : Z;
  fi_ModTime : Time;
  fi_IsDir : bool
}.

(** ** Package os: the local file system *)

Module os.
Import filepath.

Record Node := {
  nIsDir : bool;
  nData : list Byte.byte;
  nModTime : Time
}.

Abbreviation FS := (gmap Key Node).

Definition dir_node (now : Time) : Node :=
  {| nIsDir := true; nData := []; nModTime := now |}.

Definition file_node (data : list Byte.byte) (now : Time) : Node :=
  {| nIsDir := false; nData := data; nModTime := now |}.

Definition info (name : string) (n : Node) : fs_FileInfo :=
  {| fi_Name := name; fi_Size := Z.of_nat (length (nData n));
     fi_ModTime := nModTime n; fi_IsDir := nIsDir n |}.

Definition parent (k : Key) : Key := (k.1, removelast k.2).

Definition is_dir (fs : FS) (k : Key) : bool :=
  if fs !! k is Some n then nIsDir n else false.

(** [k'] lies strictly below [k]. *)
Definition below (k k' : Key) : bool :=
  Bool.eqb k.1 k'.1 && (length k.2 <? length k'.2)%nat
  && bool_decide (take (length k.2) k'.2 = k.2).

Definition at_or_below (k k' : Key) : bool :=
  bool_decide (k' = k) || below k k'.

(** [os.Stat] (there are no symbolic links, so also [os.Lstat]). *)
Definition Stat (p : string) (fs : FS) : fs_FileInfo + string :=
  match fs !! parse p with
  | Some n => inl (info (Base p) n)
  | None => inr ("stat " +:+ p +:+ ": no such file or directory")
  end.

Fixpoint mkdirs (r : bool) (pre rest : list string) (now : Time) (fs : FS)
  : option string * FS :=
  match rest with
  | [] => (None, fs)
  | x :: rest' =>
      let k := (r, pre ++ [x]) in
      match fs !! k with
      | Some n =>
          if nIsDir n then mkdirs r (pre ++ [x]) rest' now fs
          else (Some ("mkdir " +:+ render k +:+ ": not a directory"), fs)
      | None => mkdirs r (pre ++ [x]) rest' now (<[k := dir_node now]> fs)
      end
  end.

(** [os.MkdirAll]: the directory and every missing parent. The empty
    path names nothing: [Stat] and [Mkdir] of it fail, and so does
    [MkdirAll]. *)
Definition MkdirAll (p : string) (now : Time) (fs : FS) : option string * FS :=
  if String.eqb p "" then (Some "mkdir : no such file or directory", fs)
  else let '(r, segs) := parse p in mkdirs r [] segs now fs.

(** [os.Create]: a new empty file, or an existing file truncated; the
    handle is the key of the file. *)
Definition Create (p : string) (now : Time) (fs : FS) : (Key + string) * FS :=
  let k := parse p in
  match fs !! k with
  | Some n =>
      if nIsDir n then (inr ("open " +:+ p +:+ ": is a directory"), fs)
      else (inl k, <[k := file_node [] now]> fs)
  | None =>
      if is_dir fs (parent k) then (inl k, <[k := file_node [] now]> fs)
      else (inr ("open " +:+ p +:+ ": no such file or directory"), fs)
  end.

(** [File.Write] on the handle [k]. *)
Definition Write (k : Key) (data : list Byte.byte) (now : Time) (fs : FS) : FS :=
  match fs !! k with
  | Some n =>
      if nIsDir n then fs else <[k := file_node (nData n ++ data) now]> fs
  | None => fs
  end.

Definition has_children (fs : FS) (k : Key) : bool :=
  existsb (λ e, below k e.1) (map_to_list fs).

(** [os.Remove]: one file or one empty directory. *)
Definition Remove (p : string) (fs : FS) : option string * FS :=
  let k := parse p in
  match fs !! k with
  | None => (Some ("remove " +:+ p +:+ ": no such file or directory"), fs)
  | Some n =>
      if nIsDir n && has_children fs k
      then (Some ("remove " +:+ p +:+ ": directory not empty"), fs)
      else (None, delete k fs)
  end.

(** [os.RemoveAll]: the path and everything below it; a missing path is
    not an error. *)
Definition RemoveAll (p : string) (fs : FS) : option string * FS :=
  let k := parse p in
  (None, filter (λ e, at_or_below k e.1 = false) fs).

Definition rebase (ko kn k : Key) : Key :=
  if at_or_below ko k then (kn.1, kn.2 ++ drop (length ko.2) k.2) else k.

(** [os.Rename]: a regular file replaces a regular file at the new
    path; a directory moves with everything below it. *)
Definition Rename (oldpath newpath : string) (fs : FS) : option string * FS :=
  let ko := parse oldpath in
  let kn := parse newpath in
  let failed := Some ("rename " +:+ oldpath +:+ " " +:+ newpath +:+ ": failed") in
  match fs !! ko with
  | None => (failed, fs)
  | Some n =>
      match fs !! kn with
      | Some m =>
          if nIsDir n || nIsDir m then (failed, fs)
          else (None, <[kn := n]> (delete ko fs))
      | None =>
          if negb (is_dir fs (parent kn)) then (failed, fs)
          else if nIsDir n
          then (None, list_to_map (prod_map (rebase ko kn) id <$> map_to_list fs))
          else (None, <[kn := n]> (delete ko fs))
      end
  end.

(** [os.Chtimes]. *)
Definition Chtimes (p : string) (mtime : Time) (fs : FS) : option string * FS :=
  let k := parse p in
  match fs !! k with
  | None => (Some ("chtimes " +:+ p +:+ ": no such file or directory"), fs)
  | Some n =>
      (None, <[k := {| nIsDir := nIsDir n; nData := nData n; nModTime := mtime |}]> fs)
  end.

Definition last_name (k : Key) : string := List.last k.2 "".

(** [os.ReadDir]: the entries of a directory, sorted by name. *)
Definition ReadDir (p : string) (fs : FS) : list fs_FileInfo + string :=
  let k := parse p in
  if is_dir fs k then
    let children :=
      List.filter (λ e : Key * Node, below k e.1 && bool_decide (parent e.1 = k))
        (map_to_list fs) in
    inl (insertion_sort (λ a b, String.ltb (fi_Name a) (fi_Name b))
           ((λ e : Key * Node, info (last_name e.1) e.2) <$> children))
  else inr ("open " +:+ p +:+ ": not a directory").

(** [os.Open] followed by reading the file to its end. *)
Definition ReadFile (p : string) (fs : FS) : list Byte.byte + string :=
  match fs !! parse p with
  | Some n =>
      if nIsDir n then inr ("read " +:+ p +:+ ": is a directory")
      else inl (nData n)
  | None => inr ("open " +:+ p +:+ ": no such file or directory")
  end.

Fixpoint segs_ltb (a b : list string) : bool :=
  match a, b with
  | _, [] => false
  | [], _ :: _ => true
  | x :: a', y :: b' => if String.eqb x y then segs_ltb a' b' else String.ltb x y
  end.

(** Every directory on the way from [k] down to [k'] ([k] included,
    [k'] excluded) exists: [k'] is reached by a walk from [k]. *)
Definition reachable (fs : FS) (k k' : Key) : bool :=
  forallb (λ n, is_dir fs (k'.1, take n k'.2))
    (seq (length k.2) (length k'.2 - length k.2)).

(** The paths [filepath.Walk] visits from [root], in its order: the
    root as it was given, then everything below it in lexical order,
    each as [filepath.Join] of its parent and its name. *)
Definition walk_paths (root : string) (fs : FS) : list string :=
  let k := parse root in
  let under :=
    List.filter (λ e : Key * Node, below k e.1 && reachable fs k e.1)
      (map_to_list fs) in
  root :: (render <$> insertion_sort (λ a b : Key, segs_ltb a.2 b.2) (fst <$> under)).

End os.

(** ** Package sort

    [sort.Slice] is not stable and its algorithm depends on the length of
    the slice, so it is taken by its contract: the result is a
    rearrangement of the slice in which no element is less than an
    earlier one, whenever [less] is a strict weak order. *)

Definition ordered_by {A : Type} (less : A → A → bool) (l : list A) : Prop :=
  ∀ i j x y, (i < j)%nat → l !! i = Some x → l !! j = Some y → less y x = false.

Definition strict_weak {A : Type} (less : A → A → bool) : Prop :=
  (∀ x y, less x y = true → less y x = false) ∧
  (∀ x y z, less y x = false → less z y = false → less z x = false).

Class SortSlice := {
  sort_Slice : ∀ {A : Type}, (A → A → bool) → list A → list A;
  sort_Slice_perm : ∀ {A : Type} (less : A → A → bool) (l : list A),
    Permutation (sort_Slice less l) l;
  sort_Slice_ordered : ∀ {A : Type} (less : A → A → bool) (l : list A),
    strict_weak less → ordered_by less (sort_Slice less l)
}.

(** ** Package config (config.go) *)

Module config.

Definition SyncMode := string.

Definition BackupMode : SyncMode := "backup".
Definition RestoreMode : SyncMode := "restore".

Record Config := {
  WebdavURL : string;
  WebdavUsername : string;
  WebdavPassword : string;
  LocalDir : string;
  Mode : string;
  SyncDelete : bool;
  CompareContent : bool;
  MaxConcurrent : Z;
  MaxRetries : Z;
  RetryDelay : Duration
}.

Definition NewDefaultConfig : Config :=
  {| WebdavURL := "http://localhost:5244/dav";
     WebdavUsername := "guest";
     WebdavPassword := "guest";
     LocalDir := "./sync";
     Mode := RestoreMode;
     SyncDelete := false;
     CompareContent := false;
     MaxConcurrent := 5;
     MaxRetries := 3;
     RetryDelay := 2 * time.Second |}.

Definition with_mode (m : string) (c : Config) : Config :=
  {| WebdavURL := WebdavURL c; WebdavUsername := WebdavUsername c;
     WebdavPassword := WebdavPassword c; LocalDir := LocalDir c;
     Mode := m; SyncDelete := SyncDelete c;
     CompareContent := CompareContent c; MaxConcurrent := MaxConcurrent c;
     MaxRetries := MaxRetries c; RetryDelay := RetryDelay c |}.

Definition with_delete (d : bool) (c : Config) : Config :=
  {| WebdavURL := WebdavURL c; WebdavUsername := WebdavUsername c;
     WebdavPassword := WebdavPassword c; LocalDir := LocalDir c;
     Mode := Mode c; SyncDelete := d;
     CompareContent := CompareContent c; MaxConcurrent := MaxConcurrent c;
     MaxRetries := MaxRetries c; RetryDelay := RetryDelay c |}.

(** [LoadFromArgs] once the configuration file has been read into [c]:
    the flags [-mode] and [-sync-delete] take precedence, then the mode
    is validated. *)
Definition LoadFromArgs (mode : string) (syncDelete : bool) (c : Config) : Config :=
  let c := if negb (String.eqb mode "") then with_mode mode c else c in
  let c := if syncDelete then with_delete true c else c in
  if negb (String.eqb (Mode c) BackupMode) && negb (String.eqb (Mode c) RestoreMode)
  then with_mode RestoreMode c
  else c.

Definition GetSyncMode (c : Config) : SyncMode :=
  if String.eqb (Mode c) BackupMode then BackupMode
  else if String.eqb (Mode c) RestoreMode then RestoreMode
  else RestoreMode.


End config.

(** ** What a run leaves behind: log lines and sleeps *)

Inductive LogMsg : Type :=
  | LogRetry (attempt attempts : Z) (e : error) (sleep : Duration)
  | LogBackupMode (localDir url : string)
  | LogRestoreMode (url localDir : string)
  | LogCheckLocalExtras
  | LogCheckRemoteExtras
  | LogDeleteLocal (path : string)
  | LogDeleteRemote (path : string)
  | LogDeleteFailed (path : string) (e : error)
  | LogRestoreFailed (e : error)
  | LogRestoreDone
  | LogBackupFailed (e : error)
  | LogBackupDone
  | LogMkdirRemote (path : string)
  | LogSkip (path : string)
  | LogUpload (path : string) (size : Z)
  | LogUploadFailed (path : string) (e : error)
  | LogUploadDone (path : string) (size : Z)
  | LogDownload (path : string) (size : Z)
  | LogDownloadFailed (path : string) (e : error)
  | LogDownloadDone (path : string) (size : Z).

Inductive Event : Type :=
  | Log (m : LogMsg)
  | Sleep (d : Duration)
  | Display (path : string) (moved total : Z).

(** The two effects [util.Retry] has on its own. *)
Class Runtime (W : Type) := {
  log_Printf : LogMsg → W → W;
  time_Sleep : Duration → W → W
}.

(** ** Package util (retry.go) *)

Module util.
Section Retry.
Context {W : Type} `{!Runtime W}.

(** The loop [for i := 0; i < attempts; i++]; [n] counts the
    iterations that remain and [err] is the variable of that name. *)
Fixpoint Retry_loop (n : nat) (attempts i : Z) (sleep : Duration)
    (err : option error) (operation : W → option error * W) (w : W)
    : option error * W :=
  match n with
  | O =>
      (Some (match err with
             | Some e => RetryFailed attempts e
             | None => RetryFailedNil attempts
             end), w)
  | S n' =>
      let '(err, w) := operation w in
      match err with
      | None => (None, w)
      | Some e =>
          if i <? attempts - 1 then
            let w := log_Printf (LogRetry (i + 1) attempts e sleep) w in
            let w := time_Sleep sleep w in
            let sleep := time.wrap64 (sleep * 2) in
            Retry_loop n' attempts (i + 1) sleep (Some e) operation w
          else
            Retry_loop n' attempts (i + 1) sleep (Some e) operation w
      end
  end.

Definition Retry (attempts : Z) (sleep : Duration)
    (operation : W → option error * W) (w : W) : option error * W :=
  Retry_loop (Z.to_nat attempts) attempts 0 sleep None operation w.
End Retry.
End util.

(** ** The world a run acts on *)

Record World (R : Type) := mkWorld {
  w_fs : os.FS;          (* the local file system *)
  w_clock : Time;        (* the local clock *)
  w_remote : R;          (* the WebDAV server *)
  w_trace : list Event   (* log lines and sleeps, oldest first *)
}.
Arguments mkWorld {R}.
Arguments w_fs {R}.
Arguments w_clock {R}.
Arguments w_remote {R}.
Arguments w_trace {R}.

Section WorldOps.
Context {R : Type}.

Definition set_fs (fs : os.FS) (w : World R) : World R :=
  mkWorld fs (w_clock w) (w_remote w) (w_trace w).

Definition set_remote (r : R) (w : World R) : World R :=
  mkWorld (w_fs w) (w_clock w) r (w_trace w).

Definition emit (e : Event) (w : World R) : World R :=
  mkWorld (w_fs w) (w_clock w) (w_remote w) (w_trace w ++ [e]).

(** [time.Sleep] returns at once for a duration that is not positive. *)
Definition sleep (d : Duration) (w : World R) : World R :=
  emit (Sleep d) (mkWorld (w_fs w) (w_clock w + Z.max d 0) (w_remote w) (w_trace w)).

#[export] Instance World_Runtime : Runtime (World R) :=
  {| log_Printf m := emit (Log m); time_Sleep := sleep |}.

(** An operation of package [os] that changes the file system. *)
Definition on_fs {A : Type} (f : os.FS → A * os.FS) (w : World R) : A * World R :=
  let '(a, fs) := f (w_fs w) in (a, set_fs fs w).
End WorldOps.

(** ** The WebDAV server, as gowebdav presents it

    What the server answers is its own business: each operation maps the
    state of the server to an answer and a new state. A stream is read
    chunk by chunk, each read taking some time, and ends either at EOF
    ([None]) or with an error. [dav_WriteStream] also tells in which
    chunks it consumed the reader it was given. *)

Record Chunk := {
  took : Duration;
  bytes : list Byte.byte
}.

Record Stream := {
  chunks : list Chunk;
  final : option string
}.

Class WebDAV (R : Type) := {
  dav_ReadDir : string → R → (list fs_FileInfo + string) * R;
  dav_Stat : string → R → (fs_FileInfo + string) * R;
  dav_ReadStream : string → R → (Stream + string) * R;
  dav_WriteStream : string → list Byte.byte → R → (list Chunk * option string) * R;
  dav_Mkdir : string → R → option string * R;
  dav_Remove : string → R → option string * R
}.

(** A progress callback only draws on the terminal: it is given the bytes
    moved and the total (speed and percentage are floating-point values
    derived from them) and yields the event to record. *)
Definition ProgressCallback := Z → Z → Event.

(** ** Package client (webdav.go) *)

Module client.
Import filepath.

Record FileInfo := {
  Path : string;
  IsDir : bool;
  LastModified : Time;
  Size : Z
}.

Section Client.
Context {R : Type} `{!WebDAV R}.

Definition on_remote {A : Type} (f : R → A * R) (w : World R) : A * World R :=
  let '(a, r) := f (w_remote w) in (a, set_remote r w).

Definition listRemoteFiles (remotePath : string) (w : World R)
  : (list FileInfo + error) * World R :=
  let remotePath :=
    if negb (strings_HasPrefix remotePath "/") then "/" +:+ remotePath
    else remotePath in
  let remotePath := if String.eqb remotePath "/" then "" else remotePath in
  let '(r, w) := on_remote (dav_ReadDir remotePath) w in
  match r with
  | inr e => (inr (WrappedAt "read directory failed" remotePath (External e)), w)
  | inl files =>
      (inl ((λ file,
             let path := remotePath in
             let path :=
               if negb (String.eqb path "") && negb (strings_HasSuffix path "/")
               then path +:+ "/" else path in
             let path := path +:+ fi_Name file in
             {| Path := path; IsDir := fi_IsDir file;
                LastModified := fi_ModTime file; Size := fi_Size file |})
            <$> files), w)
  end.

Definition ListFiles (remotePath : string) (w : World R)
  : (list FileInfo + error) * World R :=
  let '(r, w) := listRemoteFiles remotePath w in
  match r with
  | inr e => (inr e, w)
  | inl files =>
      (inl (List.filter
              (λ file,
               let name := Base (Path file) in
               negb (String.eqb name "." || String.eqb name ".."))
              files), w)
  end.

Definition ReadStream (remotePath : string) (w : World R)
  : (Stream + string) * World R :=
  on_remote (dav_ReadStream remotePath) w.

(** One [Read] of the stream: time passes and the bytes arrive. *)
Definition read_chunk (c : Chunk) (w : World R) : World R :=
  mkWorld (w_fs w) (w_clock w + Z.max (took c) 0) (w_remote w) (w_trace w).

Definition write_chunk (file : Key) (c : Chunk) (w : World R) : World R :=
  set_fs (os.Write file (bytes c) (w_clock w) (w_fs w)) w.

(** [io.Copy(file, reader)]. *)
Fixpoint io_Copy (file : Key) (reads : list Chunk) (w : World R) : World R :=
  match reads with
  | [] => w
  | c :: reads' => io_Copy file reads' (write_chunk file c (read_chunk c w))
  end.

(** The closure [updateProgress] and the variables it captures. *)
Record Progress := {
  moved : Z;           (* downloaded, uploaded *)
  lastUpdateTime : Time;
  lastMoved : Z        (* lastDownloaded, lastUploaded *)
}.

Definition updateProgress (progressCb : ProgressCallback) (totalSize : Z)
    (n : Z) (p : Progress) (w : World R) : Progress * World R :=
  let moved' := moved p + n in
  let now := w_clock w in
  let elapsed := now - lastUpdateTime p in
  if (100 * time.Millisecond <=? elapsed) || (moved' =? n) || (totalSize <=? moved')
  then ({| moved := moved'; lastUpdateTime := now; lastMoved := moved' |},
        emit (progressCb moved' totalSize) w)
  else ({| moved := moved'; lastUpdateTime := lastUpdateTime p;
           lastMoved := lastMoved p |}, w).

(** The wrapped [Read]: the progress is updated when bytes arrived. *)
Definition read_with_progress (progressCb : ProgressCallback) (totalSize : Z)
    (c : Chunk) (p : Progress) (w : World R) : Progress * World R :=
  let w := read_chunk c w in
  let n := Z.of_nat (length (bytes c)) in
  if 0 <? n then updateProgress progressCb totalSize n p w else (p, w).

(** [io.CopyBuffer(file, readerFunc(read), buf)]. *)
Fixpoint io_CopyBuffer (progressCb : ProgressCallback) (totalSize : Z)
    (file : Key) (reads : list Chunk) (p : Progress) (w : World R) : World R :=
  match reads with
  | [] => w
  | c :: reads' =>
      let '(p, w) := read_with_progress progressCb totalSize c p w in
      io_CopyBuffer progressCb totalSize file reads' p (write_chunk file c w)
  end.

Definition DownloadFileWithProgress (remotePath localPath : string)
    (remoteModTime : Time) (progressCb : option ProgressCallback)
    (w : World R) : option error * World R :=
  let '(r, w) := on_remote (dav_Stat remotePath) w in
  match r with
  | inr e => (Some (Wrapped "stat of remote file failed" (External e)), w)
  | inl fileInfo =>
      let totalSize := fi_Size fileInfo in
      let '(r, w) := ReadStream remotePath w in
      match r with
      | inr e => (Some (Wrapped "read of remote file failed" (External e)), w)
      | inl reader =>
          let tmpFile := localPath +:+ ".download" in
          let '(r, w) := on_fs (os.Create tmpFile (w_clock w)) w in
          match r with
          | inr e => (Some (External e), w)
          | inl file =>
              (* From here on the deferred function runs at return.
                 [ret] is the value returned, [err] the variable the
                 deferred function tests. *)
              let '(ret, err, w) :=
                let w :=
                  match progressCb with
                  | Some cb =>
                      let startTime := w_clock w in
                      io_CopyBuffer cb totalSize file (chunks reader)
                        {| moved := 0; lastUpdateTime := startTime; lastMoved := 0 |} w
                  | None => io_Copy file (chunks reader) w
                  end in
                match final reader with
                | Some e => (Some (External e), Some (External e), w)
                | None =>
                    (* file.Close() succeeds *)
                    let '(r, w) := on_fs (os.Rename tmpFile localPath) w in
                    match r with
                    | Some e => (Some (External e), Some (External e), w)
                    | None =>
                        let '(r, w) :=
                          on_fs (os.Chtimes localPath remoteModTime) w in
                        (External <$> r, None, w)
                    end
                end in
              (* defer: file.Close(); if err != nil { os.Remove(tmpFile) } *)
              let w := if err is Some _
                       then (on_fs (os.Remove tmpFile) w).2 else w in
              (ret, w)
          end
      end
  end.

Definition DownloadFile (remotePath localPath : string) (remoteModTime : Time)
    (w : World R) : option error * World R :=
  DownloadFileWithProgress remotePath localPath remoteModTime None w.

(** [strings.TrimPrefix(s, "/")]. *)
Definition trim_slash (s : string) : string :=
  match s with
  | String c s' => if Ascii.eqb c "/"%char then s' else s
  | EmptyString => s
  end.

Fixpoint MakeDir_loop (parts : list string) (current : string) (w : World R)
  : option error * World R :=
  match parts with
  | [] => (None, w)
  | part :: parts' =>
      let current := if negb (String.eqb current "") then current +:+ "/" else current in
      let current := current +:+ part in
      let '(err, w) := on_remote (dav_Mkdir current) w in
      match err with
      | None => MakeDir_loop parts' current w
      | Some e =>
          let '(r, w) := on_remote (dav_Stat current) w in
          match r with
          | inl info =>
              if fi_IsDir info then MakeDir_loop parts' current w
              else (Some (WrappedAt "create directory failed" current (External e)), w)
          | inr _ => (Some (WrappedAt "create directory failed" current (External e)), w)
          end
      end
  end.

Definition MakeDir (remotePath : string) (w : World R) : option error * World R :=
  let remotePath := trim_slash remotePath in
  if String.eqb remotePath "" then (None, w)
  else MakeDir_loop (split remotePath) "" w.

(** The progress of an upload follows the reads gowebdav made. *)
Fixpoint upload_progress (progressCb : ProgressCallback) (totalSize : Z)
    (reads : list Chunk) (p : Progress) (w : World R) : World R :=
  match reads with
  | [] => w
  | c :: reads' =>
      let '(p, w) := read_with_progress progressCb totalSize c p w in
      upload_progress progressCb totalSize reads' p w
  end.

Definition UploadFileWithProgress (localPath remotePath : string)
    (localModTime : Time) (progressCb : option ProgressCallback)
    (w : World R) : option error * World R :=
  match os.Stat localPath (w_fs w) with
  | inr e => (Some (Wrapped "stat of local file failed" (External e)), w)
  | inl fileInfo =>
      let totalSize := fi_Size fileInfo in
      match os.ReadFile localPath (w_fs w) with
      | inr e => (Some (Wrapped "open of local file failed" (External e)), w)
      | inl file =>
          let remoteDir := Dir remotePath in
          let '(err, w) :=
            if negb (String.eqb remoteDir ".") && negb (String.eqb remoteDir "/")
            then MakeDir remoteDir w else (None, w) in
          match err with
          | Some e => (Some (Wrapped "create remote directory failed" e), w)
          | None =>
              let startTime := w_clock w in
              let '(reads, err, w) := on_remote (dav_WriteStream remotePath file) w in
              let w :=
                match progressCb with
                | Some cb =>
                    upload_progress cb totalSize reads
                      {| moved := 0; lastUpdateTime := startTime; lastMoved := 0 |} w
                | None => fold_left (λ w c, read_chunk c w) reads w
                end in
              match err with
              | Some e => (Some (Wrapped "upload failed" (External e)), w)
              | None => (None, w)
              end
          end
      end
  end.

Definition UploadFile (localPath remotePath : string) (localModTime : Time)
    (w : World R) : option error * World R :=
  UploadFileWithProgress localPath remotePath localModTime None w.

Definition RemoveRemote (remotePath : string) (w : World R)
  : option error * World R :=
  let '(r, w) := on_remote (dav_Remove remotePath) w in (External <$> r, w).

Definition FileExists (remotePath : string) (w : World R)
  : (bool * option error) * World R :=
  let '(r, w) := on_remote (dav_Stat remotePath) w in
  match r with
  | inr e =>
      if strings_Contains (error_text e) "404"
         || strings_Contains (error_text e) "not found"
      then ((false, None), w)
      else ((false, Some (External e)), w)
  | inl _ => ((true, None), w)
  end.

(** [RemoveRemoteAll]; [fuel] bounds the depth of the remote tree. A
    path that cannot be examined counts as deleted, whatever the error. *)
Fixpoint RemoveRemoteAll (fuel : nat) (remotePath : string) (w : World R)
  : option (option error * World R) :=
  match fuel with
  | O => None
  | S fuel' =>
      let '(r, w) := on_remote (dav_Stat remotePath) w in
      match r with
      | inr _ => Some (None, w)
      | inl info =>
          let contents :=
            if fi_IsDir info then
              let '(r, w) := ListFiles remotePath w in
              match r with
              | inr e => Some (Some (Wrapped "list of remote directory failed" e), w)
              | inl files =>
                  (fix loop (files : list FileInfo) (w : World R) :=
                     match files with
                     | [] => Some (None, w)
                     | file :: files' =>
                         match RemoveRemoteAll fuel' (Path file) w with
                         | None => None
                         | Some (Some e, w) => Some (Some e, w)
                         | Some (None, w) => loop files' w
                         end
                     end) files w
              end
            else Some (None, w) in
          match contents with
          | None => None
          | Some (Some e, w) => Some (Some e, w)
          | Some (None, w) => Some (RemoveRemote remotePath w)
          end
      end
  end.
End Client.
End client.

(** [filepath.Walk]: [fn] is called for the root and for everything below
    it until it returns an error; when the root cannot be examined, [fn]
    is called once with that error. [acc] is the state [fn] closes over. *)
Definition filepath_Walk {A : Type} (root : string)
    (fn : string → option fs_FileInfo → option error → A → option error * A)
    (fs : os.FS) (acc : A) : option error * A :=
  match os.Stat root fs with
  | inr e => fn root None (Some (External e)) acc
  | inl _ =>
      fold_left
        (λ (st : option error * A) path,
           match st.1 with
           | Some _ => st
           | None =>
               match os.Stat path fs with
               | inl i => fn path (Some i) None st.2
               | inr e => fn path None (Some (External e)) st.2
               end
           end)
        (os.walk_paths root fs) (None, acc)
  end.

(** ** Package sync (sync.go) *)

Module sync.
Import filepath config client.

(** The goroutines started for the entries of one directory, run one
    after the other in the order they were started; the errors they
    send on [errorsCh] are collected in that order. *)
Fixpoint run_tasks {W A : Type} (task : A → W → option (option error * W))
    (entries : list A) (w : W) : option (list error * W) :=
  match entries with
  | [] => Some ([], w)
  | x :: entries' =>
      match task x w with
      | None => None
      | Some (err, w) =>
          match run_tasks task entries' w with
          | None => None
          | Some (errs, w) => Some (option_list err ++ errs, w)
          end
      end
  end.

(** What [SyncDirectory] and [syncLocalToWebDAV] return once the error
    channel has been drained. *)
Definition collect (syncErrors : list error) : option error :=
  match syncErrors with
  | first :: _ => Some (SyncErrors (length syncErrors) first)
  | [] => None
  end.

(** [findExtraFiles]: the files of [source] that [target] lacks. *)
Definition findExtraFiles (source target : list string) : list string :=
  let targetMap : gmap string bool :=
    fold_left (λ m file, <[file := true]> m) target ∅ in
  fold_left
    (λ extras file,
       if negb (default false (targetMap !! file)) then extras ++ [file]
       else extras)
    source [].

(** The comparison both deletion passes hand to [sort.Slice]. *)
Definition longer_first (a b : string) : bool :=
  (String.length b <? String.length a)%nat.

(** [formatSize]. The text is kept in its parts: the number printed
    with [%d], or the two integers whose quotient is printed with [%.1f]
    and the letter of the unit. [inr exp] is the run-time panic of an
    index [exp] outside ["KMGTPE"]; [fuel] bounds the iterations of the
    loop. *)
Inductive SizeText : Type :=
  | SizeBytes (bytes : Z)
  | SizeScaled (bytes div : Z) (unit : ascii).

(** The loop [for n := bytes / unit; n >= unit; n /= unit]. *)
Fixpoint formatSize_loop (fuel : nat) (n div : Z) (exp : nat) : option (Z * nat) :=
  if 1024 <=? n then
    match fuel with
    | O => None
    | S fuel' =>
        formatSize_loop fuel' (n ÷ 1024) (time.wrap64 (div * 1024)) (S exp)
    end
  else Some (div, exp).

Definition formatSize (fuel : nat) (bytes : Z) : option (SizeText + nat) :=
  if bytes <? 1024 then Some (inl (SizeBytes bytes))
  else
    match formatSize_loop fuel (bytes ÷ 1024) 1024 0 with
    | None => None
    | Some (div, exp) =>
        Some (match String.get exp "KMGTPE" with
              | Some unit => inl (SizeScaled bytes div unit)
              | None => inr exp
              end)
    end.

(** The progress bar that [updateProgress] of the [SyncManager] builds,
    for the value of [completed] it has computed: the loop
    [for i := 0; i < width; i++]. *)
Fixpoint progressBar_loop (n : nat) (i completed : Z) (progressBar : string) : string :=
  match n with
  | O => progressBar
  | S n' =>
      let progressBar :=
        if i <? completed then progressBar +:+ "="
        else if i =? completed then progressBar +:+ ">"
        else progressBar +:+ " " in
      progressBar_loop n' (i + 1) completed progressBar
  end.

Definition progressBar (completed : Z) : string :=
  let width := 40 in
  progressBar_loop (Z.to_nat width) 0 completed "[" +:+ "]".

(** The fields of the [SyncManager] that hand out terminal lines:
    [downloadMap] and [nextLine] (an int of 64 bits). *)
Record Lines := {
  downloadMap : gmap string Z;
  nextLine : Z
}.

(** [NewSyncManager]: no line handed out yet. *)
Definition NewSyncManager : Lines := {| downloadMap := ∅; nextLine := 0 |}.

Definition getLineNumber (filePath : string) (s : Lines) : Z * Lines :=
  let lineNumber := nextLine s in
  (lineNumber,
   {| downloadMap := <[filePath := lineNumber]> (downloadMap s);
      nextLine := time.wrap64 (nextLine s + 1) |}).

Definition releaseLineNumber (filePath : string) (s : Lines) : Lines :=
  {| downloadMap := delete filePath (downloadMap s); nextLine := nextLine s |}.

(** How many lines [clearLine] and [updateProgress] move the cursor up. *)
Definition cursorUp (lineNumber : Z) (s : Lines) : Z :=
  time.wrap64 (nextLine s - lineNumber).

Section Manager.
Context {R : Type} `{!WebDAV R} `{!SortSlice}.

(** The [SyncManager]: its configuration, and whether it is the
    revision that draws progress lines (webdav.go with
    [DownloadFileWithProgress]) or the one that does not. *)
Variable cfg : Config.
Variable showProgress : bool.

Definition progress_of (path : string) : option ProgressCallback :=
  if showProgress then Some (Display path) else None.

Definition syncLocalFileToWebDAV (relPath remotePath : string) (w : World R)
  : option error * World R :=
  let localPath := Join (LocalDir cfg) relPath in
  match os.Stat localPath (w_fs w) with
  | inr e => (Some (WrappedAt "stat of local file failed" localPath (External e)), w)
  | inl localInfo =>
      let needsUpload := true in
      let '(exists_, err, w) := FileExists remotePath w in
      match err with
      | Some e => (Some (WrappedAt "check of remote file failed" remotePath e), w)
      | None =>
          let '(r, w) :=
            if exists_ then
              let '(r, w) := ListFiles (Dir remotePath) w in
              match r with
              | inr e =>
                  (inr (WrappedAt "list of remote directory failed"
                          (Dir remotePath) e), w)
              | inl remoteFiles =>
                  match List.find
                          (λ remoteFile,
                             String.eqb (Base (Path remoteFile)) (Base remotePath))
                          remoteFiles with
                  | Some remoteFile =>
                      let localModTime := fi_ModTime localInfo in
                      let remoteModTime := LastModified remoteFile in
                      if time.After (time.Add localModTime time.Second) remoteModTime
                         && time.Before (time.Add localModTime (- time.Second))
                              remoteModTime
                      then (inl false, log_Printf (LogSkip remotePath) w)
                      else (inl needsUpload, w)
                  | None => (inl needsUpload, w)
                  end
              end
            else (inl needsUpload, w) in
          match r with
          | inr e => (Some e, w)
          | inl needsUpload =>
              if needsUpload then
                let w := log_Printf (LogUpload remotePath (fi_Size localInfo)) w in
                let '(err, w) :=
                  util.Retry (MaxRetries cfg) (RetryDelay cfg)
                    (UploadFileWithProgress localPath remotePath
                       (fi_ModTime localInfo) (progress_of remotePath)) w in
                match err with
                | Some e => (Some e, log_Printf (LogUploadFailed remotePath e) w)
                | None =>
                    (None, log_Printf (LogUploadDone remotePath (fi_Size localInfo)) w)
                end
              else (None, w)
          end
      end
  end.

Definition SyncFile (file : FileInfo) (w : World R) : option error * World R :=
  let localPath := Join (LocalDir cfg) (Path file) in
  let needsDownload := true in
  let '(needsDownload, w) :=
    match os.Stat localPath (w_fs w) with
    | inl stat =>
        let localModTime := fi_ModTime stat in
        if time.After (time.Add localModTime time.Second) (LastModified file)
           && time.Before (time.Add localModTime (- time.Second)) (LastModified file)
        then (false, log_Printf (LogSkip (Path file)) w)
        else (needsDownload, w)
    | inr _ => (needsDownload, w)
    end in
  if needsDownload then
    let w := log_Printf (LogDownload (Path file) (Size file)) w in
    let '(err, w) := on_fs (os.MkdirAll (Dir localPath) (w_clock w)) w in
    match err with
    | Some e =>
        (Some (WrappedAt "create directory failed" (Dir localPath) (External e)), w)
    | None =>
        let '(err, w) :=
          util.Retry (MaxRetries cfg) (RetryDelay cfg)
            (DownloadFileWithProgress (Path file) localPath (LastModified file)
               (progress_of (Path file))) w in
        match err with
        | Some e => (Some e, log_Printf (LogDownloadFailed (Path file) e) w)
        | None => (None, log_Printf (LogDownloadDone (Path file) (Size file)) w)
        end
    end
  else (None, w).

(** [SyncDirectory]; [fuel] bounds the depth of the remote tree. *)
Fixpoint SyncDirectory (fuel : nat) (remotePath : string) (w : World R)
  : option (option error * World R) :=
  match fuel with
  | O => None
  | S fuel' =>
      let '(r, w) := ListFiles remotePath w in
      match r with
      | inr e => Some (Some (Wrapped "list of remote files failed" e), w)
      | inl remoteFiles =>
          let directories := List.filter IsDir remoteFiles in
          let regularFiles := List.filter (λ file, negb (IsDir file)) remoteFiles in
          let directories :=
            sort_Slice (λ a b, String.ltb (Path a) (Path b)) directories in
          let regularFiles :=
            sort_Slice (λ a b, String.ltb (Path a) (Path b)) regularFiles in
          let sortedFiles := directories ++ regularFiles in
          let task (file : FileInfo) (w : World R) :=
            if IsDir file then
              let localDirPath := Join (LocalDir cfg) (Path file) in
              let '(err, w) := on_fs (os.MkdirAll localDirPath (w_clock w)) w in
              match err with
              | Some e =>
                  Some (Some (WrappedAt "create local directory failed"
                                localDirPath (External e)), w)
              | None => SyncDirectory fuel' (Path file) w
              end
            else Some (SyncFile file w) in
          match run_tasks task sortedFiles w with
          | None => None
          | Some (syncErrors, w) => Some (collect syncErrors, w)
          end
      end
  end.

(** [syncLocalToWebDAV]; [fuel] bounds the depth of the local tree. *)
Fixpoint syncLocalToWebDAV (fuel : nat) (relativePath : string) (w : World R)
  : option (option error * World R) :=
  match fuel with
  | O => None
  | S fuel' =>
      let localPath := Join (LocalDir cfg) relativePath in
      match os.ReadDir localPath (w_fs w) with
      | inr e =>
          Some (Some (WrappedAt "read of local directory failed" localPath
                        (External e)), w)
      | inl entries =>
          let directories := List.filter fi_IsDir entries in
          let regularFiles := List.filter (λ entry, negb (fi_IsDir entry)) entries in
          let directories :=
            sort_Slice (λ a b, String.ltb (fi_Name a) (fi_Name b)) directories in
          let regularFiles :=
            sort_Slice (λ a b, String.ltb (fi_Name a) (fi_Name b)) regularFiles in
          let sortedEntries := directories ++ regularFiles in
          let task (entry : fs_FileInfo) (w : World R) :=
            let entryName := fi_Name entry in
            let entryRelPath := Join relativePath entryName in
            let remotePath := entryRelPath in
            let remotePath := if String.eqb remotePath "." then "/" else remotePath in
            let remotePath := ToSlash remotePath in
            if fi_IsDir entry then
              let '(exists_, err, w) := FileExists remotePath w in
              match err with
              | Some e =>
                  Some (Some (WrappedAt "check of remote directory failed"
                                remotePath e), w)
              | None =>
                  let '(err, w) :=
                    if negb exists_ then
                      MakeDir remotePath (log_Printf (LogMkdirRemote remotePath) w)
                    else (None, w) in
                  match err with
                  | Some e =>
                      Some (Some (WrappedAt "create remote directory failed"
                                    remotePath e), w)
                  | None => syncLocalToWebDAV fuel' entryRelPath w
                  end
              end
            else Some (syncLocalFileToWebDAV entryRelPath remotePath w) in
          match run_tasks task sortedEntries w with
          | None => None
          | Some (syncErrors, w) => Some (collect syncErrors, w)
          end
      end
  end.

Definition buildLocalFileList (w : World R) : list string * option error :=
  let baseDir := LocalDir cfg in
  let '(err, files) :=
    filepath_Walk baseDir
      (λ path info err files,
         match err with
         | Some e => (Some e, files)
         | None =>
             if String.eqb path baseDir then (None, files)
             else match Rel baseDir path with
                  | inr e => (Some (External e), files)
                  | inl relPath =>
                      let relPath := ToSlash relPath in
                      (None, files ++ [relPath])
                  end
         end)
      (w_fs w) [] in
  (files, err).

(** [buildRemoteFileList]; [fuel] bounds the depth of the remote tree. *)
Fixpoint buildRemoteFileList (fuel : nat) (remotePath : string) (w : World R)
  : option ((list string + error) * World R) :=
  match fuel with
  | O => None
  | S fuel' =>
      let '(r, w) := ListFiles remotePath w in
      match r with
      | inr e => Some (inr e, w)
      | inl entries =>
          let files :=
            if negb (String.eqb remotePath "/") && negb (String.eqb remotePath "")
            then [remotePath] else [] in
          (fix loop (entries : list FileInfo) (files : list string) (w : World R) :=
             match entries with
             | [] => Some (inl files, w)
             | entry :: entries' =>
                 let files := files ++ [Path entry] in
                 if IsDir entry then
                   match buildRemoteFileList fuel' (Path entry) w with
                   | None => None
                   | Some (inr e, w) => Some (inr e, w)
                   | Some (inl subFiles, w) => loop entries' (files ++ subFiles) w
                   end
                 else loop entries' files w
             end) entries files w
      end
  end.

(** The loop that deletes the local extras, in the order given. *)
Fixpoint removeLocalFiles (filesToDelete : list string) (w : World R) : World R :=
  match filesToDelete with
  | [] => w
  | filePath :: rest =>
      let localPath := Join (LocalDir cfg) filePath in
      let w := log_Printf (LogDeleteLocal localPath) w in
      let '(err, w) := on_fs (os.RemoveAll localPath) w in
      let w :=
        match err with
        | Some e => log_Printf (LogDeleteFailed localPath (External e)) w
        | None => w
        end in
      removeLocalFiles rest w
  end.

(** The loop that deletes the remote extras, in the order given. *)
Fixpoint removeRemoteFiles (filesToDelete : list string) (w : World R) : World R :=
  match filesToDelete with
  | [] => w
  | filePath :: rest =>
      let w := log_Printf (LogDeleteRemote filePath) w in
      let '(err, w) := RemoveRemote filePath w in
      let w :=
        match err with
        | Some e => log_Printf (LogDeleteFailed filePath e) w
        | None => w
        end in
      removeRemoteFiles rest w
  end.

Definition RestoreFromWebDAV (fuel : nat) (w : World R)
  : option (option error * World R) :=
  match buildRemoteFileList fuel "/" w with
  | None => None
  | Some (inr e, w) => Some (Some (Wrapped "list of WebDAV files failed" e), w)
  | Some (inl remoteFiles, w) =>
      match SyncDirectory fuel "/" w with
      | None => None
      | Some (err, w) =>
          (* the block guarded by [SyncDelete && err == nil]; it
             returns early when the local tree cannot be listed *)
          let '(early, w) :=
            if SyncDelete cfg && bool_decide (err = None) then
              let w := log_Printf LogCheckLocalExtras w in
              let '(localFiles, err) := buildLocalFileList w in
              match err with
              | Some e => (Some (Wrapped "list of local files failed" e), w)
              | None =>
                  let filesToDelete := findExtraFiles localFiles remoteFiles in
                  let filesToDelete := sort_Slice longer_first filesToDelete in
                  (None, removeLocalFiles filesToDelete w)
              end
            else (None, w) in
          match early with
          | Some e => Some (Some e, w)
          | None =>
              match err with
              | Some e => Some (Some e, log_Printf (LogRestoreFailed e) w)
              | None => Some (None, log_Printf LogRestoreDone w)
              end
          end
      end
  end.

Definition BackupToWebDAV (fuel : nat) (w : World R)
  : option (option error * World R) :=
  match buildLocalFileList w with
  | (_, Some e) => Some (Some (Wrapped "list of local files failed" e), w)
  | (localFiles, None) =>
      match syncLocalToWebDAV fuel "/" w with
      | None => None
      | Some (err, w) =>
          let early :=
            if SyncDelete cfg && bool_decide (err = None) then
              let w := log_Printf LogCheckRemoteExtras w in
              match buildRemoteFileList fuel "/" w with
              | None => None
              | Some (inr e, w) =>
                  Some (Some (Wrapped "list of WebDAV files failed" e), w)
              | Some (inl remoteFiles, w) =>
                  let filesToDelete := findExtraFiles remoteFiles localFiles in
                  let filesToDelete := sort_Slice longer_first filesToDelete in
                  Some (None, removeRemoteFiles filesToDelete w)
              end
            else Some (None, w) in
          match early with
          | None => None
          | Some (Some e, w) => Some (Some e, w)
          | Some (None, w) =>
              match err with
              | Some e => Some (Some e, log_Printf (LogBackupFailed e) w)
              | None => Some (None, log_Printf LogBackupDone w)
              end
          end
      end
  end.

Definition StartSync (fuel : nat) (w : World R)
  : option (option error * World R) :=
  let mode := GetSyncMode cfg in
  if String.eqb mode BackupMode then
    BackupToWebDAV fuel
      (log_Printf (LogBackupMode (LocalDir cfg) (WebdavURL cfg)) w)
  else if String.eqb mode RestoreMode then
    RestoreFromWebDAV fuel
      (log_Printf (LogRestoreMode (WebdavURL cfg) (LocalDir cfg)) w)
  else Some (Some (UnknownSyncMode (Mode cfg)), w).
End Manager.
End sync.

(** ** Package main (main.go)

    [main] from the point where the configuration file has been read:
    [fromFile] is the default configuration overlaid with the file, [mode]
    and [syncDelete] are the flags. What [fmt.Printf] announces is
    returned, and [log.Fatalf] is the exit with its error. The connection
    test is [FileExists] of the root, so an answer 404 passes it.
    [NewWebDAVClient] only fills a struct; [NewSyncManager] makes the
    channel of the semaphore, and that can panic. With a channel of
    capacity 0 no goroutine ever gets the semaphore, which the goroutines
    run one after the other do not show: what is proved of a run that
    reaches [StartSync] takes a positive capacity. *)





(** ** An in-memory WebDAV server

    One server that implements the interface: a tree of collections and
    files with its own clock. A file that is written gets the time of
    the server's clock; a file named in [srv_broken] breaks off in the
    middle of a download. *)

Module memdav.

Record Server := {
  srv_fs : os.FS;
  srv_clock : Time;
  srv_broken : list string
}.

Definition with_fs (fs : os.FS) (s : Server) : Server :=
  {| srv_fs := fs; srv_clock := srv_clock s; srv_broken := srv_broken s |}.

(** gowebdav joins every path onto the root of the share. *)
Definition abs (p : string) : string := "/" +:+ p.

Definition not_found (p : string) : string := "PROPFIND " +:+ p +:+ ": 404".

Definition ReadDir (p : string) (s : Server) : (list fs_FileInfo + string) * Server :=
  (match os.ReadDir (abs p) (srv_fs s) with
   | inl l => inl l
   | inr _ => inr (not_found p)
   end, s).

Definition Stat (p : string) (s : Server) : (fs_FileInfo + string) * Server :=
  (match os.Stat (abs p) (srv_fs s) with
   | inl i => inl i
   | inr _ => inr (not_found p)
   end, s).

Definition ReadStream (p : string) (s : Server) : (Stream + string) * Server :=
  (match os.ReadFile (abs p) (srv_fs s) with
   | inl data =>
       if bool_decide (filepath.Clean (abs p) ∈ srv_broken s)
       then inl {| chunks := [{| took := 1; bytes := take (length data / 2) data |}];
                   final := Some "unexpected EOF" |}
       else inl {| chunks := [{| took := 1; bytes := data |}]; final := None |}
   | inr _ => inr ("GET " +:+ p +:+ ": 404")
   end, s).

Definition WriteStream (p : string) (data : list Byte.byte) (s : Server)
  : (list Chunk * option string) * Server :=
  match os.Create (abs p) (srv_clock s) (srv_fs s) with
  | (inr _, _) => (([], Some ("PUT " +:+ p +:+ ": 409")), s)
  | (inl k, fs) =>
      (([{| took := 1; bytes := data |}], None),
       with_fs (os.Write k data (srv_clock s) fs) s)
  end.

Definition Mkdir (p : string) (s : Server) : option string * Server :=
  let k := filepath.parse (abs p) in
  match srv_fs s !! k with
  | Some _ => (Some ("MKCOL " +:+ p +:+ ": 405"), s)
  | None =>
      if os.is_dir (srv_fs s) (os.parent k)
      then (None, with_fs (<[k := os.dir_node (srv_clock s)]> (srv_fs s)) s)
      else (Some ("MKCOL " +:+ p +:+ ": 409"), s)
  end.

Definition Remove (p : string) (s : Server) : option string * Server :=
  (None, with_fs (os.RemoveAll (abs p) (srv_fs s)).2 s).

#[export] Instance Server_WebDAV : WebDAV Server :=
  {| dav_ReadDir := ReadDir; dav_Stat := Stat; dav_ReadStream := ReadStream;
     dav_WriteStream := WriteStream; dav_Mkdir := Mkdir; dav_Remove := Remove |}.

End memdav.

Import config client sync.

(** * Small worlds to run the code on *)

Module example.
Import memdav.

Definition seconds (n : Z) : Time := n * time.Second.

Definition hello : list Byte.byte := [Byte.x68; Byte.x69; Byte.x21; Byte.x0a].

Definition tree (l : list (filepath.Key * os.Node)) : os.FS := list_to_map l.

Definition cfg_pull : Config :=
  {| WebdavURL := "http://localhost:5244/dav";
     WebdavUsername := "guest";
     WebdavPassword := "guest";
     LocalDir := "sync";
     Mode := "restore";
     SyncDelete := true;
     CompareContent := false;
     MaxConcurrent := 5;
     MaxRetries := 2;
     RetryDelay := 2 * time.Second |}.

Definition cfg_push : Config := with_mode "backup" cfg_pull.

(** A server that holds [a.txt], last modified at second 6. *)
Definition srv_a : Server :=
  {| srv_fs := tree [((true, []), os.dir_node (seconds 1));
                     ((true, ["a.txt"]), os.file_node hello (seconds 6))];
     srv_clock := seconds 5000;
     srv_broken := [] |}.

(** The same server, but the download of [a.txt] breaks off. *)
Definition srv_a_broken : Server :=
  {| srv_fs := srv_fs srv_a; srv_clock := seconds 5000; srv_broken := ["/a.txt"] |}.

(** A server that holds [docs/a.txt]. *)
Definition srv_docs : Server :=
  {| srv_fs := tree [((true, []), os.dir_node (seconds 1));
                     ((true, ["docs"]), os.dir_node (seconds 2));
                     ((true, ["docs"; "a.txt"]), os.file_node hello (seconds 100))];
     srv_clock := seconds 5000;
     srv_broken := [] |}.

(** A server that holds the empty collection [old]. *)
Definition srv_old : Server :=
  {| srv_fs := tree [((true, []), os.dir_node (seconds 1));
                     ((true, ["old"]), os.dir_node (seconds 2))];
     srv_clock := seconds 5000;
     srv_broken := [] |}.

Definition srv_empty : Server :=
  {| srv_fs := tree [((true, []), os.dir_node (seconds 1))];
     srv_clock := seconds 5000;
     srv_broken := [] |}.

(** Local trees below the directory [sync]. *)
Definition local_empty : os.FS := tree [((false, ["sync"]), os.dir_node (seconds 1))].

Definition local_file (name : string) (mtime : Time) : os.FS :=
  tree [((false, ["sync"]), os.dir_node (seconds 1));
        ((false, ["sync"; name]), os.file_node hello mtime)].

Definition world (fs : os.FS) (srv : Server) : World Server :=
  mkWorld fs (seconds 6000) srv [].

(** The entry of [a.txt] in the listing of [srv_a]. *)
Definition file_a : FileInfo :=
  {| Path := "a.txt"; IsDir := false; LastModified := seconds 6; Size := 4 |}.

(** An operation that fails until the trace has four events, that is,
    twice when [Retry] runs it from an empty trace. *)
Definition flaky (w : World Server) : option error * World Server :=
  if (length (w_trace w) <? 4)%nat then (Some (External "connection reset"), w)
  else (None, w).

Definition always_fails (w : World Server) : option error * World Server :=
  (Some (External "connection reset"), w).

(** A new run in the state the previous one left. *)
Definition again (w : World Server) : World Server :=
  mkWorld (w_fs w) (w_clock w) (w_remote w) [].

End example.

(** * Part II: what the code does *)

(** * Insertion sort meets the contract of [sort.Slice] *)

Section InsertionSortFacts.
Context {A : Type} (less : A → A → bool).

Lemma insert_sorted_perm (x : A) (l : list A) :
  Permutation (insert_sorted less x l) (x :: l).
Proof.
  induction l as [|y l IH]; simpl; [done|].
  destruct (less x y); [done|].
  rewrite IH. apply perm_swap.
Qed.

Lemma insertion_sort_perm (l : list A) : Permutation (insertion_sort less l) l.
Proof.
  unfold insertion_sort.
  enough (∀ acc, Permutation (fold_left (λ acc x, insert_sorted less x acc) l acc)
                   (acc ++ l)) as H by apply (H []).
  induction l as [|x l IH]; intros acc; simpl.
  - by rewrite app_nil_r.
  - rewrite IH, insert_sorted_perm. simpl. apply Permutation_middle.
Qed.

Definition not_after (x y : A) : Prop := less y x = false.

Lemma insert_sorted_sorted (x : A) (l : list A) :
  strict_weak less →
  StronglySorted not_after l → StronglySorted not_after (insert_sorted less x l).
Proof.
  intros [Hasym Htrans] Hl.
  induction Hl as [|y l Hl IH Hy]; simpl.
  - repeat constructor.
  - destruct (less x y) eqn:Hxy.
    + constructor; [by constructor|].
      constructor; [by apply Hasym|].
      eapply Forall_impl; [exact Hy|].
      intros z Hz. unfold not_after in *. eapply Htrans; [|exact Hz]. by apply Hasym.
    + constructor; [done|].
      rewrite insert_sorted_perm. by constructor.
Qed.

Lemma insertion_sort_sorted (l : list A) :
  strict_weak less → StronglySorted not_after (insertion_sort less l).
Proof.
  intros Hsw. unfold insertion_sort.
  enough (∀ acc, StronglySorted not_after acc →
            StronglySorted not_after
              (fold_left (λ acc x, insert_sorted less x acc) l acc)) as H
    by (apply H; constructor).
  induction l as [|x l IH]; intros acc Hacc; simpl; [done|].
  by apply IH, insert_sorted_sorted.
Qed.

Lemma StronglySorted_ordered_by (l : list A) :
  StronglySorted not_after l → ordered_by less l.
Proof.
  induction 1 as [|x l Hl IH Hx]; intros i j a b Hij Hi Hj.
  - by rewrite lookup_nil in Hi.
  - destruct j as [|j]; [lia|]. simpl in Hj.
    destruct i as [|i]; simpl in Hi.
    + injection Hi as <-. rewrite Forall_forall in Hx.
      apply Hx. by eapply list_elem_of_lookup_2.
    + eapply IH; [|done..]. lia.
Qed.
End InsertionSortFacts.

#[export] Instance insertion_SortSlice : SortSlice :=
  {| sort_Slice := @insertion_sort;
     sort_Slice_perm := @insertion_sort_perm;
     sort_Slice_ordered A less l H :=
       StronglySorted_ordered_by less _ (insertion_sort_sorted less l H) |}.

(** * The deletion set *)

Lemma targetMap_lookup (target : list string) (m : gmap string bool) (x : string) :
  default false (fold_left (λ m file, <[file := true]> m) target m !! x)
  = bool_decide (x ∈ target) || default false (m !! x).
Proof.
  revert m. induction target as [|y target IH]; intros m; cbn [fold_left].
  - case_bool_decide as H; [|done]. by apply not_elem_of_nil in H.
  - rewrite IH. destruct (decide (x = y)) as [->|Hne].
    + rewrite lookup_insert_eq. simpl.
      rewrite (bool_decide_eq_true_2 (y ∈ y :: target)); [|left].
      by rewrite orb_true_r.
    + rewrite lookup_insert_ne by done.
      f_equal. apply bool_decide_ext. rewrite elem_of_cons.
      split; [by right|]. by intros [?|?].
Qed.

Lemma findExtraFiles_filter (source target : list string) :
  findExtraFiles source target
  = List.filter (λ file, negb (bool_decide (file ∈ target))) source.
Proof.
  unfold findExtraFiles.
  set (keep := λ file : string, negb (bool_decide (file ∈ target))).
  enough (∀ extras,
            fold_left
              (λ extras file,
                 if negb (default false
                            (fold_left (λ m f, <[f := true]> m) target
                               (∅ : gmap string bool) !! file))
                 then extras ++ [file] else extras) source extras
            = extras ++ List.filter keep source) as H by apply (H []).
  induction source as [|x source IH]; intros extras; simpl.
  - by rewrite app_nil_r.
  - rewrite IH, targetMap_lookup, lookup_empty. simpl. rewrite orb_false_r.
    unfold keep at 2. destruct (bool_decide (x ∈ target)); simpl; [done|].
    by rewrite <- app_assoc.
Qed.

(** C8: the paths [findExtraFiles] selects for deletion are exactly those
    of the destination list that the source list lacks: every
    destination path that is not a source path is selected, and no source
    path ever is. *)
Theorem findExtraFiles_set_difference (destPaths sourcePaths : list string) (x : string) :
  x ∈ findExtraFiles destPaths sourcePaths ↔ x ∈ destPaths ∧ x ∉ sourcePaths.
Proof.
  rewrite findExtraFiles_filter, list_elem_of_In, filter_In, <- list_elem_of_In.
  rewrite negb_true_iff, bool_decide_eq_false. tauto.
Qed.

(** * The sync mode *)

Lemma GetSyncMode_cases (c : Config) :
  GetSyncMode c = (if String.eqb (Mode c) "backup" then BackupMode else RestoreMode).
Proof.
  unfold GetSyncMode, BackupMode, RestoreMode.
  by destruct (String.eqb (Mode c) "backup"), (String.eqb (Mode c) "restore").
Qed.

Section Results.
Context {R : Type} `{!WebDAV R} `{!SortSlice}.
Variable cfg : Config.
Variable showProgress : bool.

Definition is_unknown_mode (e : error) : bool :=
  if e is UnknownSyncMode _ then true else false.

Lemma collect_known (errs : list error) (e : error) :
  collect errs = Some e → is_unknown_mode e = false.
Proof. destruct errs; simpl; [done|]. by intros [= <-]. Qed.

Lemma SyncDirectory_known fuel p (w w' : World R) e :
  SyncDirectory cfg showProgress fuel p w = Some (Some e, w') →
  is_unknown_mode e = false.
Proof.
  destruct fuel as [|fuel]; simpl; [done|].
  destruct (ListFiles p w) as [[files|e0] w1]; [|by intros [= <- _]].
  destruct (run_tasks _ _ _) as [[errs w2]|]; [|done].
  intros [= Hc _]. by eapply collect_known.
Qed.

Lemma syncLocalToWebDAV_known fuel p (w w' : World R) e :
  syncLocalToWebDAV cfg showProgress fuel p w = Some (Some e, w') →
  is_unknown_mode e = false.
Proof.
  destruct fuel as [|fuel]; simpl; [done|].
  destruct (os.ReadDir _ _) as [entries|e0]; [|by intros [= <- _]].
  destruct (run_tasks _ _ _) as [[errs w2]|]; [|done].
  intros [= Hc _]. by eapply collect_known.
Qed.

Lemma RestoreFromWebDAV_known fuel (w w' : World R) e :
  RestoreFromWebDAV cfg showProgress fuel w = Some (Some e, w') →
  is_unknown_mode e = false.
Proof.
  unfold RestoreFromWebDAV.
  destruct (buildRemoteFileList fuel "/" w) as [[[remoteFiles|e0] w1]|];
    [|by intros [= <- _]|done].
  destruct (SyncDirectory _ _ _ _ _) as [[err w2]|] eqn:Hpass; [|done].
  destruct (SyncDelete cfg && bool_decide (err = None)) eqn:Hguard.
  - apply andb_true_iff in Hguard as [_ Herr%bool_decide_eq_true]. subst err.
    destruct (buildLocalFileList _ _) as [localFiles [e1|]]; by intros [= <- _].
  - destruct err as [e1|]; [|done].
    intros [= <- _]. by eapply SyncDirectory_known.
Qed.

Lemma BackupToWebDAV_known fuel (w w' : World R) e :
  BackupToWebDAV cfg showProgress fuel w = Some (Some e, w') →
  is_unknown_mode e = false.
Proof.
  unfold BackupToWebDAV.
  destruct (buildLocalFileList _ _) as [localFiles [e0|]]; [by intros [= <- _]|].
  destruct (syncLocalToWebDAV _ _ _ _ _) as [[err w2]|] eqn:Hpass; [|done].
  destruct (SyncDelete cfg && bool_decide (err = None)) eqn:Hguard.
  - apply andb_true_iff in Hguard as [_ Herr%bool_decide_eq_true]. subst err.
    destruct (buildRemoteFileList _ _ _) as [[[remoteFiles|e1] w3]|];
      [done|by intros [= <- _]|done].
  - destruct err as [e1|]; [|done].
    intros [= <- _]. by eapply syncLocalToWebDAV_known.
Qed.

(** C10: [GetSyncMode] returns [BackupMode] or [RestoreMode], and
    [RestoreMode] for every mode string other than "backup"; [StartSync]
    therefore runs [BackupToWebDAV] when the mode is "backup" and
    [RestoreFromWebDAV] otherwise, and the error of its default branch,
    unknown sync mode, is never what it returns. *)
Theorem StartSync_never_unknown_mode :
  (GetSyncMode cfg = BackupMode ∨ GetSyncMode cfg = RestoreMode) ∧
  (Mode cfg ≠ "backup" → GetSyncMode cfg = RestoreMode) ∧
  (∀ fuel (w : World R),
     StartSync cfg showProgress fuel w
     = if String.eqb (Mode cfg) "backup"
       then BackupToWebDAV cfg showProgress fuel
              (log_Printf (LogBackupMode (LocalDir cfg) (WebdavURL cfg)) w)
       else RestoreFromWebDAV cfg showProgress fuel
              (log_Printf (LogRestoreMode (WebdavURL cfg) (LocalDir cfg)) w)) ∧
  (∀ fuel (w w' : World R) e mode,
     StartSync cfg showProgress fuel w = Some (Some e, w') →
     e ≠ UnknownSyncMode mode).
Proof.
  assert (Hrun : ∀ fuel (w : World R),
     StartSync cfg showProgress fuel w
     = if String.eqb (Mode cfg) "backup"
       then BackupToWebDAV cfg showProgress fuel
              (log_Printf (LogBackupMode (LocalDir cfg) (WebdavURL cfg)) w)
       else RestoreFromWebDAV cfg showProgress fuel
              (log_Printf (LogRestoreMode (WebdavURL cfg) (LocalDir cfg)) w)).
  { intros fuel w. unfold StartSync. rewrite GetSyncMode_cases.
    by destruct (String.eqb (Mode cfg) "backup"). }
  split_and!; [| |exact Hrun|].
  - rewrite GetSyncMode_cases. destruct (String.eqb _ _); auto.
  - intros Hne. rewrite GetSyncMode_cases.
    destruct (String.eqb_spec (Mode cfg) "backup"); done.
  - intros fuel w w' e mode Hstart ->. rewrite Hrun in Hstart.
    destruct (String.eqb _ _).
    + by apply BackupToWebDAV_known in Hstart.
    + by apply RestoreFromWebDAV_known in Hstart.
Qed.
End Results.

(** * The trace only grows *)

Section Trace.
Context {R : Type} `{!WebDAV R}.
Implicit Types w : World R.

Definition grows (w w' : World R) : Prop := w_trace w `prefix_of` w_trace w'.

#[export] Instance grows_preorder : PreOrder grows.
Proof.
  split.
  - intros w. unfold grows. done.
  - intros w1 w2 w3. unfold grows. apply transitivity.
Qed.

Lemma grows_emit e w : grows w (emit e w).
Proof. unfold grows, emit. simpl. by apply prefix_app_r. Qed.

Lemma grows_sleep d w : grows w (sleep d w).
Proof. unfold grows, sleep, emit. simpl. by apply prefix_app_r. Qed.

Lemma trace_on_fs {A} (f : os.FS → A * os.FS) w :
  w_trace (on_fs f w).2 = w_trace w.
Proof. unfold on_fs. by destruct (f (w_fs w)). Qed.

Lemma trace_on_remote {A} (f : R → A * R) w :
  w_trace (on_remote f w).2 = w_trace w.
Proof. unfold on_remote. by destruct (f (w_remote w)). Qed.

Lemma fs_on_remote {A} (f : R → A * R) w :
  w_fs (on_remote f w).2 = w_fs w.
Proof. unfold on_remote. by destruct (f (w_remote w)). Qed.

Lemma trace_io_Copy file reads w : w_trace (io_Copy file reads w) = w_trace w.
Proof. revert w. induction reads as [|c reads IH]; intros w; simpl; [done|]. by rewrite IH. Qed.

Lemma grows_read_with_progress cb total c p w :
  grows w (read_with_progress cb total c p w).2.
Proof.
  unfold read_with_progress, updateProgress, grows.
  repeat case_match; simpl; first [reflexivity | by apply prefix_app_r].
Qed.

Lemma grows_io_CopyBuffer cb total file reads p w :
  grows w (io_CopyBuffer cb total file reads p w).
Proof.
  revert p w. induction reads as [|c reads IH]; intros p w; simpl; [done|].
  pose proof (grows_read_with_progress cb total c p w) as Hread.
  destruct (read_with_progress cb total c p w) as [p' w']. simpl in Hread.
  etransitivity; [exact Hread|]. etransitivity; [|apply IH].
  unfold grows, write_chunk, set_fs. simpl. reflexivity.
Qed.

Lemma grows_upload_progress cb total reads p w :
  grows w (upload_progress cb total reads p w).
Proof.
  revert p w. induction reads as [|c reads IH]; intros p w; simpl; [done|].
  pose proof (grows_read_with_progress cb total c p w) as Hread.
  destruct (read_with_progress cb total c p w) as [p' w']. simpl in Hread.
  etransitivity; [exact Hread|apply IH].
Qed.

Lemma grows_DownloadFileWithProgress remotePath localPath t cb w :
  grows w (DownloadFileWithProgress remotePath localPath t cb w).2.
Proof.
  unfold DownloadFileWithProgress, ReadStream, grows.
  pose proof (trace_on_remote (dav_Stat remotePath) w) as H1.
  destruct (on_remote (dav_Stat remotePath) w) as [[info|e] w1]; cbn [snd] in *;
    [|by rewrite H1].
  pose proof (trace_on_remote (dav_ReadStream remotePath) w1) as H2.
  destruct (on_remote (dav_ReadStream remotePath) w1) as [[reader|e] w2]; cbn [snd] in *;
    [|by rewrite H2, H1].
  pose proof (trace_on_fs (os.Create (localPath +:+ ".download") (w_clock w2)) w2) as H3.
  destruct (on_fs _ w2) as [[file|e] w3]; cbn [snd] in *; [|by rewrite H3, H2, H1].
  rewrite <- H1, <- H2, <- H3. clear H1 H2 H3.
  set (w4 := match cb with
             | Some cb0 => io_CopyBuffer cb0 _ file (chunks reader) _ w3
             | None => io_Copy file (chunks reader) w3
             end).
  assert (grows w3 w4) as H4.
  { subst w4. destruct cb; [apply grows_io_CopyBuffer|].
    unfold grows. by rewrite trace_io_Copy. }
  unfold grows in H4.
  destruct (final reader).
  { cbn [snd]. by rewrite trace_on_fs. }
  pose proof (trace_on_fs (os.Rename (localPath +:+ ".download") localPath) w4) as H5.
  destruct (on_fs (os.Rename _ _) w4) as [[e|] w5]; cbn [snd] in *.
  { by rewrite trace_on_fs, H5. }
  pose proof (trace_on_fs (os.Chtimes localPath t) w5) as H6.
  destruct (on_fs (os.Chtimes _ _) w5) as [r w6]; cbn [snd] in *. by rewrite H6, H5.
Qed.

Lemma grows_Retry_loop n attempts i d err (op : World R → option error * World R) w :
  (∀ w, grows w (op w).2) → grows w (util.Retry_loop n attempts i d err op w).2.
Proof.
  intros Hop. revert i d err w.
  induction n as [|n IH]; intros i d err w; simpl; [done|].
  pose proof (Hop w) as Hw. destruct (op w) as [[e|] w1]; cbn [snd] in *; [|done].
  destruct (i <? attempts - 1).
  - etransitivity; [exact Hw|]. etransitivity; [|apply IH].
    etransitivity; [apply grows_emit|apply grows_sleep].
  - etransitivity; [exact Hw|apply IH].
Qed.

Lemma grows_Retry attempts d (op : World R → option error * World R) w :
  (∀ w, grows w (op w).2) → grows w (util.Retry attempts d op w).2.
Proof. apply grows_Retry_loop. Qed.

Lemma trace_MakeDir_loop parts current w :
  w_trace (MakeDir_loop parts current w).2 = w_trace w.
Proof.
  revert current w. induction parts as [|part parts IH]; intros current w; simpl; [done|].
  set (cur := (if negb (String.eqb current "") then current +:+ "/" else current) +:+ part).
  pose proof (trace_on_remote (dav_Mkdir cur) w) as H1.
  destruct (on_remote (dav_Mkdir cur) w) as [[e|] w1]; cbn [snd] in *;
    [|by rewrite IH].
  pose proof (trace_on_remote (dav_Stat cur) w1) as H2.
  destruct (on_remote (dav_Stat cur) w1) as [[info|e'] w2]; cbn [snd] in *;
    [|by rewrite H2].
  destruct (fi_IsDir info); cbn [snd]; [by rewrite IH, H2|by rewrite H2].
Qed.

Lemma trace_MakeDir remotePath w : w_trace (MakeDir remotePath w).2 = w_trace w.
Proof. unfold MakeDir. destruct (String.eqb _ _); [done|apply trace_MakeDir_loop]. Qed.

Lemma trace_read_chunks reads w :
  w_trace (fold_left (λ w c, read_chunk c w) reads w) = w_trace w.
Proof. revert w. induction reads as [|c reads IH]; intros w; simpl; [done|]. by rewrite IH. Qed.

Lemma grows_UploadFileWithProgress localPath remotePath t cb w :
  grows w (UploadFileWithProgress localPath remotePath t cb w).2.
Proof.
  unfold UploadFileWithProgress.
  destruct (os.Stat localPath (w_fs w)) as [fileInfo|e]; [|done].
  destruct (os.ReadFile localPath (w_fs w)) as [file|e]; [|done].
  set (mk := if negb (String.eqb (filepath.Dir remotePath) ".")
                && negb (String.eqb (filepath.Dir remotePath) "/")
             then MakeDir (filepath.Dir remotePath) w else (None, w)).
  assert (w_trace mk.2 = w_trace w) as H1.
  { subst mk. destruct (_ && _); [apply trace_MakeDir|done]. }
  destruct mk as [[e|] w1]; cbn [snd] in *; [unfold grows; by rewrite H1|].
  pose proof (trace_on_remote (dav_WriteStream remotePath file) w1) as H2.
  destruct (on_remote (dav_WriteStream remotePath file) w1) as [[reads err] w2].
  cbn [snd] in *.
  assert (grows w (match cb with
                   | Some cb0 =>
                       upload_progress cb0 (fi_Size fileInfo) reads
                         {| moved := 0; lastUpdateTime := w_clock w1; lastMoved := 0 |} w2
                   | None => fold_left (λ w c, read_chunk c w) reads w2
                   end)) as H3.
  { destruct cb.
    - etransitivity; [|apply grows_upload_progress]. unfold grows. by rewrite H2, H1.
    - unfold grows. by rewrite trace_read_chunks, H2, H1. }
  by destruct err.
Qed.

Lemma trace_FileExists remotePath w : w_trace (FileExists remotePath w).2 = w_trace w.
Proof.
  unfold FileExists.
  pose proof (trace_on_remote (dav_Stat remotePath) w) as H1.
  destruct (on_remote (dav_Stat remotePath) w) as [[info|e] w1]; cbn [snd] in *; [done|].
  by destruct (_ || _).
Qed.

Lemma trace_ListFiles remotePath w : w_trace (ListFiles remotePath w).2 = w_trace w.
Proof.
  unfold ListFiles, listRemoteFiles.
  set (p := if String.eqb _ "/" then "" else _).
  pose proof (trace_on_remote (dav_ReadDir p) w) as H1.
  by destruct (on_remote (dav_ReadDir p) w) as [[files|e] w1].
Qed.

(** An event is the first thing a step adds to the trace. *)
Definition started (e : Event) (w w' : World R) : Prop :=
  ∃ evs, w_trace w' = w_trace w ++ e :: evs.

Lemma started_grows e w w' : grows (emit e w) w' → started e w w'.
Proof. intros [evs Hevs]. exists evs. rewrite Hevs. simpl. by rewrite <- app_assoc. Qed.

Lemma not_started_single e e' w : e ≠ e' → ¬ started e w (emit e' w).
Proof.
  intros Hne [evs Hevs]. simpl in Hevs. apply app_inv_head in Hevs.
  injection Hevs as Hee _. by apply Hne.
Qed.
End Trace.

(** * The tolerance of the timestamp comparison *)

Lemma tolerance_window (localModTime other : Time) :
  time.After (time.Add localModTime time.Second) other
  && time.Before (time.Add localModTime (- time.Second)) other = true
  ↔ Z.abs (localModTime - other) < time.Second.
Proof.
  unfold time.After, time.Before, time.Add.
  rewrite andb_true_iff, !Z.ltb_lt. lia.
Qed.

Section Decision.
Context {R : Type} `{!WebDAV R}.
Variable cfg : Config.
Variable showProgress : bool.
Implicit Types w : World R.

Lemma SyncFile_skip file w stat :
  os.Stat (filepath.Join (LocalDir cfg) (Path file)) (w_fs w) = inl stat →
  Z.abs (fi_ModTime stat - LastModified file) < time.Second →
  SyncFile cfg showProgress file w = (None, log_Printf (LogSkip (Path file)) w).
Proof.
  intros Hstat Hnear. unfold SyncFile. rewrite Hstat.
  apply tolerance_window in Hnear. by rewrite Hnear.
Qed.

Definition same_base (remotePath : string) (remoteFile : FileInfo) : bool :=
  String.eqb (filepath.Base (Path remoteFile)) (filepath.Base remotePath).

(** What [syncLocalFileToWebDAV] learns about the destination: it is not
    there, or it is there with this modification time, or it is there and
    the listing of its directory does not show it. *)
Inductive Remote_state : Type :=
  | Absent
  | Present (remoteModTime : Time)
  | Unlisted.

Definition remote_state (remotePath : string) (w : World R) : option Remote_state :=
  match FileExists remotePath w with
  | ((_, Some _), _) => None
  | ((false, None), _) => Some Absent
  | ((true, None), w1) =>
      match ListFiles (filepath.Dir remotePath) w1 with
      | (inr _, _) => None
      | (inl remoteFiles, _) =>
          match List.find (same_base remotePath) remoteFiles with
          | Some remoteFile => Some (Present (LastModified remoteFile))
          | None => Some Unlisted
          end
      end
  end.

End Decision.

(** * Retry, observed

    To count what [Retry] does, the state is paired with a record of the
    outcomes of the invocations and of the arguments of [time.Sleep]; the
    operation cannot see the record. *)

Record Probe (W : Type) := mkProbe {
  inner : W;
  outcomes : list (option error);
  sleeps : list Duration
}.
Arguments mkProbe {W}.
Arguments inner {W}.
Arguments outcomes {W}.
Arguments sleeps {W}.

Section Probe.
Context {W : Type} `{!Runtime W}.

#[export] Instance Probe_Runtime : Runtime (Probe W) :=
  {| log_Printf m p := mkProbe (log_Printf m (inner p)) (outcomes p) (sleeps p);
     time_Sleep d p := mkProbe (time_Sleep d (inner p)) (outcomes p) (sleeps p ++ [d]) |}.

Definition probed (operation : W → option error * W) (p : Probe W)
  : option error * Probe W :=
  let '(err, w) := operation (inner p) in
  (err, mkProbe w (outcomes p ++ [err]) (sleeps p)).

Definition probe (w : W) : Probe W := mkProbe w [] [].

(** The delay before attempt [k + 2]: [sleep *= 2], [k] times. *)
Definition backoff (sleep : Duration) (k : nat) : Duration :=
  Nat.iter k (λ d, time.wrap64 (d * 2)) sleep.

Definition backoffs (sleep : Duration) (n : nat) : list Duration :=
  backoff sleep <$> seq 0 n.

Lemma backoff_S sleep k : backoff (time.wrap64 (sleep * 2)) k = backoff sleep (S k).
Proof.
  unfold backoff. induction k as [|k IH]; [done|].
  rewrite Nat.iter_succ, IH. done.
Qed.

Lemma backoffs_S sleep n :
  backoffs sleep (S n) = sleep :: backoffs (time.wrap64 (sleep * 2)) n.
Proof.
  unfold backoffs. simpl. f_equal.
  rewrite <- fmap_S_seq, <- list_fmap_compose.
  apply list_fmap_ext. intros _ k _. simpl. by rewrite backoff_S.
Qed.

Definition failed (o : option error) : Prop := is_Some o.

(** What the loop adds to the record, when it is entered with [n]
    iterations left at index [i = attempts - n]. *)
Lemma Retry_loop_probe (operation : W → option error * W) attempts n i sleep err p :
  i = attempts - Z.of_nat n →
  let '(r, p') := util.Retry_loop n attempts i sleep err (probed operation) p in
  ∃ new,
    outcomes p' = outcomes p ++ new ∧
    (length new ≤ n)%nat ∧
    Forall failed (removelast new) ∧
    sleeps p' = sleeps p ++ backoffs sleep (length new - 1) ∧
    match r with
    | None => last new = Some None
    | Some e =>
        length new = n ∧ Forall failed new ∧
        e = match last (err :: new) with
            | Some (Some l) => RetryFailed attempts l
            | _ => RetryFailedNil attempts
            end
    end.
Proof.
  revert i sleep err p. induction n as [|n IH]; intros i sleep err p Hi.
  - simpl. exists []. simpl. rewrite !app_nil_r. split_and!; try done.
  - simpl. unfold probed at 1.
    destruct (operation (inner p)) as [[e|] w1] eqn:Hop.
    + set (p1 := mkProbe w1 (outcomes p ++ [Some e]) (sleeps p)).
      destruct (i <? attempts - 1) eqn:Hlt.
      * apply Z.ltb_lt in Hlt.
        specialize (IH (i + 1) (time.wrap64 (sleep * 2)) (Some e)
                      (time_Sleep sleep (log_Printf (LogRetry (i + 1) attempts e sleep) p1))
                      ltac:(lia)).
        destruct (util.Retry_loop n _ _ _ _ _ _) as [r p'].
        destruct IH as (new & Hout & Hlen & Hfail & Hsl & Hr).
        simpl in Hout, Hsl.
        assert (n ≠ 0%nat) as Hn by lia.
        exists (Some e :: new). split_and!.
        -- by rewrite Hout, <- app_assoc.
        -- simpl. lia.
        -- destruct new as [|o new]; [constructor|].
           change (removelast (Some e :: o :: new))
             with (Some e :: removelast (o :: new)).
           constructor; [by eexists|done].
        -- rewrite Hsl, <- app_assoc. f_equal.
           destruct new as [|o new].
           { destruct r as [e'|]; [|done]. destruct Hr as [Hr _]. simpl in Hr. lia. }
           simpl length. replace (S (S (length new)) - 1)%nat with (S (length new)) by lia.
           rewrite backoffs_S. simpl. do 2 f_equal. lia.
        -- destruct r as [e'|].
           ++ destruct Hr as (Hr & Hall & ->). split; [simpl; lia|].
              split; [constructor; [by eexists|done]|].
              destruct new as [|o new]; [done|]. done.
           ++ destruct new as [|o new]; [done|]. done.
      * apply Z.ltb_ge in Hlt.
        assert (n = 0%nat) as -> by lia.
        simpl. exists [Some e]. simpl. rewrite app_nil_r.
        split; [done|]. split; [done|]. split; [constructor|]. split; [done|].
        split; [done|]. split; [|done]. constructor; [by eexists|constructor].
    + exists [None]. simpl. rewrite app_nil_r.
      split; [done|]. split; [lia|]. split; [constructor|]. done.
Qed.

(** The record does not change what [Retry] does. *)
Lemma Retry_loop_erase (operation : W → option error * W) attempts n i sleep err p :
  let '(r, p') := util.Retry_loop n attempts i sleep err (probed operation) p in
  util.Retry_loop n attempts i sleep err operation (inner p) = (r, inner p').
Proof.
  revert i sleep err p. induction n as [|n IH]; intros i sleep err p; simpl; [done|].
  unfold probed at 1.
  destruct (operation (inner p)) as [[e|] w1]; [|done].
  destruct (i <? attempts - 1).
  - apply (IH _ _ _ (mkProbe _ _ _)).
  - apply (IH _ _ _ (mkProbe _ _ _)).
Qed.
End Probe.

Lemma wrap64_small z : - 2 ^ 63 ≤ z < 2 ^ 63 → time.wrap64 z = z.
Proof. intros Hz. unfold time.wrap64. rewrite Z.mod_small; lia. Qed.

Lemma backoff_exact sleep k :
  - 2 ^ 63 ≤ sleep * 2 ^ Z.of_nat k < 2 ^ 63 → backoff sleep k = sleep * 2 ^ Z.of_nat k.
Proof.
  induction k as [|k IH]; intros Hk.
  - simpl. lia.
  - unfold backoff in *. rewrite Nat.iter_succ.
    rewrite Nat2Z.inj_succ, Z.pow_succ_r in Hk by lia.
    rewrite IH by nia. rewrite wrap64_small by nia.
    rewrite Nat2Z.inj_succ, Z.pow_succ_r by lia. lia.
Qed.

(** C5 (amended): for [maxAttempts >= 1], [Retry] runs the operation at
    least once and at most [maxAttempts] times; every invocation but the
    last one failed, and [Retry] returns nil exactly when the last one
    succeeded; it sleeps once between two invocations and not after the
    last, for the base delay doubled again and again in int64 arithmetic,
    which is [baseDelay * 2^k] as long as that fits in an int64; when it
    returns an error all [maxAttempts] invocations failed and the error
    carries the attempt count and the last error. The record of
    invocations and sleeps does not change what [Retry] returns. *)
Theorem Retry_attempts_and_backoff {W : Type} `{!Runtime W}
    (operation : W → option error * W) (maxAttempts : Z) (baseDelay : Duration) (w : W) :
  1 ≤ maxAttempts →
  let '(r, p) := util.Retry maxAttempts baseDelay (probed operation) (probe w) in
  let n := length (outcomes p) in
  util.Retry maxAttempts baseDelay operation w = (r, inner p) ∧
  (1 ≤ n)%nat ∧ Z.of_nat n ≤ maxAttempts ∧
  Forall failed (removelast (outcomes p)) ∧
  (r = None ↔ last (outcomes p) = Some None) ∧
  sleeps p = backoffs baseDelay (n - 1) ∧
  (∀ k : nat, (k < n - 1)%nat →
     - 2 ^ 63 ≤ baseDelay * 2 ^ Z.of_nat k < 2 ^ 63 →
     sleeps p !! k = Some (baseDelay * 2 ^ Z.of_nat k)) ∧
  (∀ e, r = Some e →
     Z.of_nat n = maxAttempts ∧
     ∃ l, last (outcomes p) = Some (Some l) ∧ e = RetryFailed maxAttempts l).
Proof.
  intros Hpos. unfold util.Retry.
  pose proof (Retry_loop_probe operation maxAttempts (Z.to_nat maxAttempts) 0
                baseDelay None (probe w) ltac:(lia)) as Hprobe.
  pose proof (Retry_loop_erase operation maxAttempts (Z.to_nat maxAttempts) 0
                baseDelay None (probe w)) as Herase.
  destruct (util.Retry_loop _ _ _ _ _ (probed operation) _) as [r p].
  destruct Hprobe as (new & Hout & Hlen & Hfail & Hsl & Hr).
  simpl in Hout, Hsl, Herase. subst new.
  assert (outcomes p ≠ [] ∧
          (r = None ↔ last (outcomes p) = Some None) ∧
          (∀ e, r = Some e →
             Z.of_nat (length (outcomes p)) = maxAttempts ∧
             ∃ l, last (outcomes p) = Some (Some l) ∧ e = RetryFailed maxAttempts l))
    as (Hne & Hnil & Herr).
  { destruct r as [e|].
    - destruct Hr as (Hn & Hall & He).
      assert (outcomes p ≠ []) as Hne.
      { intros Hnil. rewrite Hnil in Hn. simpl in Hn. lia. }
      destruct (last (outcomes p)) as [o|] eqn:Hlast;
        [|by apply last_None in Hlast].
      assert (failed o) as [l ->].
      { rewrite Forall_forall in Hall. apply Hall.
        apply last_Some in Hlast as [l' ->]. apply elem_of_app. right. left. }
      split; [done|]. split; [split; done|].
      intros e' [= <-]. split; [lia|]. exists l. split; [done|].
      rewrite He, last_cons, Hlast. done.
    - split; [intros Hnil; by rewrite Hnil in Hr|]. split; [done|]. done. }
  split; [done|].
  split; [destruct (outcomes p); [done|simpl; lia]|].
  split; [lia|]. split; [done|]. split; [done|]. split; [done|].
  split; [|done].
  intros k Hk Hrange. rewrite Hsl. unfold backoffs.
  rewrite list_lookup_fmap, lookup_seq_lt by lia. simpl.
  by rewrite backoff_exact.
Qed.

Import memdav example.

(** * Retry, at concrete runs *)

(** C5, at three attempts with a base delay of two seconds: the
    operation fails twice and succeeds the third time; [Retry] returns
    nil, has run it three times and has slept two and four seconds. *)
Lemma Retry_attempts_and_backoff_witness :
  1 ≤ 3 ∧
  (let '(r, p) :=
     util.Retry 3 (2 * time.Second) (probed flaky) (probe (world local_empty srv_empty)) in
   r = None ∧
   outcomes p
   = [Some (External "connection reset"); Some (External "connection reset"); None] ∧
   sleeps p = [2 * time.Second; 4 * time.Second] ∧
   sleeps p = backoffs (2 * time.Second) (length (outcomes p) - 1)).
Proof.
  split; [lia|].
  pose proof (Retry_attempts_and_backoff flaky 3 (2 * time.Second)
                (world local_empty srv_empty) ltac:(lia)) as Hretry.
  destruct (util.Retry 3 (2 * time.Second) (probed flaky)
              (probe (world local_empty srv_empty))) as [r p] eqn:Hrun.
  destruct Hretry as (_ & _ & _ & _ & _ & Hsleeps & _).
  vm_compute in Hrun. injection Hrun as <- <-.
  split; [reflexivity|]. split; [reflexivity|]. split; [reflexivity|]. exact Hsleeps.
Defined.

(** C5, as the claim states it, fails: with a base delay of [-2^62]
    nanoseconds and four attempts that all fail, the third sleep is for
    zero nanoseconds, not for four times the base delay. *)
Lemma Retry_doubling_wraps_around :
  let '(r, p) :=
    util.Retry 4 (- 2 ^ 62) (probed always_fails) (probe (world local_empty srv_empty)) in
  r = Some (RetryFailed 4 (External "connection reset")) ∧
  sleeps p = [- 2 ^ 62; - 2 ^ 63; 0] ∧
  sleeps p ≠ [- 2 ^ 62; 2 * - 2 ^ 62; 4 * - 2 ^ 62].
Proof. vm_compute. split; [reflexivity|]. split; [reflexivity|]. discriminate. Qed.

(** * The temporary file is not the destination *)

Lemma string_length_app (a b : string) :
  String.length (a +:+ b) = (String.length a + String.length b)%nat.
Proof. induction a as [|c a IH]; simpl; [done|]. by rewrite IH. Qed.

Lemma split_app_last (p s : string) :
  filepath.split s = [s] →
  ∃ init x, filepath.split p = init ++ [x] ∧ filepath.split (p +:+ s) = init ++ [x +:+ s].
Proof.
  intros Hs. induction p as [|c p (init & x & Hp & Hps)].
  - exists [], "". split; [done|exact Hs].
  - simpl. destruct (Ascii.eqb c "/").
    + exists ("" :: init), x. by rewrite Hp, Hps.
    + rewrite Hp, Hps. destruct init as [|y init]; simpl.
      * by exists [], (String c x).
      * by exists (String c y :: init), x.
Qed.

Lemma prefix_slash_app (p s : string) :
  String.prefix "/" s = false → String.prefix "/" (p +:+ s) = String.prefix "/" p.
Proof.
  intros Hs. destruct p as [|c p]; [done|].
  change (String c p +:+ s) with (String c (p +:+ s)).
  cbn [String.prefix]. destruct (ascii_dec "/" c); [|done].
  by destruct (p +:+ s), p.
Qed.

Lemma step_long rooted st (seg : string) :
  (2 < String.length seg)%nat → filepath.step rooted st seg = seg :: st.
Proof.
  intros Hlen. unfold filepath.step.
  destruct (String.eqb_spec seg "") as [->|_]; [simpl in Hlen; lia|].
  destruct (String.eqb_spec seg ".") as [->|_]; [simpl in Hlen; lia|].
  destruct (String.eqb_spec seg "..") as [->|_]; [simpl in Hlen; lia|].
  done.
Qed.

Lemma step_not_longer rooted st (x s : string) :
  (2 < String.length s)%nat → filepath.step rooted st x ≠ (x +:+ s) :: st.
Proof.
  intros Hlen Heq.
  assert (x +:+ s ≠ x) as Hx.
  { intros Hx%(f_equal String.length). rewrite string_length_app in Hx. lia. }
  assert (x +:+ s ≠ "..") as Hdots.
  { intros Hd%(f_equal String.length). rewrite string_length_app in Hd. simpl in Hd. lia. }
  unfold filepath.step in Heq.
  destruct (_ || _).
  { apply (f_equal length) in Heq. simpl in Heq. lia. }
  destruct (String.eqb x "..").
  - destruct st as [|z st'].
    + destruct rooted; [done|]. by injection Heq as Heq%symmetry.
    + destruct (String.eqb z "..").
      * by injection Heq as Heq%symmetry.
      * apply (f_equal length) in Heq. simpl in Heq. lia.
  - by injection Heq as Heq%symmetry.
Qed.

Lemma parse_download_ne (localPath : string) :
  filepath.parse (localPath +:+ ".download") ≠ filepath.parse localPath.
Proof.
  unfold filepath.parse.
  destruct (split_app_last localPath ".download" eq_refl) as (init & x & Hp & Hps).
  rewrite Hp, Hps, prefix_slash_app by done.
  rewrite !fold_left_app. simpl.
  rewrite (step_long _ _ (x +:+ ".download"))
    by (rewrite string_length_app; simpl; lia).
  intros Heq%(f_equal snd). cbn [snd] in Heq. apply rev_inj in Heq.
  symmetry in Heq. by apply step_not_longer in Heq; [|simpl; lia].
Qed.

(** * A download that breaks off *)

Lemma Create_ok (p : string) (now : Time) (fs fs1 : gmap filepath.Key os.Node)
    (k : filepath.Key) :
  os.Create p now fs = (inl k, fs1) →
  k = filepath.parse p ∧ fs1 = <[k := os.file_node [] now]> fs.
Proof.
  unfold os.Create. destruct (fs !! filepath.parse p) as [n|].
  - destruct (os.nIsDir n); [done|]. by intros [= <- <-].
  - destruct (os.is_dir _ _); [|done]. by intros [= <- <-].
Qed.

Lemma Create_failed (p : string) (now : Time) (fs fs1 : gmap filepath.Key os.Node)
    (e : string) :
  os.Create p now fs = (inr e, fs1) → fs1 = fs.
Proof.
  unfold os.Create. destruct (fs !! filepath.parse p) as [n|].
  - destruct (os.nIsDir n); [|done]. by intros [= _ <-].
  - destruct (os.is_dir _ _); [done|]. by intros [= _ <-].
Qed.

Lemma Remove_file (p : string) (fs : gmap filepath.Key os.Node) (n : os.Node) :
  fs !! filepath.parse p = Some n → os.nIsDir n = false →
  os.Remove p fs = (None, delete (filepath.parse p) fs).
Proof. intros Hn Hfile. unfold os.Remove. by rewrite Hn, Hfile. Qed.

Section Copy.
Context {R : Type} `{!WebDAV R}.
Implicit Types w : World R.

Lemma write_chunk_only k c w n :
  w_fs w !! k = Some n → os.nIsDir n = false →
  ∃ n', os.nIsDir n' = false ∧ w_fs (write_chunk k c w) = <[k := n']> (w_fs w).
Proof.
  intros Hn Hfile. unfold write_chunk, os.Write. simpl. rewrite Hn, Hfile.
  eexists. split; [|reflexivity]. done.
Qed.

Lemma io_Copy_only k reads w n :
  w_fs w !! k = Some n → os.nIsDir n = false →
  ∃ n', os.nIsDir n' = false ∧ w_fs (io_Copy k reads w) = <[k := n']> (w_fs w).
Proof.
  revert w n. induction reads as [|c reads IH]; intros w n Hn Hfile; simpl.
  - exists n. split; [done|]. by rewrite insert_id.
  - destruct (write_chunk_only k c (read_chunk c w) n Hn Hfile) as (n1 & Hfile1 & Hw1).
    change (w_fs (read_chunk c w)) with (w_fs w) in Hw1.
    destruct (IH (write_chunk k c (read_chunk c w)) n1) as (n2 & Hfile2 & Hw2);
      [by rewrite Hw1, lookup_insert_eq|done|].
    exists n2. split; [done|]. by rewrite Hw2, Hw1, insert_insert_eq.
Qed.

Lemma fs_read_with_progress cb total c p w :
  w_fs (read_with_progress cb total c p w).2 = w_fs w.
Proof. unfold read_with_progress, updateProgress. by repeat case_match. Qed.

Lemma io_CopyBuffer_only cb total k reads p w n :
  w_fs w !! k = Some n → os.nIsDir n = false →
  ∃ n', os.nIsDir n' = false
        ∧ w_fs (io_CopyBuffer cb total k reads p w) = <[k := n']> (w_fs w).
Proof.
  revert p w n. induction reads as [|c reads IH]; intros p w n Hn Hfile; simpl.
  - exists n. split; [done|]. by rewrite insert_id.
  - pose proof (fs_read_with_progress cb total c p w) as Hread.
    destruct (read_with_progress cb total c p w) as [p1 w1]. simpl in Hread.
    rewrite <- Hread in Hn.
    destruct (write_chunk_only k c w1 n Hn Hfile) as (n1 & Hfile1 & Hw1).
    destruct (IH p1 (write_chunk k c w1) n1) as (n2 & Hfile2 & Hw2);
      [by rewrite Hw1, lookup_insert_eq|done|].
    exists n2. split; [done|]. by rewrite Hw2, Hw1, insert_insert_eq, Hread.
Qed.
End Copy.

Ltac world_simpl :=
  cbn [w_remote w_fs w_clock w_trace set_remote set_fs fst snd].

(** C4: when the stream of a download ends with an error (the remote
    file was found, the stream and the temporary file were opened), the
    download returns that error, the local file system is what it was
    without the temporary file [localPath.download], and so the
    destination is as it was, absent or with its content. The
    destination changes only in a download whose stream ended without an
    error. With or without a progress callback. *)
Theorem download_failure_keeps_destination {R : Type} `{!WebDAV R}
    (remotePath localPath : string) (remoteModTime : Time)
    (progressCb : option ProgressCallback) (w : World R) :
  let tmpFile := localPath +:+ ".download" in
  let '(err, w') :=
    DownloadFileWithProgress remotePath localPath remoteModTime progressCb w in
  (∀ info r1 reader r2 file fs1 e,
     dav_Stat remotePath (w_remote w) = (inl info, r1) →
     dav_ReadStream remotePath r1 = (inl reader, r2) →
     os.Create tmpFile (w_clock w) (w_fs w) = (inl file, fs1) →
     final reader = Some e →
     err = Some (External e) ∧
     w_fs w' = delete (filepath.parse tmpFile) (w_fs w) ∧
     w_fs w' !! filepath.parse localPath = w_fs w !! filepath.parse localPath ∧
     w_fs w' !! filepath.parse tmpFile = None) ∧
  (w_fs w' !! filepath.parse localPath ≠ w_fs w !! filepath.parse localPath →
   ∃ info r1 reader r2,
     dav_Stat remotePath (w_remote w) = (inl info, r1) ∧
     dav_ReadStream remotePath r1 = (inl reader, r2) ∧
     final reader = None).
Proof.
  intros tmpFile.
  unfold DownloadFileWithProgress, client.ReadStream, on_remote, on_fs. fold tmpFile.
  destruct (dav_Stat remotePath (w_remote w)) as [[info|e0] r1] eqn:Hstat; world_simpl;
    [|split; [intros; congruence|intros Hne; by contradict Hne]].
  destruct (dav_ReadStream remotePath r1) as [[reader|e0] r2] eqn:Hread; world_simpl;
    [|split; [intros; congruence|intros Hne; by contradict Hne]].
  destruct (os.Create tmpFile (w_clock w) (w_fs w)) as [[file|e0] fs1] eqn:Hcreate;
    world_simpl.
  - apply Create_ok in Hcreate as [-> ->].
    set (k := filepath.parse tmpFile).
    set (w1 := set_fs (<[k := os.file_node [] (w_clock w)]> (w_fs w))
                 (set_remote r2 (set_remote r1 w))).
    set (w2 := match progressCb with
               | Some cb => io_CopyBuffer cb _ k (chunks reader) _ w1
               | None => io_Copy k (chunks reader) w1
               end).
    assert (∃ n, os.nIsDir n = false ∧ w_fs w2 = <[k := n]> (w_fs w))
      as (n & Hfile & Hw2).
    { assert (w_fs w1 !! k = Some (os.file_node [] (w_clock w))) as Hk
        by (subst w1; simpl; apply lookup_insert_eq).
      assert (∃ n, os.nIsDir n = false ∧ w_fs w2 = <[k := n]> (w_fs w1))
        as (n & Hn & Hw2).
      { subst w2. destruct progressCb.
        - by eapply io_CopyBuffer_only.
        - by eapply io_Copy_only. }
      exists n. split; [done|]. rewrite Hw2. subst w1. simpl. apply insert_insert_eq. }
    clearbody w2. clear w1.
    destruct (final reader) as [e|] eqn:Hfinal.
    + world_simpl. rewrite (Remove_file tmpFile (w_fs w2) n);
        [|by rewrite Hw2; apply lookup_insert_eq|done].
      world_simpl. fold k. rewrite Hw2, delete_insert_eq.
      split.
      * intros info' r1' reader' r2' file' fs1' e' [= <- <-] Hr _ He.
        rewrite Hread in Hr. injection Hr as <- <-.
        rewrite Hfinal in He. injection He as <-.
        split; [done|]. split; [done|]. split; [|apply lookup_delete_eq].
        apply lookup_delete_ne. apply parse_download_ne.
      * intros Hne. contradict Hne.
        apply lookup_delete_ne. apply parse_download_ne.
    + match goal with |- (let '(_, _) := ?run in _) => destruct run as [err w'] end.
      split; [intros; congruence|].
      intros _. by exists info, r1, reader, r2.
  - apply Create_failed in Hcreate as ->.
    split; [intros; congruence|intros Hne; by contradict Hne].
Qed.

(** * The order of the deletions *)

Lemma longer_first_strict_weak : strict_weak longer_first.
Proof.
  unfold longer_first. split.
  - intros x y Hxy%Nat.ltb_lt. apply Nat.ltb_ge. lia.
  - intros x y z Hyx%Nat.ltb_ge Hzy%Nat.ltb_ge. apply Nat.ltb_ge. lia.
Qed.

(** The paths a trace shows as deleted, in the order of the trace. *)
Definition deletions (trace : list Event) : list string :=
  omap (λ e, match e with
             | Log (LogDeleteLocal path) | Log (LogDeleteRemote path) => Some path
             | _ => None
             end) trace.

Lemma deletions_app (t1 t2 : list Event) :
  deletions (t1 ++ t2) = deletions t1 ++ deletions t2.
Proof. apply omap_app. Qed.

Section Deletions.
Context {R : Type} `{!WebDAV R}.
Variable cfg : Config.
Implicit Types w : World R.

Lemma removeLocalFiles_deletions (files : list string) w :
  deletions (w_trace (removeLocalFiles cfg files w))
  = deletions (w_trace w) ++ (filepath.Join (LocalDir cfg) <$> files).
Proof.
  revert w. induction files as [|f files IH]; intros w; simpl.
  - by rewrite app_nil_r.
  - rewrite IH. simpl. rewrite deletions_app. simpl. by rewrite <- app_assoc.
Qed.

Lemma removeRemoteFiles_deletions (files : list string) w :
  deletions (w_trace (removeRemoteFiles files w)) = deletions (w_trace w) ++ files.
Proof.
  revert w. induction files as [|f files IH]; intros w; simpl.
  - by rewrite app_nil_r.
  - unfold RemoveRemote, on_remote.
    destruct (dav_Remove f _) as [[e|] r]; simpl; rewrite IH; simpl;
      rewrite ?deletions_app; simpl; by rewrite <- !app_assoc.
Qed.

(** The local file system after the deletion loop: [os.RemoveAll] on
    each path, in order. *)
Lemma removeLocalFiles_fs (files : list string) w :
  w_fs (removeLocalFiles cfg files w)
  = fold_left (λ fs f, (os.RemoveAll (filepath.Join (LocalDir cfg) f) fs).2)
      files (w_fs w).
Proof.
  revert w. induction files as [|f files IH]; intros w; simpl; [done|].
  by rewrite IH.
Qed.
End Deletions.

Lemma child_after_parent `{!SortSlice} (filesToDelete : list string)
    (i j : nat) (parent child name : string) :
  sort_Slice longer_first filesToDelete !! i = Some parent →
  sort_Slice longer_first filesToDelete !! j = Some child →
  child = parent +:+ "/" +:+ name →
  (j < i)%nat.
Proof.
  intros Hi Hj ->.
  pose proof (sort_Slice_ordered longer_first filesToDelete longer_first_strict_weak)
    as Hord.
  destruct (lt_eq_lt_dec i j) as [[Hlt| ->]|Hgt]; [| |done].
  - specialize (Hord i j _ _ Hlt Hi Hj). unfold longer_first in Hord.
    apply Nat.ltb_ge in Hord. rewrite !string_length_app in Hord. simpl in Hord. lia.
  - rewrite Hi in Hj. injection Hj as Hj%(f_equal String.length).
    rewrite !string_length_app in Hj. simpl in Hj. lia.
Qed.

(** What the claim asks of the order in which the candidates are
    deleted: all of them, no path longer than an earlier one, a path that
    extends another by a separator and a name before it, and the three
    paths of the claim deepest first. *)
Definition longest_first (candidates order : list string) : Prop :=
  order ≡ₚ candidates ∧
  (∀ i j a b, (i < j)%nat → order !! i = Some a → order !! j = Some b →
     (String.length b ≤ String.length a)%nat) ∧
  (∀ i j parent child name,
     order !! i = Some parent → order !! j = Some child →
     child = parent +:+ "/" +:+ name → (j < i)%nat) ∧
  (candidates ≡ₚ ["a"; "a/b"; "a/b/c.txt"] → order = ["a/b/c.txt"; "a/b"; "a"]).

Lemma sort_Slice_longest_first `{!SortSlice} (candidates : list string) :
  longest_first candidates (sort_Slice longer_first candidates).
Proof.
  pose proof (sort_Slice_perm longer_first candidates) as Hperm.
  pose proof (sort_Slice_ordered longer_first candidates longer_first_strict_weak)
    as Hord.
  split_and!.
  - done.
  - intros i j a b Hij Hi Hj. specialize (Hord i j a b Hij Hi Hj).
    unfold longer_first in Hord. by apply Nat.ltb_ge in Hord.
  - intros i j parent child name. apply child_after_parent.
  - intros Hthree.
    assert (sort_Slice longer_first candidates ≡ₚ ["a"; "a/b"; "a/b/c.txt"]) as Hperm'
      by (by etransitivity).
    clear Hperm. rename Hperm' into Hperm.
    destruct (sort_Slice longer_first candidates)
      as [|x [|y [|z [|]]]]; try (apply Permutation_length in Hperm; discriminate).
    assert (NoDup [x; y; z]) as Hnd.
    { rewrite Hperm. by apply (bool_decide_unpack (NoDup ["a"; "a/b"; "a/b/c.txt"])). }
    assert (∀ s, s ∈ [x; y; z] → s = "a" ∨ s = "a/b" ∨ s = "a/b/c.txt") as Hin.
    { intros s Hs. rewrite Hperm in Hs. rewrite !elem_of_cons, elem_of_nil in Hs. tauto. }
    pose proof (Hord 0%nat 1%nat x y ltac:(lia) eq_refl eq_refl) as Hxy.
    pose proof (Hord 1%nat 2%nat y z ltac:(lia) eq_refl eq_refl) as Hyz.
    apply NoDup_cons in Hnd as [Hx Hnd]. apply NoDup_cons in Hnd as [Hy _].
    apply not_elem_of_cons in Hx as [Hx1 Hx]. apply not_elem_of_cons in Hx as [Hx2 _].
    apply not_elem_of_cons in Hy as [Hy _].
    destruct (Hin x ltac:(left)) as [->|[->| ->]];
      destruct (Hin y ltac:(right; left)) as [->|[->| ->]];
      destruct (Hin z ltac:(right; right; left)) as [->|[->| ->]];
      try discriminate Hxy; try discriminate Hyz; try reflexivity;
      congruence.
Qed.

(** The server after the remote deletion loop: a [Remove] request for
    each path, in order, whatever the server answers. *)
Lemma removeRemoteFiles_remote {R : Type} `{!WebDAV R} (files : list string)
    (w : World R) :
  w_remote (removeRemoteFiles files w)
  = fold_left (λ r f, (dav_Remove f r).2) files (w_remote w).
Proof.
  revert w. induction files as [|f files IH]; intros w; [done|].
  cbn [removeRemoteFiles fold_left]. unfold RemoveRemote, on_remote.
  cbn [log_Printf World_Runtime emit w_remote].
  destruct (dav_Remove f (w_remote w)) as [[e|] r]; cbn [fmap option_fmap option_map];
    by rewrite IH.
Qed.

(** * The main pass and the deletion pass *)



Section Pass.
Context `{!SortSlice} {R : Type} `{!WebDAV R}.
Variable cfg : Config.
Variable showProgress : bool.
Implicit Types w : World R.

(** The order in which [SyncDirectory] starts the tasks of a level. *)
Definition dispatch_order (remoteFiles : list FileInfo) : list FileInfo :=
  sort_Slice (λ a b, String.ltb (Path a) (Path b)) (List.filter IsDir remoteFiles)
  ++ sort_Slice (λ a b, String.ltb (Path a) (Path b))
       (List.filter (λ file, negb (IsDir file)) remoteFiles).

(** The task [SyncDirectory] starts for one entry. *)
Definition sync_task (fuel : nat) (file : FileInfo) (w : World R)
  : option (option error * World R) :=
  if IsDir file then
    let localDirPath := filepath.Join (LocalDir cfg) (Path file) in
    let '(err, w) := on_fs (os.MkdirAll localDirPath (w_clock w)) w in
    match err with
    | Some e =>
        Some (Some (WrappedAt "create local directory failed" localDirPath
                      (External e)), w)
    | None => SyncDirectory cfg showProgress fuel (Path file) w
    end
  else Some (SyncFile cfg showProgress file w).

Lemma SyncDirectory_tasks fuel remotePath w :
  SyncDirectory cfg showProgress (S fuel) remotePath w
  = match ListFiles remotePath w with
    | (inr e, w) => Some (Some (Wrapped "list of remote files failed" e), w)
    | (inl remoteFiles, w) =>
        match run_tasks (sync_task fuel) (dispatch_order remoteFiles) w with
        | None => None
        | Some (syncErrors, w) => Some (collect syncErrors, w)
        end
    end.
Proof. reflexivity. Qed.



Lemma RestoreFromWebDAV_after_pass fuel w remoteFiles w1 err w2 :
  buildRemoteFileList fuel "/" w = Some (inl remoteFiles, w1) →
  SyncDirectory cfg showProgress fuel "/" w1 = Some (err, w2) →
  RestoreFromWebDAV cfg showProgress fuel w
  = match err with
    | Some e => Some (Some e, log_Printf (LogRestoreFailed e) w2)
    | None =>
        if SyncDelete cfg then
          match buildLocalFileList cfg w2 with
          | (_, Some e) =>
              Some (Some (Wrapped "list of local files failed" e),
                    log_Printf LogCheckLocalExtras w2)
          | (localFiles, None) =>
              Some (None,
                    log_Printf LogRestoreDone
                      (removeLocalFiles cfg
                         (sort_Slice longer_first (findExtraFiles localFiles remoteFiles))
                         (log_Printf LogCheckLocalExtras w2)))
          end
        else Some (None, log_Printf LogRestoreDone w2)
    end.
Proof.
  intros Hlist Hpass. unfold RestoreFromWebDAV. rewrite Hlist, Hpass.
  destruct err as [e|].
  - by rewrite andb_false_r.
  - rewrite andb_true_r. destruct (SyncDelete cfg); [|done].
    change (buildLocalFileList cfg (log_Printf LogCheckLocalExtras w2))
      with (buildLocalFileList cfg w2).
    by destruct (buildLocalFileList cfg w2) as [localFiles [e|]].
Qed.

Lemma BackupToWebDAV_after_pass fuel w localFiles err w2 :
  buildLocalFileList cfg w = (localFiles, None) →
  syncLocalToWebDAV cfg showProgress fuel "/" w = Some (err, w2) →
  BackupToWebDAV cfg showProgress fuel w
  = match err with
    | Some e => Some (Some e, log_Printf (LogBackupFailed e) w2)
    | None =>
        if SyncDelete cfg then
          match buildRemoteFileList fuel "/" (log_Printf LogCheckRemoteExtras w2) with
          | None => None
          | Some (inr e, w3) => Some (Some (Wrapped "list of WebDAV files failed" e), w3)
          | Some (inl remoteFiles, w3) =>
              Some (None,
                    log_Printf LogBackupDone
                      (removeRemoteFiles
                         (sort_Slice longer_first (findExtraFiles remoteFiles localFiles))
                         w3))
          end
        else Some (None, log_Printf LogBackupDone w2)
    end.
Proof.
  intros Hlist Hpass. unfold BackupToWebDAV. rewrite Hlist, Hpass.
  destruct err as [e|].
  - by rewrite andb_false_r.
  - rewrite andb_true_r. destruct (SyncDelete cfg); [|done].
    by destruct (buildRemoteFileList _ _ _) as [[[remoteFiles|e] w3]|].
Qed.
End Pass.

(** * C6: the order of the deletions *)

(** C6: with [sync_delete], a pull that has made its pass without an
    error and enumerated the local tree calls [os.RemoveAll] on the local
    extras, and a push that has made its pass without an error and
    enumerated the server sends a [Remove] request for the remote extras,
    one after the other in the order [sort.Slice] gives them with
    [longer_first]: a rearrangement of the extras in which no path is
    longer than an earlier one, so a path that extends another by a
    separator and a name is deleted before it, and the three candidates
    of the claim are deleted deepest first. The log shows the deletions in
    the same order. *)
Theorem deletions_run_longest_path_first `{!SortSlice} {R : Type} `{!WebDAV R}
    (cfg : Config) (showProgress : bool) (fuel : nat) (w : World R) :
  SyncDelete cfg = true →
  (∀ remoteFiles w1 w2 localFiles,
     buildRemoteFileList fuel "/" w = Some (inl remoteFiles, w1) →
     SyncDirectory cfg showProgress fuel "/" w1 = Some (None, w2) →
     buildLocalFileList cfg w2 = (localFiles, None) →
     let extras := findExtraFiles localFiles remoteFiles in
     let order := sort_Slice longer_first extras in
     longest_first extras order ∧
     ∃ w',
       RestoreFromWebDAV cfg showProgress fuel w = Some (None, w') ∧
       w_fs w'
       = fold_left (λ fs f, (os.RemoveAll (filepath.Join (LocalDir cfg) f) fs).2)
           order (w_fs w2) ∧
       deletions (w_trace w')
       = deletions (w_trace w2) ++ (filepath.Join (LocalDir cfg) <$> order)) ∧
  (∀ localFiles w2 remoteFiles w3,
     buildLocalFileList cfg w = (localFiles, None) →
     syncLocalToWebDAV cfg showProgress fuel "/" w = Some (None, w2) →
     buildRemoteFileList fuel "/" (log_Printf LogCheckRemoteExtras w2)
     = Some (inl remoteFiles, w3) →
     let extras := findExtraFiles remoteFiles localFiles in
     let order := sort_Slice longer_first extras in
     longest_first extras order ∧
     ∃ w',
       BackupToWebDAV cfg showProgress fuel w = Some (None, w') ∧
       w_remote w' = fold_left (λ r f, (dav_Remove f r).2) order (w_remote w3) ∧
       deletions (w_trace w') = deletions (w_trace w3) ++ order).
Proof.
  intros Hdelete. split.
  - intros remoteFiles w1 w2 localFiles Hremote Hpass Hlocal extras order.
    split; [apply sort_Slice_longest_first|].
    eexists. split_and!.
    + rewrite (RestoreFromWebDAV_after_pass cfg showProgress fuel w _ _ _ _ Hremote Hpass).
      by rewrite Hdelete, Hlocal.
    + cbn [log_Printf World_Runtime emit w_fs]. by rewrite removeLocalFiles_fs.
    + cbn [log_Printf World_Runtime emit w_trace].
      rewrite deletions_app, removeLocalFiles_deletions.
      cbn [log_Printf World_Runtime emit w_trace]. rewrite deletions_app.
      cbn. by rewrite !app_nil_r.
  - intros localFiles w2 remoteFiles w3 Hlocal Hpass Hremote extras order.
    split; [apply sort_Slice_longest_first|].
    eexists. split_and!.
    + rewrite (BackupToWebDAV_after_pass cfg showProgress fuel w _ _ _ Hlocal Hpass).
      by rewrite Hdelete, Hremote.
    + cbn [log_Printf World_Runtime emit w_remote]. by rewrite removeRemoteFiles_remote.
    + cbn [log_Printf World_Runtime emit w_trace].
      rewrite deletions_app, removeRemoteFiles_deletions.
      cbn. by rewrite !app_nil_r.
Qed.

Section Enumeration.
Context {R : Type} `{!WebDAV R}.
Implicit Types w : World R.

(** Listing the remote tree writes nothing to the log and leaves the
    local file system alone. *)
Lemma buildRemoteFileList_quiet fuel remotePath w r w' :
  buildRemoteFileList fuel remotePath w = Some (r, w') →
  w_trace w' = w_trace w ∧ w_fs w' = w_fs w.
Proof.
  revert remotePath w r w'. induction fuel as [|fuel IH]; intros remotePath w r w';
    simpl; [done|].
  pose proof (trace_ListFiles remotePath w) as Htrace.
  assert (w_fs (ListFiles remotePath w).2 = w_fs w) as Hfs.
  { unfold ListFiles, listRemoteFiles.
    set (p := if String.eqb _ "/" then "" else _).
    pose proof (fs_on_remote (dav_ReadDir p) w) as H1.
    by destruct (on_remote (dav_ReadDir p) w) as [[files|e] w1]. }
  destruct (ListFiles remotePath w) as [[entries|e] w1]; cbn [snd] in *;
    [|by intros [= <- <-]].
  rewrite <- Htrace, <- Hfs. clear Htrace Hfs.
  generalize (if negb (String.eqb remotePath "/") && negb (String.eqb remotePath "")
              then [remotePath] else []).
  revert w1. induction entries as [|entry entries IHentries]; intros w1 files.
  - by intros [= <- <-].
  - destruct (IsDir entry).
    + destruct (buildRemoteFileList fuel (Path entry) w1) as [[[sub|e] w2]|] eqn:Hsub;
        [| |done].
      * apply IH in Hsub as [Ht Hf]. intros Hrest%IHentries. by rewrite <- Ht, <- Hf.
      * apply IH in Hsub as [Ht Hf]. by intros [= <- <-].
    + apply IHentries.
Qed.
(** The list the loop of [buildRemoteFileList] returns extends the one
    it was started with. *)
Lemma buildRemoteFileList_loop_extends fuel entries files w out w' :
  (fix loop (entries : list FileInfo) (files : list string) (w : World R) :=
     match entries with
     | [] => Some (inl files, w)
     | entry :: entries' =>
         let files := files ++ [Path entry] in
         if IsDir entry then
           match buildRemoteFileList fuel (Path entry) w with
           | None => None
           | Some (inr e, w) => Some (inr e, w)
           | Some (inl subFiles, w) => loop entries' (files ++ subFiles) w
           end
         else loop entries' files w
     end) entries files w = Some (inl out, w') →
  ∃ rest, out = files ++ rest.
Proof.
  revert files w. induction entries as [|entry entries IHentries]; intros files w.
  - intros [= <- <-]. exists []. by rewrite app_nil_r.
  - destruct (IsDir entry).
    + destruct (buildRemoteFileList fuel (Path entry) w) as [[[sub|e] w2]|];
        [|done|done].
      intros [rest ->]%IHentries. exists ([Path entry] ++ sub ++ rest).
      by rewrite <- !app_assoc.
    + intros [rest ->]%IHentries. exists ([Path entry] ++ rest).
      by rewrite <- !app_assoc.
Qed.

(** The list of a collection other than the root starts with the path of
    the collection. *)
Lemma buildRemoteFileList_starts_with_its_path fuel remotePath w files w' :
  remotePath ≠ "/" → remotePath ≠ "" →
  buildRemoteFileList fuel remotePath w = Some (inl files, w') →
  ∃ rest, files = remotePath :: rest.
Proof.
  intros Hroot Hempty. destruct fuel as [|fuel]; simpl; [done|].
  destruct (ListFiles remotePath w) as [[entries|e] w1]; [|done].
  apply String.eqb_neq in Hroot, Hempty. rewrite Hroot, Hempty. simpl.
  intros [rest ->]%buildRemoteFileList_loop_extends. by exists rest.
Qed.

(** A collection that a listing shows is put in the list twice in a row:
    as the entry of the listing, and as the first path of its own list. *)
Lemma buildRemoteFileList_collection_twice fuel remotePath w entries w1 entry files w' :
  ListFiles remotePath w = (inl entries, w1) →
  entry ∈ entries → IsDir entry = true →
  Path entry ≠ "/" → Path entry ≠ "" →
  buildRemoteFileList fuel remotePath w = Some (inl files, w') →
  ∃ l1 l2, files = l1 ++ Path entry :: Path entry :: l2.
Proof.
  intros Hlist Hin Hdir Hroot Hempty. destruct fuel as [|fuel]; simpl; [done|].
  rewrite Hlist.
  generalize (if negb (String.eqb remotePath "/") && negb (String.eqb remotePath "")
              then [remotePath] else []).
  clear Hlist. revert w1.
  induction entries as [|entry' entries IHentries]; intros w1 acc.
  { by apply elem_of_nil in Hin. }
  apply elem_of_cons in Hin as [<-|Hin].
  - rewrite Hdir.
    destruct (buildRemoteFileList fuel (Path entry) w1) as [[[sub|e] w2]|] eqn:Hsub;
      [|done|done].
    apply buildRemoteFileList_starts_with_its_path in Hsub as [rest ->]; [|done..].
    intros [rest' ->]%buildRemoteFileList_loop_extends.
    exists acc, (rest ++ rest'). by rewrite <- !app_assoc.
  - destruct (IsDir entry').
    + destruct (buildRemoteFileList fuel (Path entry') w1) as [[[sub|e] w2]|];
        [|done|done].
      by apply IHentries.
    + by apply IHentries.
Qed.
End Enumeration.

(** What a run shows: the error it returned and the paths it deleted. *)
Definition observe {R : Type} (run : option (option error * World R))
  : option (option error * list string) :=
  (λ r, (r.1, deletions (w_trace r.2))) <$> run.

(** * C2: which enumerations the deletion set comes from *)

(** C2 (amended): with mirror deletion enabled and a main pass that
    returned nil, the deletion set is the difference between the
    destination tree as enumerated after the pass and the source tree as
    enumerated before it; the deletions run over that set, longest path
    first. *)
Theorem deletion_set_source_before_destination_after `{!SortSlice} {R : Type}
    `{!WebDAV R} (cfg : Config) (showProgress : bool) (fuel : nat) (w : World R) :
  SyncDelete cfg = true →
  (∀ remoteFiles w1 w2 localFiles,
     buildRemoteFileList fuel "/" w = Some (inl remoteFiles, w1) →
     SyncDirectory cfg showProgress fuel "/" w1 = Some (None, w2) →
     buildLocalFileList cfg w2 = (localFiles, None) →
     let filesToDelete :=
       sort_Slice longer_first (findExtraFiles localFiles remoteFiles) in
     ∃ w',
       RestoreFromWebDAV cfg showProgress fuel w = Some (None, w') ∧
       w' = log_Printf LogRestoreDone
              (removeLocalFiles cfg filesToDelete (log_Printf LogCheckLocalExtras w2)) ∧
       deletions (w_trace w')
       = deletions (w_trace w2) ++ (filepath.Join (LocalDir cfg) <$> filesToDelete)) ∧
  (∀ localFiles w2 remoteFiles w3,
     buildLocalFileList cfg w = (localFiles, None) →
     syncLocalToWebDAV cfg showProgress fuel "/" w = Some (None, w2) →
     buildRemoteFileList fuel "/" (log_Printf LogCheckRemoteExtras w2)
     = Some (inl remoteFiles, w3) →
     let filesToDelete :=
       sort_Slice longer_first (findExtraFiles remoteFiles localFiles) in
     ∃ w',
       BackupToWebDAV cfg showProgress fuel w = Some (None, w') ∧
       w' = log_Printf LogBackupDone (removeRemoteFiles filesToDelete w3) ∧
       deletions (w_trace w') = deletions (w_trace w2) ++ filesToDelete).
Proof.
  intros Hdelete. split.
  - intros remoteFiles w1 w2 localFiles Hremote Hpass Hlocal filesToDelete.
    eexists. split; [|split; [reflexivity|]].
    + rewrite (RestoreFromWebDAV_after_pass cfg showProgress fuel w _ _ _ _ Hremote Hpass).
      by rewrite Hdelete, Hlocal.
    + cbn [log_Printf World_Runtime emit w_trace].
      rewrite deletions_app, removeLocalFiles_deletions. simpl.
      rewrite deletions_app. simpl. by rewrite !app_nil_r.
  - intros localFiles w2 remoteFiles w3 Hlocal Hpass Hremote filesToDelete.
    eexists. split; [|split; [reflexivity|]].
    + rewrite (BackupToWebDAV_after_pass cfg showProgress fuel w _ _ _ Hlocal Hpass).
      by rewrite Hdelete, Hremote.
    + apply buildRemoteFileList_quiet in Hremote as [Htrace _].
      cbn [log_Printf World_Runtime emit w_trace] in *.
      rewrite deletions_app, removeRemoteFiles_deletions, Htrace. simpl.
      rewrite deletions_app. simpl. by rewrite !app_nil_r.
Qed.

(** * C3: when the deletion pass runs *)


(** [evaluate t H]: run [t] and record its value as [H : t = value]. *)
(** A closed equation, settled by evaluating both sides. *)
Ltac computed :=
  match goal with |- ?t = ?v => vm_cast_no_check (eq_refl v) end.

Ltac evaluate t H :=
  let v := eval vm_compute in t in
  assert (t = v) as H by computed.

(** C2, as the claim states it, fails: the server holds [docs/a.txt] and
    the local tree is empty, so no enumeration made before the pass names
    anything to delete; the pull downloads the file, enumerates the local
    tree after the pass, and deletes the file it has just written (the
    remote enumeration names it [/docs/a.txt], the local one
    [docs/a.txt]). *)
Lemma restore_deletes_from_enumeration_after_pass :
  buildLocalFileList cfg_pull (world local_empty srv_docs) = ([], None) ∧
  fst <$> buildRemoteFileList 3 "/" (world local_empty srv_docs)
  = Some (inl ["docs"; "docs"; "/docs/a.txt"]) ∧
  filepath.Join (LocalDir cfg_pull)
    <$> sort_Slice longer_first (findExtraFiles [] ["docs"; "docs"; "/docs/a.txt"]) = [] ∧
  observe (RestoreFromWebDAV cfg_pull false 3 (world local_empty srv_docs))
  = Some (None, ["sync/docs/a.txt"]).
Proof. split_and!; vm_compute; reflexivity. Qed.

(** C2, at a pull with mirror deletion: the server holds [a.txt], the
    local tree holds [old.txt], and [old.txt] is deleted. *)
Lemma deletion_set_source_before_destination_after_witness :
  SyncDelete cfg_pull = true ∧
  observe (RestoreFromWebDAV cfg_pull false 3
             (world (local_file "old.txt" (seconds 5)) srv_a))
  = Some (None, ["sync/old.txt"]).
Proof.
  split; [reflexivity|].
  evaluate (buildRemoteFileList 3 "/" (world (local_file "old.txt" (seconds 5)) srv_a))
    Hremote.
  match type of Hremote with
  | _ = Some (_, ?w1) => evaluate (SyncDirectory cfg_pull false 3 "/" w1) Hpass
  end.
  match type of Hpass with
  | _ = Some (_, ?w2) => evaluate (buildLocalFileList cfg_pull w2) Hlocal
  end.
  destruct (proj1 (deletion_set_source_before_destination_after cfg_pull false 3
                     (world (local_file "old.txt" (seconds 5)) srv_a) eq_refl)
              _ _ _ _ Hremote Hpass Hlocal) as (w' & Hrun & _ & Hdeleted).
  rewrite Hrun. unfold observe. simpl. rewrite Hdeleted. vm_compute. reflexivity.
Defined.


(** C4, run: the download of [a.txt] breaks off; the local [a.txt] of
    second 5 is still there and no [a.txt.download] is left. *)
Lemma download_failure_keeps_destination_witness :
  let w := world (local_file "a.txt" (seconds 5)) srv_a_broken in
  let w' := (DownloadFileWithProgress "a.txt" "sync/a.txt" (seconds 6) None w).2 in
  w_fs w' !! filepath.parse "sync/a.txt" = Some (os.file_node hello (seconds 5)) ∧
  w_fs w' !! filepath.parse "sync/a.txt.download" = None.
Proof.
  intros w w'.
  pose proof (download_failure_keeps_destination "a.txt" "sync/a.txt" (seconds 6) None w)
    as Hthm.
  cbv zeta in Hthm. fold w' in Hthm.
  destruct (DownloadFileWithProgress "a.txt" "sync/a.txt" (seconds 6) None w)
    as [err w''] eqn:Hrun.
  destruct Hthm as [Hfail _].
  evaluate (dav_Stat "a.txt" (w_remote w)) Hstat.
  match type of Hstat with
  | _ = (_, ?r1) => evaluate (dav_ReadStream "a.txt" r1) Hread
  end.
  evaluate (os.Create "sync/a.txt.download" (w_clock w) (w_fs w)) Hcreate.
  destruct (Hfail _ _ _ _ _ _ _ Hstat Hread Hcreate eq_refl) as (_ & _ & Hdest & Htmp).
  subst w'. cbn [snd]. split; [|exact Htmp].
  rewrite Hdest. vm_compute. reflexivity.
Defined.

(** A local tree and a server that hold [a/b/c.txt]. *)
Definition local_abc : os.FS :=
  tree [((false, ["sync"]), os.dir_node (seconds 1));
        ((false, ["sync"; "a"]), os.dir_node (seconds 2));
        ((false, ["sync"; "a"; "b"]), os.dir_node (seconds 3));
        ((false, ["sync"; "a"; "b"; "c.txt"]), os.file_node hello (seconds 4))].

Definition srv_abc : Server :=
  {| srv_fs := tree [((true, []), os.dir_node (seconds 1));
                     ((true, ["a"]), os.dir_node (seconds 2));
                     ((true, ["a"; "b"]), os.dir_node (seconds 3));
                     ((true, ["a"; "b"; "c.txt"]), os.file_node hello (seconds 4))];
     srv_clock := seconds 5000;
     srv_broken := [] |}.

(** C6, with insertion sort for [sort.Slice]. A pull from an empty
    server into a local tree that holds [a/b/c.txt]: the extras are the
    three paths of the claim, they are deleted deepest first, and the
    local directory is empty afterwards. A push of an empty local tree to
    a server that holds [a/b/c.txt]: the requests go out longest path
    first, and the server is empty afterwards. *)
Lemma deletions_run_longest_path_first_witness :
  SyncDelete cfg_pull = true ∧
  (∃ w', RestoreFromWebDAV cfg_pull false 5 (world local_abc srv_empty) = Some (None, w') ∧
         deletions (w_trace w') = ["sync/a/b/c.txt"; "sync/a/b"; "sync/a"] ∧
         w_fs w' = local_empty) ∧
  SyncDelete cfg_push = true ∧
  (∃ w', BackupToWebDAV cfg_push false 5 (world local_empty srv_abc) = Some (None, w') ∧
         deletions (w_trace w') = ["/a/b/c.txt"; "/a/b"; "/a/b"; "a"; "a"] ∧
         srv_fs (w_remote w') = srv_fs srv_empty).
Proof.
  split; [reflexivity|]. split; [|split; [reflexivity|]].
  - pose (w := world local_abc srv_empty).
    evaluate (buildRemoteFileList 5 "/" w) Hremote.
    match type of Hremote with _ = Some (_, ?x) => pose (w1 := x); change x with w1 in Hremote end.
    evaluate (SyncDirectory cfg_pull false 5 "/" w1) Hpass.
    match type of Hpass with _ = Some (_, ?x) => pose (w2 := x); change x with w2 in Hpass end.
    evaluate (buildLocalFileList cfg_pull w2) Hlocal.
    destruct (proj1 (deletions_run_longest_path_first cfg_pull false 5 w eq_refl)
                _ _ _ _ Hremote Hpass Hlocal) as ((_ & _ & _ & Hthree) & w' & Hrun & Hfs & Hlog).
    rewrite Hthree in Hfs, Hlog by done.
    exists w'. split; [exact Hrun|]. split.
    + rewrite Hlog. computed.
    + rewrite Hfs. computed.
  - pose (w := world local_empty srv_abc).
    evaluate (buildLocalFileList cfg_push w) Hlocal.
    evaluate (syncLocalToWebDAV cfg_push false 5 "/" w) Hpass.
    match type of Hpass with _ = Some (_, ?x) => pose (w2 := x); change x with w2 in Hpass end.
    evaluate (buildRemoteFileList 5 "/" (log_Printf LogCheckRemoteExtras w2)) Hremote.
    match type of Hremote with _ = Some (_, ?x) => pose (w3 := x); change x with w3 in Hremote end.
    destruct (proj2 (deletions_run_longest_path_first cfg_push false 5 w eq_refl)
                _ _ _ _ Hlocal Hpass Hremote) as (_ & w' & Hrun & Hsrv & Hlog).
    exists w'. split; [exact Hrun|]. split.
    + rewrite Hlog. computed.
    + rewrite Hsrv. computed.
Defined.

(** * C7: the remote enumeration *)

(** C7 fails on the code: whenever a listing made during the remote
    enumeration shows a collection, the list that [buildRemoteFileList]
    returns holds the path of that collection twice, once as the entry of
    its parent's listing and once as the path of its own listing, so the
    list is not free of repetitions. *)
Theorem buildRemoteFileList_repeats_directories {R : Type} `{!WebDAV R}
    (fuel : nat) (remotePath : string) (w w1 w' : World R)
    (entries : list FileInfo) (entry : FileInfo) (files : list string) :
  ListFiles remotePath w = (inl entries, w1) →
  entry ∈ entries → IsDir entry = true →
  Path entry ≠ "/" → Path entry ≠ "" →
  buildRemoteFileList fuel remotePath w = Some (inl files, w') →
  ¬ NoDup files.
Proof.
  intros Hlist Hin Hdir Hroot Hempty Hrun.
  destruct (buildRemoteFileList_collection_twice _ _ _ _ _ _ _ _
              Hlist Hin Hdir Hroot Hempty Hrun) as (l1 & l2 & ->).
  intros Hnd. apply NoDup_app in Hnd as (_ & _ & Hnd).
  apply NoDup_cons in Hnd as [Hnotin _]. apply Hnotin. left.
Qed.

(** C7, run: the root of the server holds the collection [docs] with the
    file [a.txt]; the enumeration of the root returns [docs] twice. *)
Lemma buildRemoteFileList_repeats_directories_witness :
  fst <$> buildRemoteFileList 3 "/" (world local_empty srv_docs)
  = Some (inl ["docs"; "docs"; "/docs/a.txt"]) ∧
  ¬ NoDup ["docs"; "docs"; "/docs/a.txt"].
Proof.
  evaluate (ListFiles "/" (world local_empty srv_docs)) Hlist.
  evaluate (buildRemoteFileList 3 "/" (world local_empty srv_docs)) Hrun.
  split; [by rewrite Hrun|].
  refine (buildRemoteFileList_repeats_directories 3 "/" _ _ _ _
            {| Path := "docs"; IsDir := true; LastModified := _; Size := _ |} _
            Hlist _ eq_refl _ _ Hrun); [left|done|done].
Defined.

(** In a push with mirror deletion the collection [old], which the local
    tree lacks, is deleted twice. *)
Lemma push_deletes_collection_twice :
  w_trace <$> (snd <$> BackupToWebDAV cfg_push false 3 (world local_empty srv_old))
  = Some [Log LogCheckRemoteExtras;
          Log (LogDeleteRemote "old");
          Log (LogDeleteRemote "old");
          Log LogBackupDone].
Proof. vm_compute; reflexivity. Qed.

(** * C9: a second run *)

Lemma Chtimes_ok (p : string) (t : Time) (fs fs' : gmap filepath.Key os.Node) :
  os.Chtimes p t fs = (None, fs') →
  ∃ n, fs' !! filepath.parse p = Some n ∧ os.nModTime n = t.
Proof.
  unfold os.Chtimes. destruct (fs !! filepath.parse p) as [n|]; [|done].
  intros [= <-]. eexists. by rewrite lookup_insert_eq.
Qed.

(** On a pull the second run skips what the first one downloaded: a
    download that returned nil has set the modification time of the local
    file to the remote one, and [SyncFile] skips a file whose local
    modification time is the remote one. *)
Lemma download_then_skip {R : Type} `{!WebDAV R} (cfg : Config)
    (showProgress : bool) (file : FileInfo) (progressCb : option ProgressCallback)
    (w w' w2 : World R) :
  DownloadFileWithProgress (Path file) (filepath.Join (LocalDir cfg) (Path file))
    (LastModified file) progressCb w = (None, w') →
  w_fs w2 !! filepath.parse (filepath.Join (LocalDir cfg) (Path file))
  = w_fs w' !! filepath.parse (filepath.Join (LocalDir cfg) (Path file)) →
  SyncFile cfg showProgress file w2 = (None, log_Printf (LogSkip (Path file)) w2).
Proof.
  set (localPath := filepath.Join (LocalDir cfg) (Path file)).
  intros Hrun Hsame.
  assert (∃ n, w_fs w' !! filepath.parse localPath = Some n
               ∧ os.nModTime n = LastModified file) as (n & Hn & Htime).
  { revert Hrun. unfold DownloadFileWithProgress, client.ReadStream, on_remote, on_fs.
    destruct (dav_Stat _ _) as [[info|e] r1]; world_simpl; [|done].
    destruct (dav_ReadStream _ _) as [[reader|e] r2]; world_simpl; [|done].
    destruct (os.Create _ _ _) as [[k|e] fs1]; world_simpl; [|done].
    destruct (final reader); [done|].
    destruct (os.Rename _ _ _) as [[e|] fs2]; world_simpl; [done|].
    destruct (os.Chtimes _ _ _) as [[e|] fs3] eqn:Hch; world_simpl; [done|].
    intros [= <-]. world_simpl. by eapply Chtimes_ok. }
  apply (SyncFile_skip cfg showProgress file w2 (os.info (filepath.Base localPath) n)).
  - unfold os.Stat. fold localPath. by rewrite Hsame, Hn.
  - simpl. rewrite Htime. replace (LastModified file - LastModified file) with 0 by lia.
    done.
Qed.

(** What an upload does is the same whatever modification time it is
    given. *)
Lemma upload_ignores_modification_time {R : Type} `{!WebDAV R}
    (localPath remotePath : string) (t1 t2 : Time)
    (progressCb : option ProgressCallback) (w : World R) :
  UploadFileWithProgress localPath remotePath t1 progressCb w
  = UploadFileWithProgress localPath remotePath t2 progressCb w.
Proof. reflexivity. Qed.

(** C9 fails on the code for a push: [UploadFileWithProgress] does not
    use the modification time it is given, so the uploaded file carries
    the time of the server's clock (second 5000) while the local file is
    from second 100, and a second push in the state the first one left
    uploads the file again. *)
Lemma second_push_uploads_again :
  w_trace <$> (snd <$> BackupToWebDAV (with_delete false cfg_push) false 3
                         (world (local_file "a.txt" (seconds 100)) srv_empty))
  = Some [Log (LogUpload "/a.txt" 4); Log (LogUploadDone "/a.txt" 4); Log LogBackupDone] ∧
  (λ r, w_trace <$> (snd <$> BackupToWebDAV (with_delete false cfg_push) false 3
                               (again r.2)))
    <$> BackupToWebDAV (with_delete false cfg_push) false 3
          (world (local_file "a.txt" (seconds 100)) srv_empty)
  = Some (Some [Log (LogUpload "/a.txt" 4); Log (LogUploadDone "/a.txt" 4);
                Log LogBackupDone]) ∧
  (λ r, w_trace <$> (snd <$> RestoreFromWebDAV (with_delete false cfg_pull) false 3
                               (again r.2)))
    <$> RestoreFromWebDAV (with_delete false cfg_pull) false 3
          (world local_empty srv_a)
  = Some (Some [Log (LogSkip "a.txt"); Log LogRestoreDone]).
Proof. split_and!; vm_compute; reflexivity. Qed.

(** * C1: when a file is transferred *)

Lemma Retry_first_attempt {W : Type} `{!Runtime W} (op : W → option error * W)
    (attempts : Z) (d : Duration) (w w' : W) :
  1 ≤ attempts → op w = (None, w') → util.Retry attempts d op w = (None, w').
Proof.
  intros Hn Hop. unfold util.Retry.
  destruct (Z.to_nat attempts) as [|n] eqn:Hnat; [lia|].
  cbn [util.Retry_loop]. by rewrite Hop.
Qed.

Section Transfer.
Context {R : Type} `{!WebDAV R}.
Variable cfg : Config.
Variable showProgress : bool.
Implicit Types w : World R.

(** A download that returned nil has left a local file with the remote
    modification time. *)
Lemma download_sets_time remotePath localPath (t : Time) cb w w' :
  DownloadFileWithProgress remotePath localPath t cb w = (None, w') →
  ∃ n, w_fs w' !! filepath.parse localPath = Some n ∧ os.nModTime n = t.
Proof.
  unfold DownloadFileWithProgress, client.ReadStream, on_remote, on_fs.
  destruct (dav_Stat _ _) as [[info|e] r1]; world_simpl; [|done].
  destruct (dav_ReadStream _ _) as [[reader|e] r2]; world_simpl; [|done].
  destruct (os.Create _ _ _) as [[k|e] fs1]; world_simpl; [|done].
  destruct (final reader); [done|].
  destruct (os.Rename _ _ _) as [[e|] fs2]; world_simpl; [done|].
  destruct (os.Chtimes _ _ _) as [[e|] fs3] eqn:Hch; world_simpl; [done|].
  intros [= <-]. world_simpl. by eapply Chtimes_ok.
Qed.

Lemma remote_read_chunks (reads : list Chunk) w :
  w_remote (fold_left (λ w c, read_chunk c w) reads w) = w_remote w.
Proof. revert w. induction reads as [|c reads IH]; intros w; [done|]. cbn. by rewrite IH. Qed.

Lemma remote_upload_progress cb total (reads : list Chunk) p w :
  w_remote (upload_progress cb total reads p w) = w_remote w.
Proof.
  revert p w. induction reads as [|c reads IH]; intros p w; [done|].
  cbn [upload_progress]. unfold read_with_progress, updateProgress.
  repeat case_match; simplify_eq; by rewrite IH.
Qed.

(** An upload that returned nil has handed the server the content of the
    local file, and the server took it without an error. *)
Lemma upload_sends_content localPath remotePath (t : Time) cb w w' :
  UploadFileWithProgress localPath remotePath t cb w = (None, w') →
  ∃ data r reads,
    os.ReadFile localPath (w_fs w) = inl data ∧
    dav_WriteStream remotePath data r = ((reads, None), w_remote w').
Proof.
  unfold UploadFileWithProgress, on_remote.
  destruct (os.Stat _ _) as [info|e]; [|done].
  destruct (os.ReadFile _ _) as [data|e]; [|done].
  match goal with
  | |- context [if ?c then MakeDir ?d w else _] =>
      destruct (if c then MakeDir d w else (None, w)) as [[e|] w1]; [done|]
  end.
  destruct (dav_WriteStream remotePath data (w_remote w1)) as [[reads [e|]] r1] eqn:Hput;
    world_simpl; [done|].
  intros [= <-]. exists data, (w_remote w1), reads. split; [done|].
  rewrite Hput. f_equal.
  destruct cb; [by rewrite remote_upload_progress|by rewrite remote_read_chunks].
Qed.

(** [SyncFile] downloads: the directory made, the first attempt, if it
    returns nil, is the whole of it, and the local file then carries the
    remote modification time. *)
Definition downloads (file : FileInfo) w : Prop :=
  let localPath := filepath.Join (LocalDir cfg) (Path file) in
  let w0 := log_Printf (LogDownload (Path file) (Size file)) w in
  ∀ fs1 w2,
    1 ≤ MaxRetries cfg →
    os.MkdirAll (filepath.Dir localPath) (w_clock w0) (w_fs w0) = (None, fs1) →
    DownloadFileWithProgress (Path file) localPath (LastModified file)
      (progress_of showProgress (Path file)) (set_fs fs1 w0) = (None, w2) →
    SyncFile cfg showProgress file w
    = (None, log_Printf (LogDownloadDone (Path file) (Size file)) w2) ∧
    ∃ n, w_fs w2 !! filepath.parse localPath = Some n ∧
         os.nModTime n = LastModified file.

(** The world in which [syncLocalFileToWebDAV] decides: after the check
    of the remote path and, when it exists, the listing of its
    directory. *)
Definition checked (remotePath : string) w : World R :=
  match FileExists remotePath w with
  | ((true, None), w1) => (ListFiles (filepath.Dir remotePath) w1).2
  | (_, w1) => w1
  end.

(** [syncLocalFileToWebDAV] uploads: the first attempt, if it returns
    nil, is the whole of it, and the server has taken the content of the
    local file. *)
Definition uploads (relPath remotePath : string) (localInfo : fs_FileInfo) w : Prop :=
  let localPath := filepath.Join (LocalDir cfg) relPath in
  let w0 := log_Printf (LogUpload remotePath (fi_Size localInfo)) (checked remotePath w) in
  ∀ w3,
    1 ≤ MaxRetries cfg →
    UploadFileWithProgress localPath remotePath (fi_ModTime localInfo)
      (progress_of showProgress remotePath) w0 = (None, w3) →
    syncLocalFileToWebDAV cfg showProgress relPath remotePath w
    = (None, log_Printf (LogUploadDone remotePath (fi_Size localInfo)) w3) ∧
    ∃ data r reads,
      os.ReadFile localPath (w_fs (checked remotePath w)) = inl data ∧
      dav_WriteStream remotePath data r = ((reads, None), w_remote w3).

(** C1, as the code has it: the window in which a file counts as
    unchanged is open. On a pull, [SyncFile] downloads when the local
    path cannot be examined or the two modification times are one second
    or more apart, exactly one second included; when they are less than a
    second apart it logs the skip and does nothing else. On a push,
    [syncLocalFileToWebDAV] uploads when the remote path does not exist,
    when the listing of its directory does not show it, or when the
    listing shows it with a modification time one second or more from the
    local one, exactly one second included; when the times are less than
    a second apart it logs the skip after the check and does nothing
    else. *)
Theorem transfer_from_one_second_apart :
  (∀ (file : FileInfo) w,
     match os.Stat (filepath.Join (LocalDir cfg) (Path file)) (w_fs w) with
     | inr _ => downloads file w
     | inl stat =>
         (Z.abs (fi_ModTime stat - LastModified file) < time.Second →
          SyncFile cfg showProgress file w
          = (None, log_Printf (LogSkip (Path file)) w)) ∧
         (time.Second ≤ Z.abs (fi_ModTime stat - LastModified file) →
          downloads file w)
     end) ∧
  (∀ (relPath remotePath : string) w (localInfo : fs_FileInfo),
     os.Stat (filepath.Join (LocalDir cfg) relPath) (w_fs w) = inl localInfo →
     match remote_state remotePath w with
     | Some Absent | Some Unlisted => uploads relPath remotePath localInfo w
     | Some (Present remoteModTime) =>
         (Z.abs (fi_ModTime localInfo - remoteModTime) < time.Second →
          syncLocalFileToWebDAV cfg showProgress relPath remotePath w
          = (None, log_Printf (LogSkip remotePath) (checked remotePath w))) ∧
         (time.Second ≤ Z.abs (fi_ModTime localInfo - remoteModTime) →
          uploads relPath remotePath localInfo w)
     | None => True
     end).
Proof.
  split.
  - intros file w.
    set (localPath := filepath.Join (LocalDir cfg) (Path file)).
    assert ((match os.Stat localPath (w_fs w) with
             | inl stat => time.Second ≤ Z.abs (fi_ModTime stat - LastModified file)
             | inr _ => True
             end) → downloads file w) as Hdl.
    { intros Hfar fs1 w2 Hretries Hmk Hop. cbv zeta in *. fold localPath in Hmk, Hop.
      split; [|by eapply download_sets_time].
      unfold SyncFile. fold localPath.
      assert ((match os.Stat localPath (w_fs w) with
               | inl stat =>
                   if time.After (time.Add (fi_ModTime stat) time.Second)
                        (LastModified file)
                      && time.Before (time.Add (fi_ModTime stat) (- time.Second))
                           (LastModified file)
                   then (false, log_Printf (LogSkip (Path file)) w)
                   else (true, w)
               | inr _ => (true, w)
               end) = (true, w)) as ->.
      { destruct (os.Stat localPath (w_fs w)) as [stat|e]; [|done].
        destruct (_ && _) eqn:Hnear; [|done].
        apply tolerance_window in Hnear. lia. }
      unfold on_fs. rewrite Hmk.
      by rewrite (Retry_first_attempt _ _ _ _ _ Hretries Hop). }
    destruct (os.Stat localPath (w_fs w)) as [stat|e] eqn:Hstat; [|by apply Hdl].
    split; [by apply (SyncFile_skip cfg showProgress file w stat)|].
    intros Hfar. by apply Hdl.
  - intros relPath remotePath w localInfo Hstat.
    set (localPath := filepath.Join (LocalDir cfg) relPath) in *.
    unfold remote_state, uploads, checked, syncLocalFileToWebDAV.
    fold localPath. rewrite Hstat.
    destruct (FileExists remotePath w) as [[exists_ [e|]] w1]; [by destruct exists_|].
    destruct exists_.
    + destruct (ListFiles (filepath.Dir remotePath) w1) as [[remoteFiles|e] w2]; [|done].
      fold (same_base remotePath). cbn [snd].
      destruct (List.find (same_base remotePath) remoteFiles) as [remoteFile|].
      * split; [intros Hnear|intros Hfar].
        -- apply tolerance_window in Hnear. by rewrite Hnear.
        -- assert (time.After (time.Add (fi_ModTime localInfo) time.Second)
                     (LastModified remoteFile)
                   && time.Before (time.Add (fi_ModTime localInfo) (- time.Second))
                        (LastModified remoteFile) = false) as ->.
           { apply not_true_is_false. rewrite tolerance_window. lia. }
           intros w3 Hretries Hop.
           rewrite (Retry_first_attempt _ _ _ _ _ Hretries Hop).
           split; [done|]. by apply upload_sends_content in Hop.
      * intros w3 Hretries Hop.
        rewrite (Retry_first_attempt _ _ _ _ _ Hretries Hop).
        split; [done|]. by apply upload_sends_content in Hop.
    + intros w3 Hretries Hop.
      rewrite (Retry_first_attempt _ _ _ _ _ Hretries Hop).
      split; [done|]. by apply upload_sends_content in Hop.
Qed.
End Transfer.

(** C1, at exactly one second. On a pull the local [a.txt] is from
    second 5 and the remote one from second 6: the file is downloaded,
    and the local file then holds the remote content with the remote
    time. On a push the local [a.txt] is from second 7: the file is
    uploaded, and the server holds it as written at that moment. *)
Lemma transfer_from_one_second_apart_witness :
  let w := world (local_file "a.txt" (seconds 5)) srv_a in
  let pulled := SyncFile cfg_pull false file_a w in
  let v := world (local_file "a.txt" (seconds 7)) srv_a in
  let pushed := syncLocalFileToWebDAV cfg_push false "/a.txt" "/a.txt" v in
  (os.Stat (filepath.Join (LocalDir cfg_pull) (Path file_a)) (w_fs w)
   = inl {| fi_Name := "a.txt"; fi_Size := 4; fi_ModTime := seconds 5;
            fi_IsDir := false |} ∧
   Z.abs (seconds 5 - LastModified file_a) = time.Second ∧
   pulled.1 = None ∧
   w_fs pulled.2 !! (false, ["sync"; "a.txt"]) = Some (os.file_node hello (seconds 6)) ∧
   w_trace pulled.2 = [Log (LogDownload "a.txt" 4); Log (LogDownloadDone "a.txt" 4)]) ∧
  (os.Stat (filepath.Join (LocalDir cfg_push) "/a.txt") (w_fs v)
   = inl {| fi_Name := "a.txt"; fi_Size := 4; fi_ModTime := seconds 7;
            fi_IsDir := false |} ∧
   remote_state "/a.txt" v = Some (Present (seconds 6)) ∧
   Z.abs (seconds 7 - seconds 6) = time.Second ∧
   pushed.1 = None ∧
   srv_fs (w_remote pushed.2) !! (true, ["a.txt"])
   = Some (os.file_node hello (seconds 5000)) ∧
   w_trace pushed.2 = [Log (LogUpload "/a.txt" 4); Log (LogUploadDone "/a.txt" 4)]).
Proof.
  intros w pulled v pushed. split.
  - evaluate (os.Stat (filepath.Join (LocalDir cfg_pull) (Path file_a)) (w_fs w)) Hstat.
    pose proof (proj1 (transfer_from_one_second_apart cfg_pull false) file_a w) as Hpull.
    rewrite Hstat in Hpull. cbn [fi_ModTime] in Hpull.
    split; [exact Hstat|]. split; [reflexivity|].
    apply proj2 in Hpull. specialize (Hpull ltac:(by vm_compute)).
    pose (w0 := log_Printf (LogDownload (Path file_a) (Size file_a)) w).
    assert (os.MkdirAll (filepath.Dir (filepath.Join (LocalDir cfg_pull) (Path file_a)))
              (w_clock w0) (w_fs w0) = (None, w_fs w0)) as Hmk
      by computed.
    evaluate (DownloadFileWithProgress (Path file_a)
                (filepath.Join (LocalDir cfg_pull) (Path file_a)) (LastModified file_a)
                (progress_of false (Path file_a)) (set_fs (w_fs w0) w0)) Hop.
    match type of Hop with _ = (None, ?x) => pose (w2 := x); change x with w2 in Hop end.
    destruct (Hpull (w_fs w0) w2 ltac:(done) Hmk Hop) as [Hrun _].
    subst pulled. rewrite Hrun. split; [reflexivity|].
    split; computed.
  - evaluate (os.Stat (filepath.Join (LocalDir cfg_push) "/a.txt") (w_fs v)) Hstat.
    evaluate (remote_state "/a.txt" v) Hstate.
    pose proof (proj2 (transfer_from_one_second_apart cfg_push false)
                  "/a.txt" "/a.txt" v _ Hstat) as Hpush.
    rewrite Hstate in Hpush. cbn [fi_ModTime fi_Size] in Hpush.
    split; [exact Hstat|]. split; [exact Hstate|]. split; [reflexivity|].
    apply proj2 in Hpush. specialize (Hpush ltac:(by vm_compute)).
    pose (w0 := log_Printf (LogUpload "/a.txt" 4) (checked "/a.txt" v)).
    evaluate (UploadFileWithProgress (filepath.Join (LocalDir cfg_push) "/a.txt") "/a.txt"
                (seconds 7) (progress_of false "/a.txt") w0) Hop.
    match type of Hop with _ = (None, ?x) => pose (w3 := x); change x with w3 in Hop end.
    destruct (Hpush w3 ltac:(done) Hop) as [Hrun _].
    subst pushed. rewrite Hrun. split; [reflexivity|].
    split; computed.
Defined.

(** * Part III: the rest of the code *)

(** ** The configuration after the command line *)

Lemma LoadFromArgs_effect (mode : string) (syncDelete : bool) (c : Config) :
  let c' := LoadFromArgs mode syncDelete c in
  let wanted := if String.eqb mode "" then Mode c else mode in
  Mode c' = (if String.eqb wanted "backup" then "backup" else "restore") ∧
  SyncDelete c' = syncDelete || SyncDelete c ∧
  (WebdavURL c', WebdavUsername c', WebdavPassword c', LocalDir c')
  = (WebdavURL c, WebdavUsername c, WebdavPassword c, LocalDir c) ∧
  (CompareContent c', MaxConcurrent c', MaxRetries c', RetryDelay c')
  = (CompareContent c, MaxConcurrent c, MaxRetries c, RetryDelay c).
Proof.
  cbv zeta. unfold LoadFromArgs, BackupMode, RestoreMode.
  destruct (String.eqb_spec mode "") as [->|Hmode]; cbn [negb];
    destruct syncDelete; cbn [with_mode with_delete Mode SyncDelete orb];
    repeat match goal with
    | |- context [String.eqb ?a ?b] => destruct (String.eqb_spec a b); cbn [negb andb]
    end; cbn; repeat split; auto; try congruence.
Qed.

(** X1: whatever the flags and the file say, the mode [LoadFromArgs]
    leaves is "backup" or "restore": the flag [-mode] when it is given,
    else the mode of the file, and "restore" when that is neither of the
    two; [GetSyncMode] then returns it unchanged. The flag [-sync-delete]
    can switch deletion on and never off, the other fields are kept, and
    loading again without flags changes nothing. *)
Theorem LoadFromArgs_mode_is_valid (mode : string) (syncDelete : bool) (c : Config) :
  let c' := LoadFromArgs mode syncDelete c in
  let wanted := if String.eqb mode "" then Mode c else mode in
  (Mode c' = "backup" ∨ Mode c' = "restore") ∧
  Mode c' = (if String.eqb wanted "backup" then "backup" else "restore") ∧
  GetSyncMode c' = Mode c' ∧
  SyncDelete c' = syncDelete || SyncDelete c ∧
  (WebdavURL c', WebdavUsername c', WebdavPassword c', LocalDir c')
  = (WebdavURL c, WebdavUsername c, WebdavPassword c, LocalDir c) ∧
  (CompareContent c', MaxConcurrent c', MaxRetries c', RetryDelay c')
  = (CompareContent c, MaxConcurrent c, MaxRetries c, RetryDelay c) ∧
  LoadFromArgs "" false c' = c'.
Proof.
  intros c' wanted.
  destruct (LoadFromArgs_effect mode syncDelete c) as (Hmode & Hdelete & Hsrv & Hrest).
  fold c' wanted in Hmode, Hdelete, Hsrv, Hrest.
  assert (Mode c' = "backup" ∨ Mode c' = "restore") as Hvalid.
  { rewrite Hmode. destruct (String.eqb wanted "backup"); auto. }
  split; [done|]. split; [done|].
  split; [unfold GetSyncMode, BackupMode, RestoreMode; by destruct Hvalid as [-> | ->]|].
  split; [done|]. split; [done|]. split; [done|].
  unfold LoadFromArgs, BackupMode, RestoreMode. cbn [String.eqb negb].
  destruct Hvalid as [Hm|Hm]; rewrite Hm; done.
Qed.

(** ** Retry without attempts *)



(** ** The deletion set keeps the order of the enumeration *)

(** X3: [findExtraFiles] goes through its first list and keeps, in
    order and with its repetitions, the elements that the second list
    does not hold: nothing of an empty list, and of a list that starts
    with [x] what it keeps of the rest, after [x] unless the second list
    holds [x]. So the result is a sublist of the first list, free of
    repetitions when the first list is, the whole list against an empty
    second list and empty against itself; it distributes over
    concatenation, depends on the second list only through its elements,
    and filtering twice is filtering once. *)
Theorem findExtraFiles_keeps_order (source target : list string) :
  findExtraFiles [] target = [] ∧
  (∀ x, findExtraFiles (x :: source) target
        = if bool_decide (x ∈ target) then findExtraFiles source target
          else x :: findExtraFiles source target) ∧
  findExtraFiles source target `sublist_of` source ∧
  (NoDup source → NoDup (findExtraFiles source target)) ∧
  findExtraFiles source [] = source ∧
  findExtraFiles source source = [] ∧
  (∀ more, findExtraFiles (source ++ more) target
           = findExtraFiles source target ++ findExtraFiles more target) ∧
  (∀ target', (∀ x, x ∈ target ↔ x ∈ target') →
     findExtraFiles source target' = findExtraFiles source target) ∧
  findExtraFiles (findExtraFiles source target) target = findExtraFiles source target.
Proof.
  assert (∀ (keep : string → bool) l, List.filter keep l `sublist_of` l) as Hsub.
  { intros keep l. induction l as [|x l IH]; simpl; [done|].
    destruct (keep x); by constructor. }
  split; [done|]. split.
  { intros x. rewrite !findExtraFiles_filter. cbn [List.filter].
    by destruct (bool_decide (x ∈ target)). }
  rewrite !findExtraFiles_filter. split_and!.
  - apply Hsub.
  - intros Hnd. by eapply sublist_NoDup.
  - induction source as [|x source IH]; cbn [List.filter]; [done|].
    rewrite IH. case_bool_decide as Hx; [by apply elem_of_nil in Hx|done].
  - assert (∀ l, (∀ x, x ∈ l → x ∈ source) →
                 List.filter (λ file, negb (bool_decide (file ∈ source))) l = []) as Hall.
    { induction l as [|x l IH]; intros Hl; cbn [List.filter]; [done|].
      rewrite bool_decide_eq_true_2 by (apply Hl; left). cbn [negb].
      apply IH. intros y Hy. apply Hl. by right. }
    by apply Hall.
  - intros more. rewrite !findExtraFiles_filter. apply List.filter_app.
  - intros target' Hsame. rewrite ?findExtraFiles_filter.
    apply List.filter_ext. intros x. f_equal. apply bool_decide_ext. by rewrite Hsame.
  - rewrite ?findExtraFiles_filter.
    induction source as [|x source IH]; cbn [List.filter]; [done|].
    destruct (negb (bool_decide (x ∈ target))) eqn:Hx; cbn [List.filter]; [|done].
    by rewrite Hx, IH.
Qed.

(** ** Sizes as text *)

Lemma formatSize_loop_spec (bytes : Z) (fuel : nat) (n : Z) (exp : nat) :
  0 ≤ bytes < 2 ^ 63 →
  1 ≤ n → n = bytes `div` 1024 ^ Z.of_nat (S exp) →
  (5 ≤ fuel + exp)%nat →
  ∃ exp' : nat,
    formatSize_loop fuel n (1024 ^ Z.of_nat (S exp)) exp
    = Some (1024 ^ Z.of_nat (S exp'), exp') ∧
    (exp ≤ exp')%nat ∧
    1024 ^ Z.of_nat (S exp') ≤ bytes < 1024 ^ Z.of_nat (S (S exp')).
Proof.
  intros Hbytes. revert n exp.
  assert (∀ k : nat, 0 < 1024 ^ Z.of_nat k) as Hpos by (intros; lia).
  assert (∀ k : nat, 1024 ^ Z.of_nat (S k) = 1024 * 1024 ^ Z.of_nat k) as Hpow.
  { intros k. rewrite Nat2Z.inj_succ, Z.pow_succ_r; lia. }
  assert (∀ n exp, 1 ≤ n → n = bytes `div` 1024 ^ Z.of_nat (S exp) →
            1024 ^ Z.of_nat (S exp) * n ≤ bytes
            < 1024 ^ Z.of_nat (S exp) * (n + 1)) as Hbounds.
  { intros n exp Hn ->. specialize (Hpos (S exp)).
    pose proof (Z.mul_div_le bytes _ Hpos).
    pose proof (Z.mul_succ_div_gt bytes _ Hpos). lia. }
  induction fuel as [|fuel IH]; intros n exp Hn Hdiv Hfuel.
  - destruct (Hbounds n exp Hn Hdiv) as [Hlo Hhi].
    cbn [formatSize_loop]. destruct (Z.leb_spec 1024 n) as [Hbig|Hsmall].
    + exfalso. assert (5 ≤ exp)%nat as Hexp by lia.
      assert (1024 ^ 6 ≤ 1024 ^ Z.of_nat (S exp)) as Hp
        by (apply Z.pow_le_mono_r; lia).
      specialize (Hpos (S exp)). nia.
    + exists exp. split; [done|]. split; [done|].
      rewrite (Hpow (S exp)). specialize (Hpos (S exp)). nia.
  - destruct (Hbounds n exp Hn Hdiv) as [Hlo Hhi].
    cbn [formatSize_loop]. destruct (Z.leb_spec 1024 n) as [Hbig|Hsmall].
    + assert (1024 ^ Z.of_nat (S exp) * 1024 < 2 ^ 63) as Hfit
        by (specialize (Hpos (S exp)); nia).
      rewrite wrap64_small by (specialize (Hpos (S exp)); lia).
      replace (1024 ^ Z.of_nat (S exp) * 1024) with (1024 ^ Z.of_nat (S (S exp)))
        by (rewrite (Hpow (S exp)); lia).
      rewrite Z.quot_div_nonneg by lia.
      destruct (IH (n `div` 1024) (S exp)) as (exp' & Hrun & Hle & Hrange).
      * apply Z.div_le_lower_bound; lia.
      * rewrite Hdiv, Z.div_div by (try apply Hpos; lia).
        f_equal. rewrite (Hpow (S exp)). lia.
      * lia.
      * exists exp'. split; [done|]. split; [lia|done].
    + exists exp. split; [done|]. split; [done|].
      rewrite (Hpow (S exp)). specialize (Hpos (S exp)). nia.
Qed.

(** X4: for every int64 size and at least five iterations allowed,
    [formatSize] returns: below 1024 the number itself; otherwise the
    divisor [1024^(exp+1)] and the letter at index [exp] of "KMGTPE", with
    [exp < 6] (the index is never out of range, the divisor never
    overflows) and the size at least one and less than 1024 times the
    divisor. *)
Theorem formatSize_picks_unit (fuel : nat) (bytes : Z) :
  - 2 ^ 63 ≤ bytes < 2 ^ 63 → (5 ≤ fuel)%nat →
  if bytes <? 1024 then formatSize fuel bytes = Some (inl (SizeBytes bytes))
  else
    ∃ (exp : nat) (unit : ascii),
      formatSize fuel bytes
      = Some (inl (SizeScaled bytes (1024 ^ Z.of_nat (S exp)) unit)) ∧
      (exp < 6)%nat ∧ String.get exp "KMGTPE" = Some unit ∧
      1024 ^ Z.of_nat (S exp) ≤ bytes < 1024 ^ Z.of_nat (S (S exp)).
Proof.
  intros Hrange Hfuel. unfold formatSize.
  destruct (Z.ltb_spec bytes 1024) as [Hsmall|Hbig]; [done|].
  rewrite Z.quot_div_nonneg by lia.
  destruct (formatSize_loop_spec bytes fuel (bytes `div` 1024) 0)
    as (exp & Hrun & _ & Hlo & Hhi); [lia| |done|lia|].
  { apply Z.div_le_lower_bound; lia. }
  change (1024 ^ Z.of_nat 1) with 1024 in Hrun. rewrite Hrun.
  assert (exp < 6)%nat as Hexp.
  { destruct (decide (exp < 6)%nat) as [|Hge]; [done|]. exfalso.
    assert (1024 ^ 7 ≤ 1024 ^ Z.of_nat (S exp)) by (apply Z.pow_le_mono_r; lia).
    lia. }
  assert (∃ unit, String.get exp "KMGTPE" = Some unit) as [unit Hunit].
  { do 6 (destruct exp as [|exp]; [by eexists|]). lia. }
  exists exp, unit. rewrite Hunit. done.
Qed.

Lemma formatSize_picks_unit_witness :
  - 2 ^ 63 ≤ 1536 < 2 ^ 63 ∧ (5 ≤ 5)%nat ∧
  formatSize 5 1536 = Some (inl (SizeScaled 1536 1024 "K"%char)) ∧
  ∃ (exp : nat) (unit : ascii),
    formatSize 5 (2 ^ 63 - 1)
    = Some (inl (SizeScaled (2 ^ 63 - 1) (1024 ^ Z.of_nat (S exp)) unit)) ∧
    (exp < 6)%nat ∧ String.get exp "KMGTPE" = Some unit ∧
    1024 ^ Z.of_nat (S exp) ≤ 2 ^ 63 - 1 < 1024 ^ Z.of_nat (S (S exp)).
Proof.
  split; [lia|]. split; [lia|]. split; [vm_compute; reflexivity|].
  exact (formatSize_picks_unit 5 (2 ^ 63 - 1) ltac:(lia) ltac:(lia)).
Defined.

(** ** The progress bar *)

(** [strings.Repeat] of a one-character string. *)
Fixpoint strings_Repeat (s : string) (count : nat) : string :=
  match count with
  | O => ""
  | S count' => s +:+ strings_Repeat s count'
  end.

Lemma string_app_cons (x : ascii) (a b : string) :
  String x a +:+ b = String x (a +:+ b).
Proof. reflexivity. Qed.

Lemma string_app_assoc (a b c : string) : (a +:+ b) +:+ c = a +:+ (b +:+ c).
Proof.
  induction a as [|x a IH]; [done|]. by rewrite !string_app_cons, IH.
Qed.

Lemma string_app_empty_r (a : string) : a +:+ "" = a.
Proof. induction a as [|x a IH]; [done|]. by rewrite string_app_cons, IH. Qed.

Lemma progressBar_loop_app (n1 n2 : nat) (i completed : Z) (acc : string) :
  progressBar_loop (n1 + n2) i completed acc
  = progressBar_loop n2 (i + Z.of_nat n1) completed (progressBar_loop n1 i completed acc).
Proof.
  revert i acc. induction n1 as [|n1 IH]; intros i acc.
  - simpl. by rewrite Z.add_0_r.
  - cbn [Nat.add progressBar_loop]. rewrite IH. f_equal. lia.
Qed.

Lemma progressBar_loop_done (n : nat) (i completed : Z) (acc : string) :
  i + Z.of_nat n ≤ completed →
  progressBar_loop n i completed acc = acc +:+ strings_Repeat "=" n.
Proof.
  revert i acc. induction n as [|n IH]; intros i acc Hle.
  - cbn [progressBar_loop strings_Repeat]. by rewrite string_app_empty_r.
  - cbn [progressBar_loop strings_Repeat].
    destruct (Z.ltb_spec i completed); [|lia].
    rewrite IH by lia. by rewrite string_app_assoc.
Qed.

Lemma progressBar_loop_todo (n : nat) (i completed : Z) (acc : string) :
  completed < i →
  progressBar_loop n i completed acc = acc +:+ strings_Repeat " " n.
Proof.
  revert i acc. induction n as [|n IH]; intros i acc Hlt.
  - cbn [progressBar_loop strings_Repeat]. by rewrite string_app_empty_r.
  - cbn [progressBar_loop strings_Repeat].
    destruct (Z.ltb_spec i completed); [lia|].
    destruct (Z.eqb_spec i completed); [lia|].
    rewrite IH by lia. by rewrite string_app_assoc.
Qed.

(** X5: the bar that [updateProgress] draws has 42 characters for every
    value of [completed]: the brackets, [completed] signs "=" (none when
    it is negative, forty when it is forty or more), the sign ">" exactly
    when [0 <= completed < 40], and blanks for the rest. *)
Theorem progressBar_shape (completed : Z) :
  String.length (progressBar completed) = 42%nat ∧
  progressBar completed
  = "[" +:+ strings_Repeat "=" (Z.to_nat (Z.min completed 40))
        +:+ (if (0 <=? completed) && (completed <? 40) then ">" else "")
        +:+ strings_Repeat " " (if completed <? 0 then 40 else Z.to_nat (39 - completed))
        +:+ "]".
Proof.
  split.
  - unfold progressBar. rewrite string_length_app.
    enough (∀ n i acc, String.length (progressBar_loop n i completed acc)
                       = (String.length acc + n)%nat) as -> by done.
    induction n as [|n IH]; intros i acc; cbn [progressBar_loop]; [lia|].
    rewrite IH. repeat case_match; rewrite string_length_app; cbn [String.length]. all: by rewrite <- Nat.add_assoc.
  - unfold progressBar. change (Z.to_nat 40) with 40%nat.
    destruct (Z.leb_spec 0 completed) as [Hnn|Hneg]; cbn [andb].
    + destruct (Z.ltb_spec completed 40) as [Hlt|Hge].
      * destruct (Z.ltb_spec completed 0); [lia|].
        rewrite Z.min_l by lia.
        replace 40%nat
          with (Z.to_nat completed + (1 + Z.to_nat (39 - completed)))%nat by lia.
        rewrite (progressBar_loop_app (Z.to_nat completed)).
        rewrite (progressBar_loop_done (Z.to_nat completed)) by lia.
        cbn [progressBar_loop Nat.add].
        destruct (Z.ltb_spec (0 + Z.of_nat (Z.to_nat completed)) completed); [lia|].
        destruct (Z.eqb_spec (0 + Z.of_nat (Z.to_nat completed)) completed); [|lia].
        rewrite progressBar_loop_todo by lia.
        by rewrite !string_app_assoc.
      * destruct (Z.ltb_spec completed 0); [lia|].
        rewrite Z.min_r by lia. replace (Z.to_nat (39 - completed)) with 0%nat by lia.
        change (Z.to_nat 40) with 40%nat.
        rewrite progressBar_loop_done by lia. done.
    + destruct (Z.ltb_spec completed 0); [|lia].
      rewrite Z.min_l by lia. replace (Z.to_nat completed) with 0%nat by lia.
      rewrite progressBar_loop_todo by lia. done.
Qed.

(** ** Terminal lines *)

(** The calls made on the line bookkeeping of one [SyncManager], in the
    order in which they take effect. *)
Inductive LineCall : Type :=
  | GetLine (filePath : string)
  | ReleaseLine (filePath : string).

Definition line_call (s : Lines) (c : LineCall) : Lines :=
  match c with
  | GetLine filePath => (getLineNumber filePath s).2
  | ReleaseLine filePath => releaseLineNumber filePath s
  end.

Definition line_calls (calls : list LineCall) : Lines :=
  fold_left line_call calls NewSyncManager.

Definition handed_out (calls : list LineCall) : nat :=
  length (List.filter (λ c, if c is GetLine _ then true else false) calls).

(** X6: after any sequence of [getLineNumber] and [releaseLineNumber]
    on a new [SyncManager] (fewer than [2^63] lines handed out), the next
    line number is the number of lines handed out so far, so a released
    number is not handed out again; every number in [downloadMap] is below
    [nextLine], so the cursor moves up by at least one line; and no two
    paths hold the same number. *)
Theorem line_numbers_never_reused (calls : list LineCall) :
  Z.of_nat (handed_out calls) < 2 ^ 63 →
  let s := line_calls calls in
  nextLine s = Z.of_nat (handed_out calls) ∧
  (∀ filePath, (getLineNumber filePath s).1 = Z.of_nat (handed_out calls)) ∧
  (∀ filePath n, downloadMap s !! filePath = Some n →
     0 ≤ n < nextLine s ∧ 1 ≤ cursorUp n s) ∧
  (∀ p q n, downloadMap s !! p = Some n → downloadMap s !! q = Some n → p = q).
Proof.
  cbv zeta. unfold line_calls.
  induction calls as [|c calls IH] using rev_ind; intros Hfit.
  - cbn. split; [done|]. split; [done|]. split; intros *; by rewrite lookup_empty.
  - assert (handed_out (calls ++ [c])
            = (handed_out calls + if c is GetLine _ then 1 else 0)%nat) as Hcount.
    { unfold handed_out. rewrite List.filter_app, length_app. by destruct c. }
    rewrite Hcount in Hfit |- *.
    destruct IH as (Hnext & _ & Hbound & Hinj); [lia|].
    rewrite fold_left_app. cbn [fold_left].
    set (s := fold_left line_call calls NewSyncManager) in *.
    destruct c as [filePath|filePath]; cbn [line_call getLineNumber releaseLineNumber
                                              snd fst nextLine downloadMap].
    + assert (time.wrap64 (nextLine s + 1) = nextLine s + 1) as Hwrap
        by (apply wrap64_small; lia).
      rewrite Hwrap. split; [lia|]. split; [lia|]. split.
      * intros p n. unfold cursorUp. cbn [nextLine]. rewrite ?Hwrap.
        destruct (decide (p = filePath)) as [->|Hne].
        -- rewrite lookup_insert_eq. intros [= <-].
           rewrite wrap64_small by lia. lia.
        -- rewrite lookup_insert_ne by done. intros [Hn _]%Hbound.
           rewrite wrap64_small by lia. lia.
      * intros p q n.
        destruct (decide (p = filePath)) as [->|Hp], (decide (q = filePath)) as [->|Hq];
          rewrite ?lookup_insert_eq, ?lookup_insert_ne by done; [done| | |apply Hinj].
        -- intros [= <-] [Hn _]%Hbound. lia.
        -- intros [Hn _]%Hbound [= <-]. lia.
    + replace (handed_out calls + 0)%nat with (handed_out calls) by lia.
      split; [done|]. split; [done|]. split.
      * intros p n Hp. apply lookup_delete_Some in Hp as [_ Hp].
        destruct (Hbound p n Hp) as [Hn Hup]. split; [done|]. exact Hup.
      * intros p q n [_ Hp]%lookup_delete_Some [_ Hq]%lookup_delete_Some.
        by eapply Hinj.
Qed.

Lemma line_numbers_never_reused_witness :
  Z.of_nat (handed_out [GetLine "a.txt"; ReleaseLine "a.txt"; GetLine "b.txt"]) < 2 ^ 63 ∧
  (getLineNumber "c.txt"
     (line_calls [GetLine "a.txt"; ReleaseLine "a.txt"; GetLine "b.txt"])).1 = 2.
Proof.
  split; [done|].
  exact (proj1 (proj2 (line_numbers_never_reused
                         [GetLine "a.txt"; ReleaseLine "a.txt"; GetLine "b.txt"]
                         eq_refl)) "c.txt").
Defined.

(** ** Remote listings *)

Section Listing.
Context {R : Type} `{!WebDAV R}.
Implicit Types w : World R.

(** X7: [ListFiles] asks the server for one listing, of the root when
    the path is "" or "/" (the root is listed as ""), and otherwise of
    the path itself, with a slash in front when it has none. When the
    server refuses, that is the error. Otherwise the result has one entry
    for each entry of the listing, in order, with its kind, time and
    size, except those whose path has the base name "." or "..": the path
    is the bare name when the root was listed, and otherwise the
    directory, a separator unless the directory ends in one, and the
    name; so the paths of the root are relative and all others start with
    a slash. *)
Theorem ListFiles_paths (remotePath : string) w :
  let root := bool_decide (remotePath = "" ∨ remotePath = "/") in
  let dir :=
    if root then ""
    else if strings_HasPrefix remotePath "/" then remotePath
         else "/" +:+ remotePath in
  let entry_of (info : fs_FileInfo) : FileInfo :=
    {| Path := if root then fi_Name info
               else if strings_HasSuffix dir "/" then dir +:+ fi_Name info
                    else dir +:+ "/" +:+ fi_Name info;
       IsDir := fi_IsDir info; LastModified := fi_ModTime info;
       Size := fi_Size info |} in
  let named (entry : FileInfo) : bool :=
    negb (String.eqb (filepath.Base (Path entry)) "."
          || String.eqb (filepath.Base (Path entry)) "..") in
  match dav_ReadDir dir (w_remote w) with
  | (inr e, r) =>
      ListFiles remotePath w
      = (inr (WrappedAt "read directory failed" dir (External e)), set_remote r w)
  | (inl listing, r) =>
      ListFiles remotePath w
      = (inl (List.filter named (entry_of <$> listing)), set_remote r w) ∧
      ∀ entry, entry ∈ List.filter named (entry_of <$> listing) →
        filepath.Base (Path entry) ≠ "." ∧ filepath.Base (Path entry) ≠ ".." ∧
        (root = false → strings_HasPrefix (Path entry) "/" = true)
  end.
Proof.
  intros root dir entry_of named.
  assert (dir = if root then ""
                else if strings_HasPrefix remotePath "/" then remotePath
                     else "/" +:+ remotePath) as Hdir0 by done.
  assert (root = bool_decide (remotePath = "" ∨ remotePath = "/")) as Hroot0 by done.
  clearbody dir root.
  unfold ListFiles, listRemoteFiles.
  set (p := if negb (strings_HasPrefix remotePath "/") then "/" +:+ remotePath
            else remotePath).
  assert (strings_HasPrefix p "/" = true) as Hp.
  { subst p. destruct (strings_HasPrefix remotePath "/") eqn:Hpre; [done|].
    cbn [negb]. by destruct remotePath. }
  assert ((if String.eqb p "/" then "" else p) = dir ∧
          (root = false → dir = p ∧ p ≠ "")) as [Hdir Hnonroot].
  { subst dir root p. case_bool_decide as Hroot.
    - split; [|done]. by destruct Hroot as [-> | ->].
    - destruct (strings_HasPrefix remotePath "/") eqn:Hpre; cbn [negb].
      + destruct (String.eqb_spec remotePath "/") as [Heq|Hne]; [by destruct Hroot; right|].
        split; [done|]. intros _. split; [done|]. intros ->. by apply Hroot; left.
      + destruct (String.eqb_spec ("/" +:+ remotePath) "/") as [Heq|Hne].
        * exfalso. apply Hroot. left. by injection Heq.
        * split; [done|]. intros _. split; [done|]. by destruct remotePath. }
  rewrite Hdir. unfold on_remote.
  destruct (dav_ReadDir dir (w_remote w)) as [[listing|e] r]; [|done].
  assert (∀ info : fs_FileInfo,
            {| Path := (if negb (String.eqb dir "") && negb (strings_HasSuffix dir "/")
                        then dir +:+ "/" else dir) +:+ fi_Name info;
               IsDir := fi_IsDir info; LastModified := fi_ModTime info;
               Size := fi_Size info |} = entry_of info) as Hentry.
  { intros info. subst entry_of. cbv beta. f_equal.
    destruct root.
    - by subst dir.
    - destruct (Hnonroot eq_refl) as [Hdp Hne].
      assert (String.eqb dir "" = false) as -> by (apply String.eqb_neq; congruence).
      cbn [negb andb]. destruct (strings_HasSuffix dir "/"); cbn [negb]; [done|].
      by rewrite string_app_assoc. }
  split.
  - f_equal. f_equal. subst named. f_equal. apply list_fmap_ext. intros i info _. apply Hentry.
  - intros entry Hin.
    apply list_elem_of_In, filter_In in Hin as [Hin Hbase].
    apply list_elem_of_In, list_elem_of_fmap in Hin as (info & -> & Hinfo).
    subst named. cbv beta in Hbase.
    apply negb_true_iff, orb_false_iff in Hbase as [Hdot Hdots].
    apply String.eqb_neq in Hdot, Hdots.
    split; [done|]. split; [done|]. intros Hroot.
    destruct (Hnonroot Hroot) as [Hdp Hne]. subst entry_of. cbn [Path].
    rewrite Hroot. rewrite Hdp.
    destruct p as [|c p']; [done|].
    unfold strings_HasPrefix in *. cbn [String.prefix] in Hp.
    destruct (ascii_dec "/" c) as [<-|]; [|done].
    change (String "/" p' +:+ fi_Name info) with (String "/" (p' +:+ fi_Name info)).
    change (String "/" p' +:+ "/" +:+ fi_Name info)
      with (String "/" (p' +:+ "/" +:+ fi_Name info)).
    destruct (strings_HasSuffix (String "/" p') "/"); cbn [String.prefix];
      (destruct (ascii_dec "/" "/") as [_|Hn]; [|by destruct Hn]);
      match goal with |- String.prefix "" ?x = true => by destruct x end.
Qed.
End Listing.

(** ** Remote directories *)

Section RemoteDirs.
Context {R : Type} `{!WebDAV R}.
Implicit Types w : World R.

(** X8: a path without a leading slash and the same path with one are
    the same to [listRemoteFiles], [ListFiles] and [MakeDir]; [MakeDir]
    of "" and of "/" returns nil without asking the server anything. *)
Theorem leading_slash_is_optional (remotePath : string) w :
  strings_HasPrefix remotePath "/" = false →
  listRemoteFiles ("/" +:+ remotePath) w = listRemoteFiles remotePath w ∧
  ListFiles ("/" +:+ remotePath) w = ListFiles remotePath w ∧
  MakeDir ("/" +:+ remotePath) w = MakeDir remotePath w ∧
  MakeDir "" w = (None, w) ∧ MakeDir "/" w = (None, w).
Proof.
  intros Hpre.
  assert (listRemoteFiles ("/" +:+ remotePath) w = listRemoteFiles remotePath w) as Heq.
  { unfold listRemoteFiles. rewrite Hpre. cbn [negb].
    replace (strings_HasPrefix ("/" +:+ remotePath) "/") with true; [done|].
    by destruct remotePath. }
  split; [done|]. split; [unfold ListFiles; by rewrite Heq|].
  split; [|done].
  unfold MakeDir. f_equal.
  destruct remotePath as [|c p]; [done|].
  unfold strings_HasPrefix in Hpre. cbn [String.prefix] in Hpre.
  cbn. destruct (Ascii.eqb_spec c "/") as [->|Hne]; [|done].
  by destruct p.
Qed.

(** The paths [MakeDir] asks the server to create, in order. *)
Fixpoint MakeDir_prefixes (parts : list string) (current : string) : list string :=
  match parts with
  | [] => []
  | part :: parts' =>
      let current := if negb (String.eqb current "") then current +:+ "/" else current in
      let current := current +:+ part in
      current :: MakeDir_prefixes parts' current
  end.

Lemma MakeDir_loop_existing (Inv : R → Prop) (parts : list string)
    (current : string) w :
  (∀ path r, path ∈ MakeDir_prefixes parts current → Inv r →
     match dav_Mkdir path r with
     | (None, r1) => Inv r1
     | (Some _, r1) =>
         ∃ info r2, dav_Stat path r1 = (inl info, r2) ∧ fi_IsDir info = true ∧ Inv r2
     end) →
  Inv (w_remote w) →
  (MakeDir_loop parts current w).1 = None ∧
  Inv (w_remote (MakeDir_loop parts current w).2).
Proof.
  revert current w.
  induction parts as [|part parts IH]; intros current w Hserver Hinv; [done|].
  cbn [MakeDir_loop MakeDir_prefixes] in *. unfold on_remote.
  set (cur := (if negb (String.eqb current "") then current +:+ "/" else current)
              +:+ part) in *.
  pose proof (Hserver cur (w_remote w) ltac:(left) Hinv) as Hstep.
  assert (∀ path r, path ∈ MakeDir_prefixes parts cur → Inv r →
            match dav_Mkdir path r with
            | (None, r1) => Inv r1
            | (Some _, r1) =>
                ∃ info r2, dav_Stat path r1 = (inl info, r2)
                           ∧ fi_IsDir info = true ∧ Inv r2
            end) as Hrest.
  { intros path r Hin. apply Hserver. by right. }
  destruct (dav_Mkdir cur (w_remote w)) as [[e|] r1]; cbn [w_remote set_remote].
  - destruct Hstep as (info & r2 & Hstat & Hdir & Hinv2).
    rewrite Hstat, Hdir. by apply IH.
  - by apply IH.
Qed.

(** X9: collections that are already there are not an error. Take a set
    of server states in which the creation of each path that [MakeDir]
    asks for either succeeds or fails with the path then reported as a
    collection, and which these requests do not leave. From a state of
    the set, [MakeDir] returns nil and the server is still in the set. *)
Theorem MakeDir_accepts_existing (Inv : R → Prop) (remotePath : string) w :
  (∀ path r, path ∈ MakeDir_prefixes (filepath.split (trim_slash remotePath)) "" → Inv r →
     match dav_Mkdir path r with
     | (None, r1) => Inv r1
     | (Some _, r1) =>
         ∃ info r2, dav_Stat path r1 = (inl info, r2) ∧ fi_IsDir info = true ∧ Inv r2
     end) →
  Inv (w_remote w) →
  (MakeDir remotePath w).1 = None ∧ Inv (w_remote (MakeDir remotePath w).2).
Proof.
  intros Hserver Hinv. unfold MakeDir. case_match; [done|].
  by apply MakeDir_loop_existing.
Qed.

(** X10: when [RemoveRemoteAll] returns: if the path could not be
    examined, whatever the error, the result is nil and nothing but the
    examination happened; if the path is not a collection, the result is
    that of [RemoveRemote] of the path; and nil is returned for a path
    that was examined only if the removal of the path itself was the last
    request and succeeded. *)
Theorem RemoveRemoteAll_outcome (fuel : nat) (remotePath : string) w
    (err : option error) w' :
  RemoveRemoteAll fuel remotePath w = Some (err, w') →
  match dav_Stat remotePath (w_remote w) with
  | (inr _, r1) => err = None ∧ w' = set_remote r1 w
  | (inl info, r1) =>
      (fi_IsDir info = false →
       (err, w') = RemoveRemote remotePath (set_remote r1 w)) ∧
      (err = None → ∃ w0, RemoveRemote remotePath w0 = (None, w'))
  end.
Proof.
  destruct fuel as [|fuel]; [done|]. cbn [RemoveRemoteAll]. unfold on_remote.
  destruct (dav_Stat remotePath (w_remote w)) as [[info|e] r1]; [|by intros [= <- <-]].
  destruct (fi_IsDir info).
  - match goal with
    | |- context [match ?c with Some _ => _ | None => None end] =>
        destruct c as [[[e|] w1]|]
    end; [by intros [= <- <-]| |done].
    intros [= Hrm]. split; [done|]. intros ->. by exists w1.
  - intros [= Hrm]. split; [done|]. intros ->. by eexists.
Qed.
End RemoteDirs.

(** ** A download that completes *)

Section Delivery.
Context {R : Type} `{!WebDAV R}.
Implicit Types w : World R.

Definition stream_data (reader : Stream) : list Byte.byte :=
  concat (bytes <$> chunks reader).

Lemma write_chunk_content k c w n :
  w_fs w !! k = Some n → os.nIsDir n = false →
  w_fs (write_chunk k c w)
  = <[k := os.file_node (os.nData n ++ bytes c) (w_clock w)]> (w_fs w).
Proof.
  intros Hn Hfile. unfold write_chunk, os.Write. simpl. by rewrite Hn, Hfile.
Qed.

Lemma io_Copy_content k reads w data t :
  w_fs w !! k = Some (os.file_node data t) →
  ∃ t', w_fs (io_Copy k reads w)
        = <[k := os.file_node (data ++ concat (bytes <$> reads)) t']> (w_fs w).
Proof.
  revert w data t. induction reads as [|c reads IH]; intros w data t Hn.
  - exists t. simpl. by rewrite app_nil_r, insert_id.
  - cbn [io_Copy fmap list_fmap concat].
    pose proof (write_chunk_content k c (read_chunk c w) _ Hn eq_refl) as Hw.
    change (w_fs (read_chunk c w)) with (w_fs w) in Hw.
    destruct (IH (write_chunk k c (read_chunk c w)) (data ++ bytes c)
                (w_clock (read_chunk c w))) as [t' Ht'].
    { rewrite Hw. apply lookup_insert_eq. }
    exists t'. rewrite Ht', Hw, insert_insert_eq. by rewrite <- app_assoc.
Qed.

Lemma io_CopyBuffer_content cb total k reads p w data t :
  w_fs w !! k = Some (os.file_node data t) →
  ∃ t', w_fs (io_CopyBuffer cb total k reads p w)
        = <[k := os.file_node (data ++ concat (bytes <$> reads)) t']> (w_fs w).
Proof.
  revert p w data t. induction reads as [|c reads IH]; intros p w data t Hn.
  - exists t. simpl. by rewrite app_nil_r, insert_id.
  - cbn [io_CopyBuffer fmap list_fmap concat].
    pose proof (fs_read_with_progress cb total c p w) as Hread.
    destruct (read_with_progress cb total c p w) as [p1 w1]. cbn [snd] in Hread.
    rewrite <- Hread in Hn.
    pose proof (write_chunk_content k c w1 _ Hn eq_refl) as Hw.
    destruct (IH p1 (write_chunk k c w1) (data ++ bytes c) (w_clock w1)) as [t' Ht'].
    { rewrite Hw. apply lookup_insert_eq. }
    exists t'. rewrite Ht', Hw, insert_insert_eq, Hread. by rewrite <- app_assoc.
Qed.

Lemma remote_io_Copy k reads w : w_remote (io_Copy k reads w) = w_remote w.
Proof.
  revert w. induction reads as [|c reads IH]; intros w; [done|].
  cbn [io_Copy]. by rewrite IH.
Qed.

Lemma remote_io_CopyBuffer cb total k reads p w :
  w_remote (io_CopyBuffer cb total k reads p w) = w_remote w.
Proof.
  revert p w. induction reads as [|c reads IH]; intros p w; [done|].
  cbn [io_CopyBuffer].
  assert (w_remote (read_with_progress cb total c p w).2 = w_remote w) as Hq.
  { unfold read_with_progress, updateProgress. by repeat case_match. }
  destruct (read_with_progress cb total c p w) as [p1 w1]. cbn [snd] in Hq.
  by rewrite IH.
Qed.

(** X11: when the remote file is found, its stream ends without an
    error, the temporary file can be created and the destination is a
    regular file or a free name in an existing directory, the download
    returns nil; afterwards the destination holds exactly the bytes of the
    stream, in order, with the remote modification time, the temporary
    file is gone and every other path is as before. With or without a
    progress callback. *)
Theorem download_delivers_the_stream (remotePath localPath : string)
    (remoteModTime : Time) (progressCb : option ProgressCallback) w
    info r1 reader r2 file fs1 :
  let tmpFile := localPath +:+ ".download" in
  dav_Stat remotePath (w_remote w) = (inl info, r1) →
  dav_ReadStream remotePath r1 = (inl reader, r2) →
  final reader = None →
  os.Create tmpFile (w_clock w) (w_fs w) = (inl file, fs1) →
  match w_fs w !! filepath.parse localPath with
  | Some n => os.nIsDir n = false
  | None => os.is_dir (w_fs w) (os.parent (filepath.parse localPath)) = true
  end →
  let '(err, w') :=
    DownloadFileWithProgress remotePath localPath remoteModTime progressCb w in
  err = None ∧
  w_fs w' = <[filepath.parse localPath :=
                os.file_node (stream_data reader) remoteModTime]>
              (delete (filepath.parse tmpFile) (w_fs w)) ∧
  w_remote w' = r2 ∧
  os.ReadFile localPath (w_fs w') = inl (stream_data reader) ∧
  w_fs w' !! filepath.parse tmpFile = None.
Proof.
  intros tmpFile Hstat Hread Hfinal Hcreate Hdest.
  unfold DownloadFileWithProgress, client.ReadStream, on_remote, on_fs. fold tmpFile.
  rewrite Hstat. world_simpl. rewrite Hread. world_simpl. rewrite Hcreate. world_simpl.
  rewrite Hfinal.
  pose proof (parse_download_ne localPath) as Hne. fold tmpFile in Hne.
  set (kt := filepath.parse tmpFile) in *. set (kd := filepath.parse localPath) in *.
  assert (os.is_dir (w_fs w) kt = false) as Htmp_not_dir.
  { unfold os.Create in Hcreate. fold kt in Hcreate. unfold os.is_dir.
    destruct (w_fs w !! kt) as [n|]; [|done].
    by destruct (os.nIsDir n). }
  apply Create_ok in Hcreate as [-> ->]. fold kt.
  set (w1 := set_fs (<[kt := os.file_node [] (w_clock w)]> (w_fs w))
               (set_remote r2 (set_remote r1 w))).
  set (w2 := match progressCb with
             | Some cb => io_CopyBuffer cb _ kt (chunks reader) _ w1
             | None => io_Copy kt (chunks reader) w1
             end).
  assert (∃ t, w_fs w2 = <[kt := os.file_node (stream_data reader) t]> (w_fs w)
               ∧ w_remote w2 = r2)
    as (t & Hw2 & Hr2).
  { assert (w_fs w1 !! kt = Some (os.file_node [] (w_clock w))) as Hk
      by (subst w1; simpl; apply lookup_insert_eq).
    assert (w_remote w2 = r2) as Hrem.
    { subst w2. destruct progressCb; [by rewrite remote_io_CopyBuffer|
                                      by rewrite remote_io_Copy]. }
    assert (∃ t, w_fs w2 = <[kt := os.file_node ([] ++ stream_data reader) t]> (w_fs w1))
      as [t Ht].
    { subst w2. destruct progressCb.
      - by eapply io_CopyBuffer_content.
      - by eapply io_Copy_content. }
    exists t. split; [|done]. rewrite Ht. subst w1. simpl. apply insert_insert_eq. }
  clearbody w2. clear w1.
  assert (os.Rename tmpFile localPath (w_fs w2)
          = (None, <[kd := os.file_node (stream_data reader) t]> (delete kt (w_fs w))))
    as Hrename.
  { unfold os.Rename. fold kt kd. rewrite Hw2, lookup_insert_eq.
    rewrite lookup_insert_ne by done. rewrite delete_insert_eq.
    destruct (w_fs w !! kd) as [m|] eqn:Hm.
    - rewrite Hdest. done.
    - assert (os.parent kd ≠ kt) as Hpk.
      { intros Heq. rewrite Heq in Hdest. congruence. }
      unfold os.is_dir in *. rewrite lookup_insert_ne by done.
      destruct (w_fs w !! os.parent kd) as [pn|]; [|done]. by rewrite Hdest. }
  rewrite Hrename. world_simpl.
  unfold os.Chtimes. fold kd. rewrite lookup_insert_eq. world_simpl.
  rewrite insert_insert_eq.
  split; [done|]. split; [done|]. split; [by rewrite <- Hr2|].
  split.
  - unfold os.ReadFile. fold kd. by rewrite lookup_insert_eq.
  - rewrite lookup_insert_ne by done. apply lookup_delete_eq.
Qed.
End Delivery.

(** ** What a download does to the local tree *)

Lemma download_fs_cases {R : Type} `{!WebDAV R}
    (remotePath localPath : string) (remoteModTime : Time)
    (progressCb : option ProgressCallback) (w : World R) :
  let tmpFile := localPath +:+ ".download" in
  let '(err, w') :=
    DownloadFileWithProgress remotePath localPath remoteModTime progressCb w in
  match err with
  | Some _ =>
      w_fs w' = w_fs w ∨ w_fs w' = delete (filepath.parse tmpFile) (w_fs w)
  | None =>
      ∃ n, w_fs w' = <[filepath.parse localPath := n]>
                       (delete (filepath.parse tmpFile) (w_fs w))
  end.
Proof.
  intros tmpFile.
  unfold DownloadFileWithProgress, client.ReadStream, on_remote, on_fs. fold tmpFile.
  destruct (dav_Stat remotePath (w_remote w)) as [[info|e0] r1]; world_simpl;
    [|by left].
  destruct (dav_ReadStream remotePath r1) as [[reader|e0] r2]; world_simpl;
    [|by left].
  destruct (os.Create tmpFile (w_clock w) (w_fs w)) as [[file|e0] fs1] eqn:Hcreate;
    world_simpl.
  - apply Create_ok in Hcreate as [-> ->].
    set (k := filepath.parse tmpFile).
    set (w1 := set_fs (<[k := os.file_node [] (w_clock w)]> (w_fs w))
                 (set_remote r2 (set_remote r1 w))).
    set (w2 := match progressCb with
               | Some cb => io_CopyBuffer cb _ k (chunks reader) _ w1
               | None => io_Copy k (chunks reader) w1
               end).
    assert (∃ n, os.nIsDir n = false ∧ w_fs w2 = <[k := n]> (w_fs w))
      as (n & Hfile & Hw2).
    { assert (w_fs w1 !! k = Some (os.file_node [] (w_clock w))) as Hk
        by (subst w1; simpl; apply lookup_insert_eq).
      assert (∃ n, os.nIsDir n = false ∧ w_fs w2 = <[k := n]> (w_fs w1))
        as (n & Hn & Hw2).
      { subst w2. destruct progressCb.
        - by eapply io_CopyBuffer_only.
        - by eapply io_Copy_only. }
      exists n. split; [done|]. rewrite Hw2. subst w1. simpl. apply insert_insert_eq. }
    clearbody w2. clear w1.
    destruct (final reader) as [e|] eqn:Hfinal.
    + world_simpl. rewrite (Remove_file tmpFile (w_fs w2) n);
        [|by rewrite Hw2; apply lookup_insert_eq|done].
      world_simpl. fold k. rewrite Hw2, delete_insert_eq. by right.
    + destruct (os.Rename tmpFile localPath (w_fs w2)) as [[e|] fs3] eqn:Hrename;
        world_simpl.
      * assert (fs3 = w_fs w2) as ->.
        { unfold os.Rename in Hrename. by repeat case_match; simplify_eq. }
        rewrite (Remove_file tmpFile (w_fs w2) n);
          [|by rewrite Hw2; apply lookup_insert_eq|done].
        world_simpl. fold k. rewrite Hw2, delete_insert_eq. by right.
      * assert (fs3 = <[filepath.parse localPath := n]> (delete k (w_fs w))) as ->.
        { unfold os.Rename in Hrename. fold k in Hrename.
          rewrite Hw2, lookup_insert_eq, Hfile, delete_insert_eq in Hrename.
          by repeat case_match; simplify_eq. }
        unfold os.Chtimes. rewrite lookup_insert_eq. world_simpl.
        rewrite insert_insert_eq. by eexists.
  - apply Create_failed in Hcreate as ->. by left.
Qed.

(** X12: a download that returns an error leaves the local file system
    as it was, or as it was without the temporary file
    [localPath.download]; the destination and every other path are
    untouched. (The local file system does not fail on its own, so
    [os.Chtimes] succeeds on the file that was just renamed.) *)
Theorem failed_download_changes_only_temp {R : Type} `{!WebDAV R}
    (remotePath localPath : string) (remoteModTime : Time)
    (progressCb : option ProgressCallback) (w : World R) :
  let tmpFile := localPath +:+ ".download" in
  let '(err, w') :=
    DownloadFileWithProgress remotePath localPath remoteModTime progressCb w in
  is_Some err →
  (w_fs w' = w_fs w ∨ w_fs w' = delete (filepath.parse tmpFile) (w_fs w)) ∧
  w_fs w' !! filepath.parse localPath = w_fs w !! filepath.parse localPath ∧
  ∀ k, k ≠ filepath.parse tmpFile → w_fs w' !! k = w_fs w !! k.
Proof.
  intros tmpFile.
  pose proof (download_fs_cases remotePath localPath remoteModTime progressCb w) as Hmain.
  cbv zeta in Hmain. fold tmpFile in Hmain.
  destruct (DownloadFileWithProgress _ _ _ _ _) as [err w'].
  intros [e ->]. split; [done|].
  pose proof (parse_download_ne localPath) as Hne. fold tmpFile in Hne.
  split.
  - destruct Hmain as [-> | ->]; [done|]. by rewrite lookup_delete_ne.
  - intros k Hk. destruct Hmain as [-> | ->]; [done|]. by rewrite lookup_delete_ne.
Qed.

(** ** A push leaves the local tree alone *)

Section LocalUntouched.
Context {R : Type} `{!WebDAV R} `{!SortSlice}.
Implicit Types w : World R.

Lemma fs_ListFiles remotePath w : w_fs (ListFiles remotePath w).2 = w_fs w.
Proof.
  unfold ListFiles, listRemoteFiles.
  set (p := if String.eqb _ "/" then "" else _).
  pose proof (fs_on_remote (dav_ReadDir p) w) as H1.
  by destruct (on_remote (dav_ReadDir p) w) as [[files|e] w1].
Qed.

Lemma fs_FileExists remotePath w : w_fs (FileExists remotePath w).2 = w_fs w.
Proof.
  unfold FileExists.
  pose proof (fs_on_remote (dav_Stat remotePath) w) as H1.
  destruct (on_remote (dav_Stat remotePath) w) as [[info|e] w1]; [done|].
  by destruct (_ || _).
Qed.

Lemma fs_MakeDir_loop parts current w :
  w_fs (MakeDir_loop parts current w).2 = w_fs w.
Proof.
  revert current w. induction parts as [|part parts IH]; intros current w; simpl; [done|].
  set (cur := (if negb (String.eqb current "") then current +:+ "/" else current) +:+ part).
  pose proof (fs_on_remote (dav_Mkdir cur) w) as H1.
  destruct (on_remote (dav_Mkdir cur) w) as [[e|] w1]; cbn [snd] in *;
    [|by rewrite IH].
  pose proof (fs_on_remote (dav_Stat cur) w1) as H2.
  destruct (on_remote (dav_Stat cur) w1) as [[info|e'] w2]; cbn [snd] in *;
    [|by rewrite H2].
  destruct (fi_IsDir info); cbn [snd]; [by rewrite IH, H2|by rewrite H2].
Qed.

Lemma fs_MakeDir remotePath w : w_fs (MakeDir remotePath w).2 = w_fs w.
Proof. unfold MakeDir. destruct (String.eqb _ _); [done|apply fs_MakeDir_loop]. Qed.

Lemma fs_read_chunks reads w :
  w_fs (fold_left (λ w c, read_chunk c w) reads w) = w_fs w.
Proof. revert w. induction reads as [|c reads IH]; intros w; simpl; [done|]. by rewrite IH. Qed.

Lemma fs_upload_progress cb total reads p w :
  w_fs (upload_progress cb total reads p w) = w_fs w.
Proof.
  revert p w. induction reads as [|c reads IH]; intros p w; simpl; [done|].
  pose proof (fs_read_with_progress cb total c p w) as H1.
  destruct (read_with_progress cb total c p w) as [p1 w1]. cbn [snd] in H1.
  by rewrite IH.
Qed.

Lemma fs_UploadFileWithProgress localPath remotePath t cb w :
  w_fs (UploadFileWithProgress localPath remotePath t cb w).2 = w_fs w.
Proof.
  unfold UploadFileWithProgress.
  destruct (os.Stat localPath (w_fs w)) as [fileInfo|e]; [|done].
  destruct (os.ReadFile localPath (w_fs w)) as [file|e]; [|done].
  set (mk := if negb (String.eqb (filepath.Dir remotePath) ".")
                && negb (String.eqb (filepath.Dir remotePath) "/")
             then MakeDir (filepath.Dir remotePath) w else (None, w)).
  assert (w_fs mk.2 = w_fs w) as H1.
  { subst mk. destruct (_ && _); [apply fs_MakeDir|done]. }
  destruct mk as [[e|] w1]; cbn [snd] in *; [done|].
  pose proof (fs_on_remote (dav_WriteStream remotePath file) w1) as H2.
  destruct (on_remote (dav_WriteStream remotePath file) w1) as [[reads err] w2].
  cbn [snd] in *.
  assert (w_fs (match cb with
                | Some cb0 =>
                    upload_progress cb0 (fi_Size fileInfo) reads
                      {| moved := 0; lastUpdateTime := w_clock w1; lastMoved := 0 |} w2
                | None => fold_left (λ w c, read_chunk c w) reads w2
                end) = w_fs w) as H3.
  { destruct cb; [by rewrite fs_upload_progress, H2|by rewrite fs_read_chunks, H2]. }
  by destruct err.
Qed.

Lemma fs_Retry_loop n attempts i d err (op : World R → option error * World R) w :
  (∀ w, w_fs (op w).2 = w_fs w) → w_fs (util.Retry_loop n attempts i d err op w).2 = w_fs w.
Proof.
  intros Hop. revert i d err w.
  induction n as [|n IH]; intros i d err w; simpl; [done|].
  pose proof (Hop w) as Hw. destruct (op w) as [[e|] w1]; cbn [snd] in *; [|done].
  destruct (i <? attempts - 1); by rewrite IH.
Qed.

Lemma fs_syncLocalFileToWebDAV cfg showProgress relPath remotePath w :
  w_fs (syncLocalFileToWebDAV cfg showProgress relPath remotePath w).2 = w_fs w.
Proof.
  unfold syncLocalFileToWebDAV.
  destruct (os.Stat _ (w_fs w)) as [localInfo|e]; [|done].
  pose proof (fs_FileExists remotePath w) as H1.
  destruct (FileExists remotePath w) as [[exists_ [e|]] w1]; cbn [snd] in H1; [done|].
  match goal with
  | |- context [let '(r, w0) := ?decision in _] =>
      assert (w_fs decision.2 = w_fs w) as H2; [|destruct decision as [r w2]]
  end.
  { destruct exists_; [|done].
    pose proof (fs_ListFiles (filepath.Dir remotePath) w1) as H2.
    destruct (ListFiles (filepath.Dir remotePath) w1) as [[remoteFiles|e] w2];
      cbn [snd] in *; [|by rewrite H2].
    destruct (List.find _ remoteFiles); [|cbn [snd]; by rewrite H2].
    destruct (_ && _); cbn [snd w_fs log_Printf World_Runtime emit]; by rewrite ?H2. }
  cbn [snd] in H2. destruct r as [needsUpload|e]; [|done].
  destruct needsUpload; [|done].
  match goal with
  | |- context [util.Retry ?a ?d ?op ?w0] =>
      pose proof (fs_Retry_loop (Z.to_nat a) a 0 d None op w0
                    (fs_UploadFileWithProgress _ _ _ _)) as H3;
      fold (util.Retry a d op w0) in H3;
      destruct (util.Retry a d op w0) as [[e|] w3]
  end; cbn [snd w_fs log_Printf World_Runtime emit] in *; by rewrite H3, H2.
Qed.

Lemma fs_run_tasks {A : Type} (task : A → World R → option (option error * World R))
    (entries : list A) w errs w' :
  (∀ x w r w', task x w = Some (r, w') → w_fs w' = w_fs w) →
  run_tasks task entries w = Some (errs, w') → w_fs w' = w_fs w.
Proof.
  intros Htask. revert w errs w'.
  induction entries as [|x entries IH]; intros w errs w'; simpl; [by intros [= <- <-]|].
  destruct (task x w) as [[err w1]|] eqn:Hx; [|done].
  destruct (run_tasks task entries w1) as [[errs1 w2]|] eqn:Hrest; [|done].
  intros [= <- <-]. apply IH in Hrest. apply Htask in Hx. congruence.
Qed.

Lemma fs_syncLocalToWebDAV cfg showProgress fuel relativePath w err w' :
  syncLocalToWebDAV cfg showProgress fuel relativePath w = Some (err, w') →
  w_fs w' = w_fs w.
Proof.
  revert relativePath w err w'.
  induction fuel as [|fuel IH]; intros relativePath w err w'; simpl; [done|].
  destruct (os.ReadDir _ (w_fs w)) as [entries|e]; [|by intros [= <- <-]].
  match goal with
  | |- context [run_tasks ?task ?l w] =>
      destruct (run_tasks task l w) as [[errs w1]|] eqn:Hrun; [|done];
      apply fs_run_tasks in Hrun; [by intros [= <- <-]|]
  end.
  clear Hrun. intros entry w0 r wt. cbv beta zeta.
  destruct (fi_IsDir entry).
  - match goal with |- context [FileExists ?p w0] =>
      pose proof (fs_FileExists p w0) as H1;
      destruct (FileExists p w0) as [[exists_ [e|]] w2]; cbn [snd] in H1
    end; [by intros [= <- <-]|].
    match goal with
    | |- context [if negb exists_ then ?a else ?b] =>
        assert (w_fs (if negb exists_ then a else b).2 = w_fs w0) as H2;
        [|destruct (if negb exists_ then a else b) as [[e|] w3]]
    end.
    { destruct exists_; cbn [negb snd]; [done|]. by rewrite fs_MakeDir. }
    + cbn [snd] in H2. by intros [= <- <-].
    + cbn [snd] in H2. intros Hrec%IH. congruence.
  - intros [= Hfile].
    match type of Hfile with
    | syncLocalFileToWebDAV _ _ ?a ?b _ = _ =>
        rewrite <- (fs_syncLocalFileToWebDAV cfg showProgress a b w0)
    end.
    by rewrite Hfile.
Qed.

Lemma fs_removeRemoteFiles (files : list string) w :
  w_fs (removeRemoteFiles files w) = w_fs w.
Proof.
  revert w. induction files as [|f files IH]; intros w; simpl; [done|].
  unfold RemoveRemote.
  pose proof (fs_on_remote (dav_Remove f) (log_Printf (LogDeleteRemote f) w)) as H1.
  destruct (on_remote (dav_Remove f) _) as [[e|] w1]; cbn [snd] in *;
    rewrite IH; cbn; by rewrite ?H1.
Qed.

(** X13: a push, with or without mirror deletion and whatever the server
    answers, leaves the local file system exactly as it was. *)
Theorem backup_leaves_local_tree (cfg : Config) (showProgress : bool) (fuel : nat)
    w (err : option error) w' :
  BackupToWebDAV cfg showProgress fuel w = Some (err, w') →
  w_fs w' = w_fs w.
Proof.
  unfold BackupToWebDAV.
  destruct (buildLocalFileList cfg w) as [localFiles [e|]]; [by intros [= <- <-]|].
  destruct (syncLocalToWebDAV cfg showProgress fuel "/" w) as [[err1 w1]|] eqn:Hpass;
    [|done].
  apply fs_syncLocalToWebDAV in Hpass.
  destruct (SyncDelete cfg && bool_decide (err1 = None)).
  - destruct (buildRemoteFileList fuel "/" _) as [[[remoteFiles|e] w2]|] eqn:Hlist;
      [| |done].
    + apply buildRemoteFileList_quiet in Hlist as [_ Hfs].
      destruct err1; intros [= <- <-]; cbn; by rewrite fs_removeRemoteFiles, Hfs.
    + apply buildRemoteFileList_quiet in Hlist as [_ Hfs].
      intros [= <- <-]. by rewrite Hfs.
  - destruct err1; by intros [= <- <-].
Qed.
End LocalUntouched.

(** ** What a pull asks of the server *)

Lemma Retry_loop_ext {W : Type} `{!Runtime W} (op1 op2 : W → option error * W)
    n attempts i d err w :
  (∀ w, op1 w = op2 w) →
  util.Retry_loop n attempts i d err op1 w = util.Retry_loop n attempts i d err op2 w.
Proof.
  intros Hop. revert i d err w.
  induction n as [|n IH]; intros i d err w; [done|].
  cbn [util.Retry_loop]. rewrite Hop. destruct (op2 w) as [[e|] w1]; [|done].
  destruct (i <? attempts - 1); apply IH.
Qed.

Lemma run_tasks_ext {W A : Type} (task1 task2 : A → W → option (option error * W))
    (entries : list A) (w : W) :
  (∀ x w, task1 x w = task2 x w) →
  run_tasks task1 entries w = run_tasks task2 entries w.
Proof.
  intros Htask. revert w. induction entries as [|x entries IH]; intros w; [done|].
  cbn [run_tasks]. rewrite Htask. destruct (task2 x w) as [[err w1]|]; [|done].
  by rewrite IH.
Qed.

Section ReadOnly.
Context {R : Type} (D1 D2 : WebDAV R) `{!SortSlice}.
Hypothesis same_ReadDir : ∀ p r, @dav_ReadDir R D1 p r = @dav_ReadDir R D2 p r.
Hypothesis same_Stat : ∀ p r, @dav_Stat R D1 p r = @dav_Stat R D2 p r.
Hypothesis same_ReadStream :
  ∀ p r, @dav_ReadStream R D1 p r = @dav_ReadStream R D2 p r.
Implicit Types w : World R.

Lemma ListFiles_same remotePath w :
  @ListFiles R D1 remotePath w = @ListFiles R D2 remotePath w.
Proof using Type*. unfold ListFiles, listRemoteFiles, on_remote. by rewrite same_ReadDir. Qed.

Lemma DownloadFileWithProgress_same remotePath localPath t cb w :
  @DownloadFileWithProgress R D1 remotePath localPath t cb w
  = @DownloadFileWithProgress R D2 remotePath localPath t cb w.
Proof using Type*.
  unfold DownloadFileWithProgress, client.ReadStream, on_remote.
  rewrite same_Stat. destruct (dav_Stat remotePath (w_remote w)) as [[info|e] r1];
    [|done].
  world_simpl. by rewrite same_ReadStream.
Qed.

Lemma SyncFile_same cfg showProgress file w :
  @SyncFile R D1 cfg showProgress file w = @SyncFile R D2 cfg showProgress file w.
Proof using Type*.
  unfold SyncFile.
  destruct (match os.Stat _ (w_fs w) with inl _ => _ | inr _ => _ end)
    as [needsDownload w1].
  destruct needsDownload; [|done].
  destruct (on_fs _ _) as [[e|] w2]; [done|].
  unfold util.Retry.
  by rewrite (Retry_loop_ext _ _ _ _ _ _ _ _ (DownloadFileWithProgress_same _ _ _ _)).
Qed.

Lemma SyncDirectory_same cfg showProgress fuel remotePath w :
  @SyncDirectory R D1 _ cfg showProgress fuel remotePath w
  = @SyncDirectory R D2 _ cfg showProgress fuel remotePath w.
Proof using Type*.
  revert remotePath w. induction fuel as [|fuel IH]; intros remotePath w; [done|].
  cbn [SyncDirectory]. rewrite ListFiles_same.
  destruct (ListFiles remotePath w) as [[remoteFiles|e] w1]; [|done].
  cbv zeta.
  match goal with
  | |- match run_tasks ?t1 ?l w1 with _ => _ end = _ =>
      rewrite (run_tasks_ext t1
                 (λ file w,
                    if IsDir file then
                      let '(err, w) :=
                        on_fs (os.MkdirAll (filepath.Join (LocalDir cfg) (Path file))
                                 (w_clock w)) w in
                      match err with
                      | Some e =>
                          Some (Some (WrappedAt "create local directory failed"
                                        (filepath.Join (LocalDir cfg) (Path file))
                                        (External e)), w)
                      | None => @SyncDirectory R D2 _ cfg showProgress fuel (Path file) w
                      end
                    else Some (@SyncFile R D2 cfg showProgress file w)) l w1)
  end; [done|].
  intros file w0. destruct (IsDir file); [|by rewrite SyncFile_same].
  destruct (on_fs _ _) as [[e|] w2]; [done|apply IH].
Qed.

Lemma buildRemoteFileList_same fuel remotePath w :
  @buildRemoteFileList R D1 fuel remotePath w
  = @buildRemoteFileList R D2 fuel remotePath w.
Proof using Type*.
  revert remotePath w. induction fuel as [|fuel IH]; intros remotePath w; [done|].
  cbn [buildRemoteFileList]. rewrite ListFiles_same.
  destruct (ListFiles remotePath w) as [[entries|e] w1]; [|done].
  generalize (if negb (String.eqb remotePath "/") && negb (String.eqb remotePath "")
              then [remotePath] else []).
  revert w1. induction entries as [|entry entries IHentries]; intros w1 files; [done|].
  destruct (IsDir entry); [|apply IHentries].
  rewrite IH.
  destruct (buildRemoteFileList fuel (Path entry) w1) as [[[sub|e] w2]|]; [|done|done].
  apply IHentries.
Qed.

(** X14: a pull never asks the server to write, to create a collection
    or to remove: against two servers that answer [ReadDir], [Stat] and
    [ReadStream] alike, it returns the same result and leaves the same
    state, whatever they do on [WriteStream], [Mkdir] and [Remove]. *)
Theorem restore_only_reads_the_server (cfg : Config) (showProgress : bool)
    (fuel : nat) w :
  @RestoreFromWebDAV R D1 _ cfg showProgress fuel w
  = @RestoreFromWebDAV R D2 _ cfg showProgress fuel w.
Proof using Type*.
  unfold RestoreFromWebDAV. rewrite buildRemoteFileList_same.
  destruct (buildRemoteFileList fuel "/" w) as [[[remoteFiles|e] w1]|]; [|done|done].
  by rewrite SyncDirectory_same.
Qed.
End ReadOnly.

(** ** What a push asks of the server *)

Section NoRemoval.
Context {R : Type} (D1 D2 : WebDAV R) `{!SortSlice}.
Hypothesis same_ReadDir : ∀ p r, @dav_ReadDir R D1 p r = @dav_ReadDir R D2 p r.
Hypothesis same_Stat : ∀ p r, @dav_Stat R D1 p r = @dav_Stat R D2 p r.
Hypothesis same_Mkdir : ∀ p r, @dav_Mkdir R D1 p r = @dav_Mkdir R D2 p r.
Hypothesis same_WriteStream :
  ∀ p data r, @dav_WriteStream R D1 p data r = @dav_WriteStream R D2 p data r.
Implicit Types w : World R.

Lemma ListFiles_same_push remotePath w :
  @ListFiles R D1 remotePath w = @ListFiles R D2 remotePath w.
Proof using Type*. unfold ListFiles, listRemoteFiles, on_remote. by rewrite same_ReadDir. Qed.

Lemma FileExists_same remotePath w :
  @FileExists R D1 remotePath w = @FileExists R D2 remotePath w.
Proof using Type*. unfold FileExists, on_remote. by rewrite same_Stat. Qed.

Lemma MakeDir_loop_same parts current w :
  @MakeDir_loop R D1 parts current w = @MakeDir_loop R D2 parts current w.
Proof using Type*.
  revert current w. induction parts as [|part parts IH]; intros current w; [done|].
  cbn [MakeDir_loop]. unfold on_remote. rewrite same_Mkdir.
  destruct (dav_Mkdir _ (w_remote w)) as [[e|] r1]; [|apply IH].
  world_simpl. rewrite same_Stat.
  destruct (dav_Stat _ r1) as [[info|e'] r2]; [|done].
  destruct (fi_IsDir info); [apply IH|done].
Qed.

Lemma MakeDir_same remotePath w :
  @MakeDir R D1 remotePath w = @MakeDir R D2 remotePath w.
Proof using Type*. unfold MakeDir. by rewrite MakeDir_loop_same. Qed.

Lemma UploadFileWithProgress_same localPath remotePath t cb w :
  @UploadFileWithProgress R D1 localPath remotePath t cb w
  = @UploadFileWithProgress R D2 localPath remotePath t cb w.
Proof using Type*.
  unfold UploadFileWithProgress.
  destruct (os.Stat localPath (w_fs w)) as [fileInfo|e]; [|done].
  destruct (os.ReadFile localPath (w_fs w)) as [file|e]; [|done].
  rewrite MakeDir_same.
  destruct (if _ && _ then _ else _) as [[e|] w1]; [done|].
  unfold on_remote. by rewrite same_WriteStream.
Qed.

Lemma syncLocalFileToWebDAV_same cfg showProgress relPath remotePath w :
  @syncLocalFileToWebDAV R D1 cfg showProgress relPath remotePath w
  = @syncLocalFileToWebDAV R D2 cfg showProgress relPath remotePath w.
Proof using Type*.
  unfold syncLocalFileToWebDAV.
  destruct (os.Stat _ (w_fs w)) as [localInfo|e]; [|done].
  rewrite FileExists_same.
  destruct (FileExists remotePath w) as [[exists_ [e|]] w1]; [done|].
  assert (∀ w2,
            util.Retry (MaxRetries cfg) (RetryDelay cfg)
              (@UploadFileWithProgress R D1 (filepath.Join (LocalDir cfg) relPath)
                 remotePath (fi_ModTime localInfo) (progress_of showProgress remotePath)) w2
            = util.Retry (MaxRetries cfg) (RetryDelay cfg)
                (@UploadFileWithProgress R D2 (filepath.Join (LocalDir cfg) relPath)
                   remotePath (fi_ModTime localInfo) (progress_of showProgress remotePath))
                w2) as Hretry.
  { intros w2. unfold util.Retry.
    by rewrite (Retry_loop_ext _ _ _ _ _ _ _ _ (UploadFileWithProgress_same _ _ _ _)). }
  destruct exists_.
  - rewrite ListFiles_same_push.
    destruct (ListFiles (filepath.Dir remotePath) w1) as [[remoteFiles|e] w2]; [|done].
    destruct (List.find _ remoteFiles); [destruct (_ && _)|];
      cbv beta iota zeta; by rewrite ?Hretry.
  - cbv beta iota zeta. by rewrite Hretry.
Qed.

Lemma syncLocalToWebDAV_same cfg showProgress fuel relativePath w :
  @syncLocalToWebDAV R D1 _ cfg showProgress fuel relativePath w
  = @syncLocalToWebDAV R D2 _ cfg showProgress fuel relativePath w.
Proof using Type*.
  revert relativePath w. induction fuel as [|fuel IH]; intros relativePath w; [done|].
  cbn [syncLocalToWebDAV].
  destruct (os.ReadDir _ (w_fs w)) as [entries|e]; [|done].
  cbv zeta.
  match goal with
  | |- match run_tasks ?t1 ?l w with _ => _ end
       = match run_tasks ?t2 ?l w with _ => _ end =>
      rewrite (run_tasks_ext t1 t2 l w)
  end; [done|].
  intros entry w0. destruct (fi_IsDir entry); [|by rewrite syncLocalFileToWebDAV_same].
  rewrite FileExists_same.
  destruct (FileExists _ w0) as [[exists_ [e|]] w1]; [done|].
  rewrite MakeDir_same.
  destruct (if negb exists_ then _ else _) as [[e|] w2]; [done|apply IH].
Qed.

(** X15: a push without mirror deletion never asks the server to remove
    anything, nor to send file content: against two servers that answer
    [ReadDir], [Stat], [Mkdir] and [WriteStream] alike, it returns the
    same result and leaves the same state. *)
Theorem backup_without_delete_never_removes (cfg : Config) (showProgress : bool)
    (fuel : nat) w :
  SyncDelete cfg = false →
  @BackupToWebDAV R D1 _ cfg showProgress fuel w
  = @BackupToWebDAV R D2 _ cfg showProgress fuel w.
Proof using Type*.
  intros Hoff. unfold BackupToWebDAV. rewrite Hoff, syncLocalToWebDAV_same. done.
Qed.
End NoRemoval.

(** ** A run whose first enumeration fails *)

(** X16: when the enumeration of the remote tree fails, at the root or
    anywhere below it, a pull returns that error without transferring or
    logging anything and the local file system is as it was; when the
    local directory does not exist, a push returns the error of the local
    enumeration and the server is not contacted at all. *)
Theorem enumeration_failure_aborts `{!SortSlice} {R : Type} `{!WebDAV R}
    (cfg : Config) (showProgress : bool) (fuel : nat) (w : World R) :
  (∀ e w1,
     buildRemoteFileList fuel "/" w = Some (inr e, w1) →
     RestoreFromWebDAV cfg showProgress fuel w
     = Some (Some (Wrapped "list of WebDAV files failed" e), w1) ∧
     w_fs w1 = w_fs w ∧ w_trace w1 = w_trace w) ∧
  (∀ e,
     os.Stat (LocalDir cfg) (w_fs w) = inr e →
     buildLocalFileList cfg w = ([], Some (External e)) ∧
     BackupToWebDAV cfg showProgress fuel w
     = Some (Some (Wrapped "list of local files failed" (External e)), w)).
Proof.
  split.
  - intros e w1 Hlist. unfold RestoreFromWebDAV. rewrite Hlist.
    apply buildRemoteFileList_quiet in Hlist as [Htrace Hfs]. done.
  - intros e Hstat.
    assert (buildLocalFileList cfg w = ([], Some (External e))) as Hlocal.
    { unfold buildLocalFileList, filepath_Walk. by rewrite Hstat. }
    split; [done|]. unfold BackupToWebDAV. by rewrite Hlocal.
Qed.

(** ** A pull without mirror deletion removes nothing *)

(** A path at which some download keeps its temporary file. *)
Definition temporary (k : filepath.Key) : Prop :=
  ∃ localPath : string, k = filepath.parse (localPath +:+ ".download").

(** Every path of [fs] that is not such a path is still there in [fs']. *)
Definition kept (fs fs' : gmap filepath.Key os.Node) : Prop :=
  ∀ k, ¬ temporary k → is_Some (fs !! k) → is_Some (fs' !! k).

#[local] Instance kept_preorder : PreOrder kept.
Proof.
  split; [by intros fs k|].
  intros fs1 fs2 fs3 H12 H23 k Hk Hin. by apply H23, H12.
Qed.

Lemma kept_mkdirs (r : bool) (pre rest : list string) (now : Time)
    (fs : gmap filepath.Key os.Node) :
  kept fs (os.mkdirs r pre rest now fs).2.
Proof.
  revert pre fs. induction rest as [|x rest IH]; intros pre fs; cbn [os.mkdirs]; [done|].
  destruct (fs !! (r, pre ++ [x])) as [n|] eqn:Hk.
  - destruct (os.nIsDir n); [apply IH|done].
  - etransitivity; [|apply IH]. intros k _ Hin.
    destruct (decide (k = (r, pre ++ [x]))) as [->|Hne];
      [rewrite lookup_insert_eq; by eexists|by rewrite lookup_insert_ne].
Qed.

Lemma kept_MkdirAll (p : string) (now : Time) (fs : gmap filepath.Key os.Node) :
  kept fs (os.MkdirAll p now fs).2.
Proof.
  unfold os.MkdirAll. destruct (String.eqb p ""); [done|].
  destruct (filepath.parse p). apply kept_mkdirs.
Qed.

Section Kept.
Context {R : Type} `{!WebDAV R} `{!SortSlice}.
Implicit Types w : World R.

Lemma kept_DownloadFileWithProgress remotePath localPath t cb w :
  kept (w_fs w) (w_fs (DownloadFileWithProgress remotePath localPath t cb w).2).
Proof.
  pose proof (download_fs_cases remotePath localPath t cb w) as Hcases.
  cbv zeta in Hcases.
  destruct (DownloadFileWithProgress _ _ _ _ _) as [[e|] w']; cbn [snd].
  - destruct Hcases as [-> | ->]; [done|].
    intros k Hk Hin. rewrite lookup_delete_ne; [done|].
    intros <-. apply Hk. by exists localPath.
  - destruct Hcases as [n ->]. intros k Hk Hin.
    destruct (decide (k = filepath.parse localPath)) as [->|Hne];
      [rewrite lookup_insert_eq; by eexists|].
    rewrite lookup_insert_ne by done. rewrite lookup_delete_ne; [done|].
    intros <-. apply Hk. by exists localPath.
Qed.

Lemma kept_Retry_loop n attempts i d err (op : World R → option error * World R) w :
  (∀ w, kept (w_fs w) (w_fs (op w).2)) →
  kept (w_fs w) (w_fs (util.Retry_loop n attempts i d err op w).2).
Proof.
  intros Hop. revert i d err w.
  induction n as [|n IH]; intros i d err w; simpl; [done|].
  pose proof (Hop w) as Hw. destruct (op w) as [[e|] w1]; cbn [snd] in *; [|done].
  destruct (i <? attempts - 1); (etransitivity; [exact Hw|]); [|apply IH].
  exact (IH (i + 1) _ _ (time_Sleep d (log_Printf (LogRetry (i + 1) attempts e d) w1))).
Qed.

Lemma kept_SyncFile cfg showProgress file w :
  kept (w_fs w) (w_fs (SyncFile cfg showProgress file w).2).
Proof.
  unfold SyncFile.
  destruct (os.Stat _ (w_fs w)) as [stat|e0]; [destruct (_ && _)|];
    cbv beta iota zeta; [done| |];
    (unfold on_fs; cbn [w_fs log_Printf World_Runtime emit w_clock];
     pose proof (kept_MkdirAll
                   (filepath.Dir (filepath.Join (LocalDir cfg) (Path file)))
                   (w_clock w) (w_fs w)) as Hmk;
     destruct (os.MkdirAll _ _ _) as [[e|] fs1]; cbn [snd] in Hmk; [done|];
     etransitivity; [exact Hmk|];
     match goal with
     | |- context [util.Retry ?a ?d ?op ?w1] =>
         pose proof (kept_Retry_loop (Z.to_nat a) a 0 d None op w1
                       (kept_DownloadFileWithProgress _ _ _ _)) as Hretry;
         fold (util.Retry a d op w1) in Hretry;
         destruct (util.Retry a d op w1) as [[e|] w3]
     end; exact Hretry).
Qed.

Lemma kept_run_tasks {A : Type} (task : A → World R → option (option error * World R))
    (entries : list A) w errs w' :
  (∀ x w r w', task x w = Some (r, w') → kept (w_fs w) (w_fs w')) →
  run_tasks task entries w = Some (errs, w') → kept (w_fs w) (w_fs w').
Proof.
  intros Htask. revert w errs w'.
  induction entries as [|x entries IH]; intros w errs w'; simpl; [by intros [= <- <-]|].
  destruct (task x w) as [[err w1]|] eqn:Hx; [|done].
  destruct (run_tasks task entries w1) as [[errs1 w2]|] eqn:Hrest; [|done].
  intros [= <- <-]. apply IH in Hrest. apply Htask in Hx. by etransitivity.
Qed.

Lemma kept_SyncDirectory cfg showProgress fuel remotePath w err w' :
  SyncDirectory cfg showProgress fuel remotePath w = Some (err, w') →
  kept (w_fs w) (w_fs w').
Proof.
  revert remotePath w err w'.
  induction fuel as [|fuel IH]; intros remotePath w err w'; [done|].
  rewrite SyncDirectory_tasks.
  pose proof (fs_ListFiles remotePath w) as Hlist.
  destruct (ListFiles remotePath w) as [[remoteFiles|e] w1]; cbn [snd] in Hlist;
    [|intros [= <- <-]; by rewrite Hlist].
  rewrite <- Hlist.
  destruct (run_tasks _ _ w1) as [[errs w2]|] eqn:Hrun; [|done].
  intros [= <- <-]. eapply kept_run_tasks; [|exact Hrun].
  clear Hrun. intros file w0 r wt. unfold sync_task.
  destruct (IsDir file).
  - unfold on_fs.
    pose proof (kept_MkdirAll (filepath.Join (LocalDir cfg) (Path file))
                  (w_clock w0) (w_fs w0)) as Hmk.
    destruct (os.MkdirAll _ _ _) as [[e|] fs1]; cbn [snd] in Hmk.
    + by intros [= <- <-].
    + intros Hrec%IH. by etransitivity.
  - intros [= Hfile]. pose proof (kept_SyncFile cfg showProgress file w0) as Hk.
    by rewrite Hfile in Hk.
Qed.

Lemma temporary_name (k : filepath.Key) :
  temporary k → ∃ x : string, os.last_name k = x +:+ ".download".
Proof.
  intros [localPath ->]. unfold filepath.parse, os.last_name. cbn [snd].
  destruct (split_app_last localPath ".download" eq_refl) as (init & x & Hp & Hps).
  rewrite Hps, fold_left_app. cbn [fold_left].
  rewrite (step_long _ _ (x +:+ ".download"))
    by (rewrite string_length_app; simpl; lia).
  exists x. cbn [rev]. generalize (rev (fold_left
    (filepath.step (String.prefix "/" (localPath +:+ ".download"))) init [])).
  intros l. induction l as [|y l IH]; [done|]. destruct l; [done|exact IH].
Qed.

(** X17: a pull without mirror deletion removes no local path: every
    path that existed before the run exists after it, unless its name ends
    in ".download" (where a download keeps its temporary file). *)
Theorem restore_without_delete_keeps_local_paths (cfg : Config)
    (showProgress : bool) (fuel : nat) w (err : option error) w' :
  SyncDelete cfg = false →
  RestoreFromWebDAV cfg showProgress fuel w = Some (err, w') →
  ∀ k, is_Some (w_fs w !! k) →
       (∀ x : string, os.last_name k ≠ x +:+ ".download") →
       is_Some (w_fs w' !! k).
Proof.
  intros Hoff Hrun k Hin Hk.
  assert (¬ temporary k) as Htemp.
  { intros [x Hx]%temporary_name. by eapply Hk. }
  revert Hrun. unfold RestoreFromWebDAV.
  destruct (buildRemoteFileList fuel "/" w) as [[[remoteFiles|e] w1]|] eqn:Hlist;
    [| |done].
  - apply buildRemoteFileList_quiet in Hlist as [_ Hfs].
    destruct (SyncDirectory cfg showProgress fuel "/" w1) as [[err1 w2]|] eqn:Hpass;
      [|done].
    apply kept_SyncDirectory in Hpass. rewrite Hfs in Hpass.
    rewrite Hoff. cbn [andb].
    destruct err1; intros [= <- <-]; by apply Hpass.
  - apply buildRemoteFileList_quiet in Hlist as [_ Hfs].
    intros [= <- <-]. by rewrite Hfs.
Qed.
End Kept.

(** ** A pull of one file settles *)

Lemma Retry_loop_success {W : Type} `{!Runtime W} (op : W → option error * W)
    n attempts i d err w w' :
  util.Retry_loop n attempts i d err op w = (None, w') →
  ∃ w0, op w0 = (None, w').
Proof.
  revert i d err w. induction n as [|n IH]; intros i d err w; [done|].
  cbn [util.Retry_loop]. destruct (op w) as [[e|] w1] eqn:Hop.
  - destruct (i <? attempts - 1); apply IH.
  - intros [= <-]. by exists w.
Qed.

(** X18: when [SyncFile] returns nil, the local file exists with a
    modification time less than a second from the remote one, and
    [SyncFile] of the same entry in the state it left only logs that the
    file is skipped: nothing is downloaded twice. *)
Theorem SyncFile_settles {R : Type} `{!WebDAV R} (cfg : Config) (showProgress : bool)
    (file : FileInfo) (w w1 : World R) :
  SyncFile cfg showProgress file w = (None, w1) →
  SyncFile cfg showProgress file w1 = (None, log_Printf (LogSkip (Path file)) w1) ∧
  ∃ stat, os.Stat (filepath.Join (LocalDir cfg) (Path file)) (w_fs w1) = inl stat ∧
          Z.abs (fi_ModTime stat - LastModified file) < time.Second.
Proof.
  intros Hrun.
  enough (∃ stat, os.Stat (filepath.Join (LocalDir cfg) (Path file)) (w_fs w1) = inl stat
                  ∧ Z.abs (fi_ModTime stat - LastModified file) < time.Second)
    as (stat & Hstat & Hnear).
  { split; [by eapply SyncFile_skip|by exists stat]. }
  set (localPath := filepath.Join (LocalDir cfg) (Path file)) in *.
  assert (∀ w0 w3 : World R,
            DownloadFileWithProgress (Path file) localPath (LastModified file)
              (progress_of showProgress (Path file)) w0 = (None, w3) →
            w_fs w1 = w_fs w3 →
            ∃ stat, os.Stat localPath (w_fs w1) = inl stat
                    ∧ Z.abs (fi_ModTime stat - LastModified file) < time.Second)
    as Hdownloaded.
  { intros w0 w3 Hdl Hfs.
    assert (∃ n, w_fs w3 !! filepath.parse localPath = Some n
                 ∧ os.nModTime n = LastModified file) as (n & Hn & Htime).
    { revert Hdl. unfold DownloadFileWithProgress, client.ReadStream, on_remote, on_fs.
      destruct (dav_Stat _ _) as [[info|e] r1]; world_simpl; [|done].
      destruct (dav_ReadStream _ _) as [[reader|e] r2]; world_simpl; [|done].
      destruct (os.Create _ _ _) as [[k|e] fs1]; world_simpl; [|done].
      destruct (final reader); [done|].
      destruct (os.Rename _ _ _) as [[e|] fs2]; world_simpl; [done|].
      destruct (os.Chtimes _ _ _) as [[e|] fs3] eqn:Hch; world_simpl; [done|].
      intros [= <-]. world_simpl. by eapply Chtimes_ok. }
    exists (os.info (filepath.Base localPath) n). unfold os.Stat.
    rewrite Hfs, Hn. split; [done|]. cbn [fi_ModTime os.info]. rewrite Htime.
    replace (LastModified file - LastModified file) with 0 by lia. done. }
  revert Hrun. unfold SyncFile. fold localPath.
  destruct (os.Stat localPath (w_fs w)) as [stat|e0] eqn:Hstat;
    [destruct (_ && _) eqn:Hnear|]; cbv beta iota zeta.
  - intros [= <-]. exists stat. split; [done|]. by apply tolerance_window.
  - unfold on_fs. destruct (os.MkdirAll _ _ _) as [[e|] fs1]; [done|].
    destruct (util.Retry _ _ _ _) as [[e|] w3] eqn:Hretry; [done|].
    intros [= <-]. apply Retry_loop_success in Hretry as [w0 Hdl].
    by eapply Hdownloaded.
  - unfold on_fs. destruct (os.MkdirAll _ _ _) as [[e|] fs1]; [done|].
    destruct (util.Retry _ _ _ _) as [[e|] w3] eqn:Hretry; [done|].
    intros [= <-]. apply Retry_loop_success in Hretry as [w0 Hdl].
    by eapply Hdownloaded.
Qed.

(** ** The order of a level *)

Lemma String_ltb_strict_weak {A : Type} (key : A → string) :
  strict_weak (λ a b, String.ltb (key a) (key b)).
Proof.
  assert (∀ s t, String.ltb s t = true ↔ OrderedTypeEx.String_as_OT.lt s t) as Hlt.
  { intros s t. unfold String.ltb.
    rewrite <- OrderedTypeEx.String_as_OT.cmp_lt.
    change OrderedTypeEx.String_as_OT.cmp with String.compare.
    by destruct (String.compare s t). }
  split.
  - intros x y Hxy. unfold String.ltb in *. rewrite String.compare_antisym.
    by destruct (String.compare (key x) (key y)).
  - intros x y z Hyx Hzy. apply not_true_is_false. intros Hzx.
    destruct (String.compare (key z) (key y)) eqn:Hcmp.
    + apply String.compare_eq_iff in Hcmp. rewrite Hcmp in Hzx. congruence.
    + unfold String.ltb in Hzy. by rewrite Hcmp in Hzy.
    + assert (String.ltb (key y) (key z) = true) as Hyz.
      { unfold String.ltb. rewrite String.compare_antisym, Hcmp. done. }
      apply Hlt in Hyz, Hzx.
      pose proof (OrderedTypeEx.String_as_OT.lt_trans _ _ _ Hyz Hzx) as Hyx'.
      apply Hlt in Hyx'. congruence.
Qed.

(** X19: [SyncDirectory] starts one task for every entry of the listing,
    each entry once; the tasks of the collections are started before those
    of the files, and within each group no path is less than an earlier
    one. For every [sort.Slice] that meets its contract. *)
Theorem SyncDirectory_directories_first `{!SortSlice} {R : Type} `{!WebDAV R}
    (cfg : Config) (showProgress : bool) (fuel : nat) (remotePath : string)
    (w w1 : World R) (remoteFiles : list FileInfo) :
  ListFiles remotePath w = (inl remoteFiles, w1) →
  ∃ order : list FileInfo,
    SyncDirectory cfg showProgress (S fuel) remotePath w
    = match run_tasks (sync_task cfg showProgress fuel) order w1 with
      | None => None
      | Some (syncErrors, w') => Some (collect syncErrors, w')
      end ∧
    order ≡ₚ remoteFiles ∧
    (∀ i j a b, order !! i = Some a → order !! j = Some b →
       IsDir a = true → IsDir b = false → (i < j)%nat) ∧
    (∀ i j a b, (i < j)%nat → order !! i = Some a → order !! j = Some b →
       IsDir a = IsDir b → String.ltb (Path b) (Path a) = false).
Proof.
  intros Hlist. exists (dispatch_order remoteFiles).
  rewrite SyncDirectory_tasks, Hlist. split; [done|].
  unfold dispatch_order.
  set (less := λ a b : FileInfo, String.ltb (Path a) (Path b)).
  set (dirs := sort_Slice less (List.filter IsDir remoteFiles)).
  set (regs := sort_Slice less (List.filter (λ file, negb (IsDir file)) remoteFiles)).
  assert (∀ a, a ∈ dirs → IsDir a = true) as Hdirs.
  { intros a Ha. subst dirs. rewrite sort_Slice_perm in Ha.
    apply list_elem_of_In, filter_In in Ha. tauto. }
  assert (∀ a, a ∈ regs → IsDir a = false) as Hregs.
  { intros a Ha. subst regs. rewrite sort_Slice_perm in Ha.
    apply list_elem_of_In, filter_In in Ha as [_ Ha]. by apply negb_true_iff. }
  assert (ordered_by less dirs) as Hod
    by apply sort_Slice_ordered, (String_ltb_strict_weak Path).
  assert (ordered_by less regs) as Hor
    by apply sort_Slice_ordered, (String_ltb_strict_weak Path).
  split_and!.
  - subst dirs regs. rewrite !sort_Slice_perm. clear.
    induction remoteFiles as [|x l IH]; [done|]. cbn [List.filter].
    destruct (IsDir x); cbn [negb app].
    + by constructor.
    + rewrite <- Permutation_middle. by constructor.
  - intros i j a b Hi Hj Ha Hb.
    destruct (decide (i < length dirs)%nat) as [Hilt|Hige].
    + destruct (decide (j < length dirs)%nat) as [Hjlt|Hjge]; [|lia].
      rewrite lookup_app_l in Hj by done.
      apply list_elem_of_lookup_2, Hdirs in Hj. congruence.
    + rewrite lookup_app_r in Hi by lia.
      apply list_elem_of_lookup_2, Hregs in Hi. congruence.
  - intros i j a b Hij Hi Hj Hsame.
    destruct (decide (j < length dirs)%nat) as [Hjlt|Hjge].
    + rewrite lookup_app_l in Hi, Hj by lia. by eapply (Hod i j).
    + destruct (decide (i < length dirs)%nat) as [Hilt|Hige].
      * rewrite lookup_app_l in Hi by lia. rewrite lookup_app_r in Hj by lia.
        apply list_elem_of_lookup_2, Hdirs in Hi.
        apply list_elem_of_lookup_2, Hregs in Hj. congruence.
      * rewrite lookup_app_r in Hi, Hj by lia.
        eapply (Hor (i - length dirs)%nat (j - length dirs)%nat); [lia|done..].
Qed.

(** ** The program *)


(** ** Progress reports *)

(** The bytes a stream delivers. *)
Definition received (reads : list Chunk) : Z :=
  foldr (λ c n, Z.of_nat (length (bytes c)) + n) 0 reads.

Lemma received_nonneg (reads : list Chunk) : 0 ≤ received reads.
Proof. induction reads as [|c reads IH]; simpl; lia. Qed.

Lemma io_CopyBuffer_reports {R : Type} (cb : ProgressCallback) (total : Z)
    (k : filepath.Key) (reads : list Chunk) (p : Progress) (w : World R) :
  ∃ ms : list Z,
    w_trace (io_CopyBuffer cb total k reads p w)
    = w_trace w ++ ((λ m, cb m total) <$> ms) ∧
    StronglySorted Z.lt ms ∧
    Forall (λ m, moved p < m ≤ moved p + received reads) ms ∧
    (moved p = 0 → 0 < received reads → ms ≠ []) ∧
    (0 < received reads → total ≤ moved p + received reads →
     last ms = Some (moved p + received reads)).
Proof.
  revert p w. induction reads as [|c reads IH]; intros p w.
  - exists []. cbn. rewrite app_nil_r. split_and!; try done; try constructor; lia.
  - cbn [io_CopyBuffer received foldr]. fold (received reads).
    pose proof (received_nonneg reads) as Hnn.
    unfold read_with_progress.
    set (n := Z.of_nat (length (bytes c))).
    destruct (Z.ltb_spec 0 n) as [Hpos|Hzero].
    + unfold updateProgress. cbn [w_clock read_chunk].
      set (moved' := moved p + n).
      destruct (_ || _ || _) eqn:Hreport.
      * destruct (IH {| moved := moved'; lastUpdateTime := w_clock w + Z.max (took c) 0;
                        lastMoved := moved' |}
                    (write_chunk k c (emit (cb moved' total) (read_chunk c w))))
          as (ms & Htrace & Hsorted & Hbound & _ & Hlast).
        cbn [moved] in *.
        exists (moved' :: ms). split_and!.
        -- rewrite Htrace. cbn. by rewrite <- app_assoc.
        -- constructor; [done|]. eapply Forall_impl; [exact Hbound|]. cbn. lia.
        -- constructor; [subst moved'; lia|].
           eapply Forall_impl; [exact Hbound|]. cbn. subst moved'. lia.
        -- done.
        -- intros _ Htotal. destruct (decide (received reads = 0)) as [Hnone|Hsome].
           ++ assert (ms = []) as ->.
              { destruct ms as [|m ms]; [done|].
                apply Forall_cons in Hbound as [Hm _]. lia. }
              cbn. f_equal. subst moved'. lia.
           ++ rewrite last_cons. rewrite Hlast by (subst moved'; lia).
              f_equal. subst moved'. lia.
      * apply orb_false_iff in Hreport as [Hreport Hfull].
        apply orb_false_iff in Hreport as [_ Hfirst].
        apply Z.leb_gt in Hfull. apply Z.eqb_neq in Hfirst.
        destruct (IH {| moved := moved'; lastUpdateTime := lastUpdateTime p;
                        lastMoved := lastMoved p |}
                    (write_chunk k c (read_chunk c w)))
          as (ms & Htrace & Hsorted & Hbound & _ & Hlast).
        cbn [moved] in *.
        exists ms. split_and!.
        -- by rewrite Htrace.
        -- done.
        -- eapply Forall_impl; [exact Hbound|]. cbn. subst moved'. lia.
        -- intros Hstart. subst moved'. lia.
        -- intros _ Htotal. rewrite Hlast by (subst moved'; lia).
           f_equal. subst moved'. lia.
    + assert (n = 0) as Hn by (subst n; lia).
      destruct (IH p (write_chunk k c (read_chunk c w)))
        as (ms & Htrace & Hsorted & Hbound & Hfirst & Hlast).
      exists ms. rewrite Hn, !Z.add_0_l. split_and!.
      * by rewrite Htrace.
      * done.
      * done.
      * done.
      * done.
Qed.

(** X21: the progress callback of a transfer is called with the number
    of bytes received so far: the counts are strictly increasing, positive
    and never more than what the stream delivers; a stream that delivers
    bytes is reported at least once, and when it delivers at least the
    announced size the last report carries the final count. *)
Theorem progress_reports_reach_the_end {R : Type} (cb : ProgressCallback)
    (total : Z) (k : filepath.Key) (reads : list Chunk) (startTime : Time)
    (w : World R) :
  ∃ ms : list Z,
    w_trace (io_CopyBuffer cb total k reads
               {| moved := 0; lastUpdateTime := startTime; lastMoved := 0 |} w)
    = w_trace w ++ ((λ m, cb m total) <$> ms) ∧
    StronglySorted Z.lt ms ∧
    Forall (λ m, 0 < m ≤ received reads) ms ∧
    (0 < received reads → ms ≠ []) ∧
    (0 < received reads → total ≤ received reads → last ms = Some (received reads)).
Proof.
  destruct (io_CopyBuffer_reports cb total k reads
              {| moved := 0; lastUpdateTime := startTime; lastMoved := 0 |} w)
    as (ms & Htrace & Hsorted & Hbound & Hfirst & Hlast).
  cbn [moved] in *. rewrite !Z.add_0_l in *. exists ms. split_and!; try done.
  intros Hrec. by apply Hfirst.
Qed.

(** ** What the local deletion pass leaves *)

Lemma removeLocalFiles_lookup {R : Type} (cfg : Config)
    (filesToDelete : list string) (w : World R) (k : filepath.Key) :
  w_fs (removeLocalFiles cfg filesToDelete w) !! k
  = (if existsb (λ filePath,
                   os.at_or_below
                     (filepath.parse (filepath.Join (LocalDir cfg) filePath)) k)
          filesToDelete
     then None else w_fs w !! k).
Proof.
  rewrite removeLocalFiles_fs. generalize (w_fs w). clear w.
  induction filesToDelete as [|f files IH]; intros fs; cbn [fold_left existsb]; [done|].
  rewrite IH. unfold os.RemoveAll. cbn [snd].
  destruct (existsb _ files); [by rewrite orb_true_r|]. rewrite orb_false_r.
  rewrite map_lookup_filter.
  destruct (os.at_or_below _ k) eqn:Hk.
  - destruct (fs !! k); [|done]. cbn. by rewrite option_guard_False by (cbn; congruence).
  - destruct (fs !! k); [|done]. cbn. by rewrite option_guard_True.
Qed.

(** X22: after a pull with mirror deletion whose pass returned nil, no
    local path that the enumeration after the pass lists and the remote
    enumeration lacks is left, nor anything below such a path; every other
    path is as the pass left it. For every [sort.Slice] that meets its
    contract. *)
Theorem restore_mirror_leaves_no_extras `{!SortSlice} {R : Type} `{!WebDAV R}
    (cfg : Config) (showProgress : bool) (fuel : nat) (w w1 w2 : World R)
    (remoteFiles localFiles : list string) :
  SyncDelete cfg = true →
  buildRemoteFileList fuel "/" w = Some (inl remoteFiles, w1) →
  SyncDirectory cfg showProgress fuel "/" w1 = Some (None, w2) →
  buildLocalFileList cfg w2 = (localFiles, None) →
  ∃ w',
    RestoreFromWebDAV cfg showProgress fuel w = Some (None, w') ∧
    (∀ x k, x ∈ localFiles → x ∉ remoteFiles →
       os.at_or_below (filepath.parse (filepath.Join (LocalDir cfg) x)) k = true →
       w_fs w' !! k = None) ∧
    (∀ k,
       (∀ x, x ∈ localFiles → x ∉ remoteFiles →
          os.at_or_below (filepath.parse (filepath.Join (LocalDir cfg) x)) k = false) →
       w_fs w' !! k = w_fs w2 !! k).
Proof.
  intros Hdelete Hremote Hpass Hlocal.
  rewrite (RestoreFromWebDAV_after_pass cfg showProgress fuel w _ _ _ _ Hremote Hpass).
  rewrite Hdelete, Hlocal. eexists. split; [done|].
  cbn [log_Printf World_Runtime emit w_fs].
  set (extras := sort_Slice longer_first (findExtraFiles localFiles remoteFiles)).
  assert (∀ x, x ∈ extras ↔ x ∈ localFiles ∧ x ∉ remoteFiles) as Hextras.
  { intros x. subst extras. rewrite sort_Slice_perm, findExtraFiles_filter.
    rewrite list_elem_of_In, filter_In, <- list_elem_of_In.
    rewrite negb_true_iff, bool_decide_eq_false. tauto. }
  split.
  - intros x k Hx Hnot Hbelow. rewrite removeLocalFiles_lookup.
    replace (existsb _ extras) with true; [done|].
    symmetry. apply existsb_exists. exists x. split; [|done].
    apply list_elem_of_In, Hextras. done.
  - intros k Hout. rewrite removeLocalFiles_lookup.
    replace (existsb _ extras) with false; [done|].
    symmetry. apply not_true_iff_false. intros (x & Hx & Hbelow)%existsb_exists.
    apply list_elem_of_In, Hextras in Hx as [Hx Hnot].
    rewrite (Hout x Hx Hnot) in Hbelow. done.
Qed.

(** ** How long Retry waits *)

Lemma backoffs_total (baseDelay : Duration) (k : nat) :
  0 ≤ baseDelay → baseDelay * 2 ^ Z.of_nat k < 2 ^ 63 →
  foldr Z.add 0 (backoffs baseDelay k) = baseDelay * (2 ^ Z.of_nat k - 1).
Proof.
  intros Hnn. unfold backoffs. induction k as [|k IH]; intros Hfit; [cbn; lia|].
  assert (2 ^ Z.of_nat (S k) = 2 * 2 ^ Z.of_nat k) as Hpow
    by (rewrite Nat2Z.inj_succ, Z.pow_succ_r; lia).
  assert (0 < 2 ^ Z.of_nat k) as Hpos by lia.
  rewrite seq_S, fmap_app, foldr_app. cbn [fmap list_fmap foldr Nat.add].
  rewrite backoff_exact by nia.
  assert (∀ (l : list Z) a, foldr Z.add a l = foldr Z.add 0 l + a) as Hacc.
  { induction l as [|x l IHl]; intros a; cbn; [lia|]. rewrite IHl. lia. }
  rewrite Hacc, IH by nia. rewrite Hpow. lia.
Qed.

(** X23: for [maxAttempts >= 1] and a base delay that is not negative
    and does not overflow when doubled [maxAttempts - 1] times, [Retry]
    sleeps once less than it runs the operation, for
    [baseDelay * (2^k - 1)] in total after [k] sleeps; that is at most
    [baseDelay * (2^(maxAttempts-1) - 1)], and exactly that when it gives
    up. *)
Theorem Retry_total_sleep {W : Type} `{!Runtime W}
    (operation : W → option error * W) (maxAttempts : Z) (baseDelay : Duration) (w : W) :
  1 ≤ maxAttempts → 0 ≤ baseDelay → baseDelay * 2 ^ (maxAttempts - 1) < 2 ^ 63 →
  let '(r, p) := util.Retry maxAttempts baseDelay (probed operation) (probe w) in
  let slept := foldr Z.add 0 (sleeps p) in
  length (sleeps p) = (length (outcomes p) - 1)%nat ∧
  slept = baseDelay * (2 ^ Z.of_nat (length (sleeps p)) - 1) ∧
  slept ≤ baseDelay * (2 ^ (maxAttempts - 1) - 1) ∧
  (is_Some r → slept = baseDelay * (2 ^ (maxAttempts - 1) - 1)).
Proof.
  intros Hpos Hnn Hfit. unfold util.Retry.
  pose proof (Retry_loop_probe operation maxAttempts (Z.to_nat maxAttempts) 0
                baseDelay None (probe w) ltac:(lia)) as Hprobe.
  destruct (util.Retry_loop _ _ _ _ _ (probed operation) _) as [r p].
  destruct Hprobe as (new & Hout & Hlen & _ & Hsleeps & Hr).
  cbn [probe outcomes sleeps app] in Hout, Hsleeps.
  assert (length (sleeps p) = (length new - 1)%nat) as Hk.
  { rewrite Hsleeps. unfold backoffs. by rewrite length_fmap, length_seq. }
  assert (Z.of_nat (length new - 1) ≤ maxAttempts - 1) as Hle by lia.
  assert (2 ^ Z.of_nat (length new - 1) ≤ 2 ^ (maxAttempts - 1)) as Hpow
    by (apply Z.pow_le_mono_r; lia).
  assert (foldr Z.add 0 (sleeps p)
          = baseDelay * (2 ^ Z.of_nat (length new - 1) - 1)) as Hsum.
  { rewrite Hsleeps. apply backoffs_total; [done|]. nia. }
  cbv zeta. rewrite Hout, Hk. split; [done|]. split; [done|].
  split; [rewrite Hsum; nia|].
  intros [e ->]. destruct Hr as (Hall & _ & _).
  rewrite Hsum. do 2 f_equal. f_equal. lia.
Qed.

(** ** The theorems of this part, at concrete runs *)


(** A server that answers reads like the in-memory one and refuses every
    write. *)
Definition read_only_server : WebDAV Server :=
  {| dav_ReadDir := memdav.ReadDir; dav_Stat := memdav.Stat;
     dav_ReadStream := memdav.ReadStream;
     dav_WriteStream := λ p _ s, (([], Some ("PUT " +:+ p +:+ ": 403")), s);
     dav_Mkdir := λ p s, (Some ("MKCOL " +:+ p +:+ ": 403"), s);
     dav_Remove := λ p s, (Some ("DELETE " +:+ p +:+ ": 403"), s) |}.

(** A server like the in-memory one that refuses to delete and to send
    content. *)
Definition keeping_server : WebDAV Server :=
  {| dav_ReadDir := memdav.ReadDir; dav_Stat := memdav.Stat;
     dav_ReadStream := λ p s, (inr ("GET " +:+ p +:+ ": 403"), s);
     dav_WriteStream := memdav.WriteStream;
     dav_Mkdir := memdav.Mkdir;
     dav_Remove := λ p s, (Some ("DELETE " +:+ p +:+ ": 403"), s) |}.

(** [srv_docs] with the collection [docs/2024]. *)
Definition srv_docs_2024 : Server :=
  with_fs (<[(true, ["docs"; "2024"]) := os.dir_node (srv_clock srv_docs)]>
             (srv_fs srv_docs)) srv_docs.


Lemma ListFiles_paths_witness :
  ∃ entry w',
    ListFiles "docs" (world local_empty srv_docs) = (inl [entry], w') ∧
    Path entry = "/docs/a.txt" ∧
    strings_HasPrefix (Path entry) "/" = true.
Proof.
  pose proof (ListFiles_paths "docs" (world local_empty srv_docs)) as Hlist.
  cbv zeta in Hlist.
  change (bool_decide ("docs" = "" ∨ "docs" = "/")) with false in Hlist.
  cbv iota in Hlist.
  change (strings_HasPrefix "docs" "/") with false in Hlist. cbv iota in Hlist.
  evaluate (dav_ReadDir ("/" +:+ "docs") (w_remote (world local_empty srv_docs))) Hread.
  rewrite Hread in Hlist. destruct Hlist as [Hlist Hentries].
  do 2 eexists. split; [exact Hlist|]. split; [reflexivity|].
  refine (proj2 (proj2 (Hentries _ _)) eq_refl). by left.
Defined.

Lemma leading_slash_is_optional_witness :
  strings_HasPrefix "docs" "/" = false ∧
  ListFiles "/docs" (world local_empty srv_docs)
  = ListFiles "docs" (world local_empty srv_docs).
Proof.
  split; [reflexivity|].
  exact (proj1 (proj2 (leading_slash_is_optional "docs" (world local_empty srv_docs)
                         eq_refl))).
Defined.

Lemma MakeDir_accepts_existing_witness :
  let Inv := λ r : Server, r = srv_docs ∨ r = srv_docs_2024 in
  (∀ path r, path ∈ MakeDir_prefixes (filepath.split (trim_slash "/docs/2024")) "" →
     Inv r →
     match dav_Mkdir path r with
     | (None, r1) => Inv r1
     | (Some _, r1) =>
         ∃ info r2, dav_Stat path r1 = (inl info, r2) ∧ fi_IsDir info = true ∧ Inv r2
     end) ∧
  Inv srv_docs ∧
  (MakeDir "/docs/2024" (world local_empty srv_docs)).1 = None.
Proof.
  intros Inv.
  assert (∀ path r,
            path ∈ MakeDir_prefixes (filepath.split (trim_slash "/docs/2024")) "" →
            Inv r →
            match dav_Mkdir path r with
            | (None, r1) => Inv r1
            | (Some _, r1) =>
                ∃ info r2, dav_Stat path r1 = (inl info, r2)
                           ∧ fi_IsDir info = true ∧ Inv r2
            end) as Hserver.
  { intros path r Hin Hinv.
    change (MakeDir_prefixes (filepath.split (trim_slash "/docs/2024")) "")
      with ["docs"; "docs/2024"] in Hin.
    apply elem_of_cons in Hin as [->|Hin];
      [|apply list_elem_of_singleton in Hin as ->];
      destruct Hinv as [->| ->]; subst Inv; cbv beta.
    - assert (dav_Mkdir "docs" srv_docs = (Some "MKCOL docs: 405", srv_docs))
        as -> by (vm_compute; reflexivity).
      assert (∃ info, dav_Stat "docs" srv_docs = (inl info, srv_docs)
                      ∧ fi_IsDir info = true) as (info & Hst & Hdir)
        by (eexists; vm_compute; split; reflexivity).
      exists info, srv_docs. split; [exact Hst|]. split; [exact Hdir|left; reflexivity].
    - assert (dav_Mkdir "docs" srv_docs_2024 = (Some "MKCOL docs: 405", srv_docs_2024))
        as -> by (vm_compute; reflexivity).
      assert (∃ info, dav_Stat "docs" srv_docs_2024 = (inl info, srv_docs_2024)
                      ∧ fi_IsDir info = true) as (info & Hst & Hdir)
        by (eexists; vm_compute; split; reflexivity).
      exists info, srv_docs_2024. split; [exact Hst|]. split; [exact Hdir|right; reflexivity].
    - assert (dav_Mkdir "docs/2024" srv_docs = (None, srv_docs_2024))
        as -> by (vm_compute; reflexivity).
      right; reflexivity.
    - assert (dav_Mkdir "docs/2024" srv_docs_2024
              = (Some "MKCOL docs/2024: 405", srv_docs_2024))
        as -> by (vm_compute; reflexivity).
      assert (∃ info, dav_Stat "docs/2024" srv_docs_2024 = (inl info, srv_docs_2024)
                      ∧ fi_IsDir info = true) as (info & Hst & Hdir)
        by (eexists; vm_compute; split; reflexivity).
      exists info, srv_docs_2024. split; [exact Hst|]. split; [exact Hdir|right; reflexivity]. }
  split; [exact Hserver|]. split; [left; reflexivity|].
  exact (proj1 (MakeDir_accepts_existing Inv "/docs/2024"
                  (world local_empty srv_docs) Hserver (or_introl eq_refl))).
Defined.

Lemma RemoveRemoteAll_outcome_witness :
  ∃ w',
    RemoveRemoteAll 3 "docs" (world local_empty srv_docs) = Some (None, w') ∧
    srv_fs (w_remote w') = srv_fs srv_empty ∧
    ∃ w0, RemoveRemote "docs" w0 = (None, w').
Proof.
  evaluate (RemoveRemoteAll 3 "docs" (world local_empty srv_docs)) Hrun.
  eexists. split; [exact Hrun|]. split; [vm_compute; reflexivity|].
  pose proof (RemoveRemoteAll_outcome _ _ _ _ _ Hrun) as Hout.
  evaluate (dav_Stat "docs" (w_remote (world local_empty srv_docs))) Hstat.
  rewrite Hstat in Hout. exact (proj2 Hout eq_refl).
Defined.

Lemma download_delivers_the_stream_witness :
  os.ReadFile "sync/a.txt"
    (w_fs (DownloadFileWithProgress "a.txt" "sync/a.txt" (seconds 6) None
             (world local_empty srv_a)).2)
  = inl hello ∧
  w_fs (DownloadFileWithProgress "a.txt" "sync/a.txt" (seconds 6) None
          (world local_empty srv_a)).2 !! filepath.parse "sync/a.txt.download" = None.
Proof.
  evaluate (dav_Stat "a.txt" (w_remote (world local_empty srv_a))) Hstat.
  evaluate (dav_ReadStream "a.txt" srv_a) Hread.
  evaluate (os.Create "sync/a.txt.download" (w_clock (world local_empty srv_a))
              (w_fs (world local_empty srv_a))) Hcreate.
  pose proof (download_delivers_the_stream "a.txt" "sync/a.txt" (seconds 6) None
                (world local_empty srv_a) _ _ _ _ _ _ Hstat Hread eq_refl Hcreate
                ltac:(vm_compute; reflexivity)) as Hrun.
  destruct (DownloadFileWithProgress _ _ _ _ _) as [err w'].
  destruct Hrun as (_ & _ & _ & Hdata & Htmp). split; [exact Hdata|exact Htmp].
Defined.

Lemma backup_leaves_local_tree_witness :
  ∃ w',
    BackupToWebDAV cfg_push false 3 (world (local_file "a.txt" (seconds 100)) srv_old)
    = Some (None, w') ∧
    w_fs w' = local_file "a.txt" (seconds 100).
Proof.
  evaluate (BackupToWebDAV cfg_push false 3
              (world (local_file "a.txt" (seconds 100)) srv_old)) Hrun.
  eexists. split; [exact Hrun|].
  exact (backup_leaves_local_tree _ _ _ _ _ _ Hrun).
Defined.

Lemma restore_only_reads_the_server_witness :
  (∀ p r, @dav_ReadDir Server Server_WebDAV p r = @dav_ReadDir Server read_only_server p r) ∧
  (∀ p r, @dav_Stat Server Server_WebDAV p r = @dav_Stat Server read_only_server p r) ∧
  (∀ p r, @dav_ReadStream Server Server_WebDAV p r
          = @dav_ReadStream Server read_only_server p r) ∧
  @RestoreFromWebDAV Server Server_WebDAV _ cfg_pull false 3
    (world (local_file "old.txt" (seconds 5)) srv_docs)
  = @RestoreFromWebDAV Server read_only_server _ cfg_pull false 3
      (world (local_file "old.txt" (seconds 5)) srv_docs).
Proof.
  split; [done|]. split; [done|]. split; [done|].
  exact (restore_only_reads_the_server Server_WebDAV read_only_server
           (λ _ _, eq_refl) (λ _ _, eq_refl) (λ _ _, eq_refl) cfg_pull false 3 _).
Defined.

Lemma backup_without_delete_never_removes_witness :
  SyncDelete (with_delete false cfg_push) = false ∧
  @BackupToWebDAV Server Server_WebDAV _ (with_delete false cfg_push) false 3
    (world (local_file "a.txt" (seconds 100)) srv_old)
  = @BackupToWebDAV Server keeping_server _ (with_delete false cfg_push) false 3
      (world (local_file "a.txt" (seconds 100)) srv_old).
Proof.
  split; [reflexivity|].
  exact (backup_without_delete_never_removes Server_WebDAV keeping_server
           (λ _ _, eq_refl) (λ _ _, eq_refl) (λ _ _, eq_refl) (λ _ _ _, eq_refl)
           (with_delete false cfg_push) false 3 _ eq_refl).
Defined.

Lemma restore_without_delete_keeps_local_paths_witness :
  SyncDelete (with_delete false cfg_pull) = false ∧
  ∃ w',
    RestoreFromWebDAV (with_delete false cfg_pull) false 3
      (world (local_file "old.txt" (seconds 5)) srv_a) = Some (None, w') ∧
    is_Some (w_fs w' !! filepath.parse "sync/old.txt").
Proof.
  split; [reflexivity|].
  evaluate (RestoreFromWebDAV (with_delete false cfg_pull) false 3
              (world (local_file "old.txt" (seconds 5)) srv_a)) Hrun.
  eexists. split; [exact Hrun|].
  apply (restore_without_delete_keeps_local_paths (with_delete false cfg_pull) false 3
           _ _ _ eq_refl Hrun
           (filepath.parse "sync/old.txt")).
  - by eexists.
  - intros x Hx%(f_equal String.length). rewrite string_length_app in Hx.
    change (String.length (os.last_name (filepath.parse "sync/old.txt")))
      with 7%nat in Hx.
    change (String.length ".download") with 9%nat in Hx. lia.
Defined.

Lemma SyncFile_settles_witness :
  ∃ w1,
    SyncFile cfg_pull false file_a (world local_empty srv_a) = (None, w1) ∧
    SyncFile cfg_pull false file_a w1 = (None, log_Printf (LogSkip "a.txt") w1).
Proof.
  evaluate (SyncFile cfg_pull false file_a (world local_empty srv_a)) Hrun.
  eexists. split; [exact Hrun|].
  exact (proj1 (SyncFile_settles cfg_pull false file_a _ _ Hrun)).
Defined.

Lemma SyncDirectory_directories_first_witness :
  ∃ remoteFiles w1 order,
    ListFiles "/" (world local_empty srv_docs) = (inl remoteFiles, w1) ∧
    SyncDirectory cfg_pull false 3 "/" (world local_empty srv_docs)
    = match run_tasks (sync_task cfg_pull false 2) order w1 with
      | None => None
      | Some (syncErrors, w') => Some (collect syncErrors, w')
      end ∧
    order ≡ₚ remoteFiles.
Proof.
  evaluate (ListFiles "/" (world local_empty srv_docs)) Hlist.
  destruct (SyncDirectory_directories_first cfg_pull false 2 "/" _ _ _ Hlist)
    as (order & Hrun & Hperm & _).
  do 3 eexists. split; [exact Hlist|]. split; [exact Hrun|exact Hperm].
Defined.

Lemma restore_mirror_leaves_no_extras_witness :
  SyncDelete cfg_pull = true ∧
  ∃ w',
    RestoreFromWebDAV cfg_pull false 3 (world (local_file "old.txt" (seconds 5)) srv_a)
    = Some (None, w') ∧
    w_fs w' !! filepath.parse "sync/old.txt" = None ∧
    is_Some (w_fs w' !! filepath.parse "sync/a.txt").
Proof.
  split; [reflexivity|].
  evaluate (buildRemoteFileList 3 "/" (world (local_file "old.txt" (seconds 5)) srv_a))
    Hremote.
  evaluate (SyncDirectory cfg_pull false 3 "/"
              (world (local_file "old.txt" (seconds 5)) srv_a)) Hpass.
  match type of Hpass with
  | _ = Some (None, ?w2) => evaluate (buildLocalFileList cfg_pull w2) Hlocal
  end.
  destruct (restore_mirror_leaves_no_extras cfg_pull false 3 _ _ _ _ _
              eq_refl Hremote Hpass Hlocal) as (w' & Hrun & Hgone & Hkept).
  exists w'. split; [exact Hrun|]. split.
  - apply (Hgone "old.txt"); [right; left| |vm_compute; reflexivity].
    by intros ?%list_elem_of_singleton.
  - rewrite Hkept; [vm_compute; by eexists|].
    intros x [->|Hx%list_elem_of_singleton]%elem_of_cons Hnot.
    + exfalso. apply Hnot. left.
    + subst x. vm_compute. reflexivity.
Defined.

Lemma Retry_total_sleep_witness :
  1 ≤ 3 ∧ 0 ≤ 2 * time.Second ∧ 2 * time.Second * 2 ^ (3 - 1) < 2 ^ 63 ∧
  foldr Z.add 0
    (sleeps (util.Retry 3 (2 * time.Second) (probed always_fails)
               (probe (world local_empty srv_empty))).2)
  = 6 * time.Second.
Proof.
  split; [lia|]. split; [by vm_compute|]. split; [by vm_compute|].
  pose proof (Retry_total_sleep always_fails 3 (2 * time.Second)
                (world local_empty srv_empty) ltac:(lia) ltac:(by vm_compute)
                ltac:(by vm_compute)) as Hrun.
  evaluate (util.Retry 3 (2 * time.Second) (probed always_fails)
              (probe (world local_empty srv_empty))) Hvalue.
  rewrite Hvalue in Hrun |- *. cbv beta iota zeta in Hrun.
  exact (proj2 (proj2 (proj2 Hrun)) (ex_intro _ _ eq_refl)).
Defined.
